(** * sdc-vmapi: the VM mutation engine

    A shallow embedding of the workflow task bodies of
    [lib/workflows/provision.js] and [lib/workflows/add-nics.js], of the
    declarative pipelines (provision, add-nics, migrate-begin, migrate-sync,
    migrate-switch), of the error constructors of [lib/errors.js] and of the
    VM endpoints, followed by the properties proved about them.

    Conventions of the embedding:
    - a JavaScript value is a term of [JS.value]; a plain object is a finite
      map from property names to values ([gmap string value]); an array is a
      list;
    - the prototype chain is not modelled: every property name the source
      reads or writes is assumed distinct from the members of
      [Object.prototype] (such as [hasOwnProperty]);
    - code that can raise an exception returns an [outcome];
    - calls to other services (CNAPI, WFAPI, the [apg] binary, JSON) take
      their answer as an argument or as a section variable. *)

From stdpp Require Import gmap strings list fin_maps pretty.

Local Set Warnings "-register-all".
Local Open Scope string_scope.
Local Open Scope Z_scope.

(** ** Part I: the model *)

(** *** JavaScript values *)

Module JS.

(** Numbers are the integers: the parameters of a job carry sizes, counts
    and versions, and the code only tests, copies or prints them. *)
Inductive value : Type :=
| VUndefined
| VNull
| VBool (b : bool)
| VNum (n : Z)
| VStr (s : string)
| VArr (items : list value)
| VObj (props : gmap string value).

(** What goes wrong inside a function body.  [Unsupported] marks the runs
    that leave the value model: a named property written on an array or on a
    primitive (whose effect depends on the strictness of the evaluation
    context), or an array-like object iterated by index. *)
Inductive failure : Type :=
| TypeError (what : string)
| AssertionError (what : string)
| Unsupported (what : string).

Inductive outcome (A : Type) : Type :=
| Done (a : A)
| Fails (e : failure).
Arguments Done {A} a.
Arguments Fails {A} e.

#[global] Instance outcome_ret : MRet outcome := λ A a, Done a.
#[global] Instance outcome_bind : MBind outcome := λ A B k m,
  match m with
  | Done a => k a
  | Fails e => Fails e
  end.

(** [x === undefined] *)
Definition is_undefined (v : value) : bool :=
  match v with VUndefined => true | _ => false end.

(** [x === false] *)
Definition is_false (v : value) : bool :=
  match v with VBool false => true | _ => false end.

(** [x === true] *)
Definition is_true (v : value) : bool :=
  match v with VBool true => true | _ => false end.

(** ToBoolean, as used by [if (x)], [!x], [a || b], [a && b]. *)
Definition truthy (v : value) : bool :=
  match v with
  | VUndefined | VNull => false
  | VBool b => b
  | VNum n => negb (n =? 0)
  | VStr s => negb (String.eqb s "")
  | VArr _ | VObj _ => true
  end.

(** [typeof x === 'object']: true of [null], of arrays and of objects. *)
Definition typeof_object (v : value) : bool :=
  match v with VNull | VArr _ | VObj _ => true | _ => false end.

(** [Array.isArray(x)] *)
Definition isArray (v : value) : bool :=
  match v with VArr _ => true | _ => false end.

(** [a === b].  Primitives compare by value.  Arrays and objects compare by
    reference: job parameters are deserialised JSON, a tree without sharing,
    so two array elements taken at two positions are never the same
    reference. *)
Definition strict_eq (a b : value) : bool :=
  match a, b with
  | VUndefined, VUndefined => true
  | VNull, VNull => true
  | VBool x, VBool y => Bool.eqb x y
  | VNum x, VNum y => (x =? y)%Z
  | VStr x, VStr y => String.eqb x y
  | _, _ => false
  end.

(** [x === 'literal'] *)
Definition is_str (s : string) (v : value) : bool := strict_eq v (VStr s).

(** [arr.indexOf(x) !== -1] *)
Definition includes (l : list value) (x : value) : bool :=
  existsb (strict_eq x) l.

(** ToString, as applied by [+] with a string operand. *)
Fixpoint to_string (v : value) : string :=
  match v with
  | VUndefined => "undefined"
  | VNull => "null"
  | VBool true => "true"
  | VBool false => "false"
  | VNum n => pretty n
  | VStr s => s
  | VArr l =>
      String.concat ","
        (List.map (λ x, match x with
                        | VUndefined | VNull => ""
                        | _ => to_string x
                        end) l)
  | VObj _ => "[object Object]"
  end.

(** [o[k]] on a plain object: an absent key reads as [undefined]. *)
Definition pget (o : gmap string value) (k : string) : value :=
  default VUndefined (o !! k).

(** [o.hasOwnProperty(k)] on a plain object. *)
Definition phas (o : gmap string value) (k : string) : bool :=
  bool_decide (is_Some (o !! k)).

(** [v[k]] for a property name [k] that is neither an array index nor
    [length]: reading through [undefined] or [null] raises, a primitive or an
    array has no such property. *)
Definition get_prop (v : value) (k : string) : outcome value :=
  match v with
  | VUndefined | VNull =>
      Fails (TypeError ("Cannot read property '" +:+ k +:+ "'"))
  | VObj o => Done (pget o k)
  | _ => Done VUndefined
  end.

(** [v.hasOwnProperty(k)], same proviso on [k]. *)
Definition has_own (v : value) (k : string) : outcome bool :=
  match v with
  | VUndefined | VNull =>
      Fails (TypeError "Cannot read property 'hasOwnProperty'")
  | VObj o => Done (phas o k)
  | _ => Done false
  end.

(** [v[k] = x], returning the updated [v]. *)
Definition set_prop (v : value) (k : string) (x : value) : outcome value :=
  match v with
  | VUndefined | VNull =>
      Fails (TypeError ("Cannot set property '" +:+ k +:+ "'"))
  | VObj o => Done (VObj (<[k := x]> o))
  | _ => Fails (Unsupported "named property written on a non-object")
  end.

(** [delete v[k]] on a value that is not [undefined] or [null]. *)
Definition delete_prop (v : value) (k : string) : value :=
  match v with
  | VObj o => VObj (delete k o)
  | _ => v
  end.

(** [v[i]] for an index [i]. *)
Definition get_index (v : value) (i : nat) : outcome value :=
  match v with
  | VUndefined | VNull => Fails (TypeError "Cannot read an index")
  | VArr l => Done (default VUndefined (l !! i))
  | VObj o => Done (pget o (pretty i))
  | VStr s =>
      Done (match String.get i s with
            | Some c => VStr (String c "")
            | None => VUndefined
            end)
  | _ => Done VUndefined
  end.

(** The pairs [(r, v[r])] enumerated by [for (var r in v)]: nothing for
    [null], [undefined] and primitives other than strings. *)
Definition for_in (v : value) : list (string * value) :=
  match v with
  | VObj o => map_to_list o
  | VArr l => imap (λ i x, (pretty i, x)) l
  | VStr s => imap (λ i c, (pretty i, VStr (String c ""))) (String.list_ascii_of_string s)
  | _ => []
  end.

End JS.

(** *** Workflow jobs and task callbacks *)

Module Job.
Import JS.

(** The job object handed to every task body: the fields the task bodies of
    this repository read or write.  [params] is always an object. *)
Record job : Type := Job {
  uuid : value;
  params : gmap string value;
  markAsFailedOnError : value;
  postBackState : value;
  taskId : value;
  expects : value;
  action : value;
  nfsVolumesInternalMetadata : value;
  endpoint : value;
  requestMethod : value;
  server_uuid : value
}.

Definition set_params (p : gmap string value) (j : job) : job :=
  Job (uuid j) p (markAsFailedOnError j) (postBackState j) (taskId j)
      (expects j) (action j) (nfsVolumesInternalMetadata j) (endpoint j)
      (requestMethod j) (server_uuid j).

Definition set_markAsFailedOnError (v : value) (j : job) : job :=
  Job (uuid j) (params j) v (postBackState j) (taskId j)
      (expects j) (action j) (nfsVolumesInternalMetadata j) (endpoint j)
      (requestMethod j) (server_uuid j).

Definition set_postBackState (v : value) (j : job) : job :=
  Job (uuid j) (params j) (markAsFailedOnError j) v (taskId j)
      (expects j) (action j) (nfsVolumesInternalMetadata j) (endpoint j)
      (requestMethod j) (server_uuid j).

Definition set_taskId (v : value) (j : job) : job :=
  Job (uuid j) (params j) (markAsFailedOnError j) (postBackState j) v
      (expects j) (action j) (nfsVolumesInternalMetadata j) (endpoint j)
      (requestMethod j) (server_uuid j).

Definition set_expects (v : value) (j : job) : job :=
  Job (uuid j) (params j) (markAsFailedOnError j) (postBackState j) (taskId j)
      v (action j) (nfsVolumesInternalMetadata j) (endpoint j)
      (requestMethod j) (server_uuid j).

Definition set_action (v : value) (j : job) : job :=
  Job (uuid j) (params j) (markAsFailedOnError j) (postBackState j) (taskId j)
      (expects j) v (nfsVolumesInternalMetadata j) (endpoint j)
      (requestMethod j) (server_uuid j).

Definition set_endpoint (v : value) (j : job) : job :=
  Job (uuid j) (params j) (markAsFailedOnError j) (postBackState j) (taskId j)
      (expects j) (action j) (nfsVolumesInternalMetadata j) v
      (requestMethod j) (server_uuid j).

Definition set_requestMethod (v : value) (j : job) : job :=
  Job (uuid j) (params j) (markAsFailedOnError j) (postBackState j) (taskId j)
      (expects j) (action j) (nfsVolumesInternalMetadata j) (endpoint j)
      v (server_uuid j).

Definition set_server_uuid (v : value) (j : job) : job :=
  Job (uuid j) (params j) (markAsFailedOnError j) (postBackState j) (taskId j)
      (expects j) (action j) (nfsVolumesInternalMetadata j) (endpoint j)
      (requestMethod j) v.

(** A job object as the workflow runner first builds it: nothing set but
    the job id and the parameters. *)
Definition fresh (id : value) (p : gmap string value) : job :=
  Job id p VUndefined VUndefined VUndefined VUndefined VUndefined VUndefined
      VUndefined VUndefined VUndefined.

(** What a task body passes to its callback: [cb(null, msg)] or
    [cb(err)] / [cb(err, msg)]. *)
Inductive callback : Type :=
| CbOk (msg : string)
| CbErr (err : value) (msg : option string).

Definition cb_ok (c : callback) : bool :=
  match c with CbOk _ => true | CbErr _ _ => false end.

(** The answer of a CNAPI call, [function (err, task)]. *)
Record cnapi_reply : Type := CnapiReply {
  reply_err : value;
  reply_task : value
}.

End Job.

(** *** lib/workflows/provision.js: the task bodies *)

Module Provision.
Import JS Job.

Definition VERSION : string := "8.2.2".

(** One run of [execFile(APG_COMMAND, APG_ARGS, function (err, stdout,
    stderr) ...)]. *)
Record apg_result : Type := ApgResult {
  apg_err : value;
  apg_stdout : string
}.

Definition LF : Ascii.ascii := Ascii.ascii_of_nat 10.
Definition CR : Ascii.ascii := Ascii.ascii_of_nat 13.

(** [stdout.toString().replace(/\n|\r/g, '')] *)
Fixpoint strip_newlines (s : string) : string :=
  match s with
  | EmptyString => EmptyString
  | String c rest =>
      if (Ascii.eqb c LF || Ascii.eqb c CR)%bool
      then strip_newlines rest
      else String c (strip_newlines rest)
  end.

(** [user.name + '_pw'] *)
Definition userKey (user : value) : outcome string :=
  uname ← get_prop user "name";
  Done (to_string uname +:+ "_pw").


(** The iterator that [async.mapSeries] runs over [users], one user after
    the other, stopping at the first error.  [n] counts the runs of [apg]
    made so far; the result carries the parameters, the count and the error
    given to the final callback, if any. *)
Fixpoint eachUser (apg : nat → apg_result) (users : list value) (n : nat)
    (p : gmap string value)
    : outcome (gmap string value * nat * option value) :=
  match users with
  | [] => Done (p, n, None)
  | user :: rest =>
      name ← userKey user;
      cur ← get_prop (pget p "internal_metadata") name;
      if is_undefined cur then
        let r := apg n in
        if truthy (apg_err r) then Done (p, S n, Some (apg_err r))
        else
          im ← set_prop (pget p "internal_metadata") name
                 (VStr (strip_newlines (apg_stdout r)));
          eachUser apg rest (S n) (<["internal_metadata" := im]> p)
      else eachUser apg rest n p
  end.

(** [if (job.params['internal_metadata'] === undefined)
    job.params['internal_metadata'] = {};] *)
Definition withMetadata (p : gmap string value) : gmap string value :=
  if is_undefined (pget p "internal_metadata")
  then <["internal_metadata" := VObj ∅]> p
  else p.

(** [generatePasswords(job, cb)].  Returns the job, the number of runs of
    [apg], and the callback arguments. *)
Definition generatePasswords (apg : nat → apg_result) (j : job)
    : outcome (job * nat * callback) :=
  let image := pget (params j) "image" in
  gp ← get_prop image "generate_passwords";
  if is_false gp then
    Done (j, 0%nat, CbOk "No need to generate passwords for image")
  else
    users ← get_prop image "users";
    match users with
    | VArr us =>
        '(p', n, err) ← eachUser apg us 0%nat (withMetadata (params j));
        match err with
        | Some e => Done (set_params p' j, n,
                          CbErr e (Some "Could not generate passwords"))
        | None => Done (set_params p' j, n,
                        CbOk "Passwords generated for Image")
        end
    | _ =>
        Done (j, 0%nat,
              CbOk "Image has generate_passwords=true but no users found")
    end.

(** The parameters copied verbatim to the CNAPI payload. *)
Definition keys : list string :=
  [ "alias"; "autoboot"; "billing_id"; "brand";
    "cpu_cap"; "cpu_shares"; "customer_metadata";
    "delegate_dataset"; "dns_domain"; "docker"; "do_not_inventory";
    "firewall_enabled"; "firewall_rules"; "fs_allowed";
    "hostname"; "indestructible_zoneroot"; "indestructible_delegated";
    "init_name"; "internal_metadata"; "kernel_version"; "limit_priv";
    "maintain_resolvers"; "max_locked_memory"; "max_lwps"; "max_msg_ids";
    "max_physical_memory"; "max_shm_memory"; "max_sem_ids"; "max_shm_ids";
    "max_swap"; "mdata_exec_timeout"; "nics";
    "owner_uuid"; "quota"; "ram";
    "resolvers"; "vcpus"; "zfs_data_compression"; "zfs_io_priority";
    "zlog_max_size"; "tags"; "tmpfs" ].

(** [for (i = 0; i < keys.length; i++) { if (params[key] !== undefined)
    payload[key] = params[key]; }] *)
Definition copyKeys (p payload : gmap string value) : gmap string value :=
  foldl (λ acc key,
           if is_undefined (pget p key) then acc
           else <[key := pget p key]> acc)
        payload keys.

(** The inner loop over [nic['resolvers']]: push what [indexOf] does not
    find. *)
Definition addResolvers (resolvers rs : list value) : list value :=
  foldl (λ acc resolver,
           if includes acc resolver then acc else (acc ++ [resolver])%list)
        resolvers rs.

(** The inner loop over [nic['routes']]: keep the key already there. *)
Definition addRoutes (routes : gmap string value)
    (rs : list (string * value)) : gmap string value :=
  foldl (λ acc kv, if phas acc kv.1 then acc else <[kv.1 := kv.2]> acc)
        routes rs.

(** The body of the loop over [params.nics]. *)
Definition nicStep (acc : list value * gmap string value) (nic : value)
    : outcome (list value * gmap string value) :=
  nr ← get_prop nic "resolvers";
  let resolvers :=
    match nr with
    | VArr l => addResolvers acc.1 l
    | _ => acc.1
    end in
  nroutes ← get_prop nic "routes";
  let routes :=
    if (negb (is_undefined nroutes) && typeof_object nroutes)%bool
    then addRoutes acc.2 (for_in nroutes)
    else acc.2 in
  Done (resolvers, routes).

Fixpoint nicLoop (nics : list value) (acc : list value * gmap string value)
    : outcome (list value * gmap string value) :=
  match nics with
  | [] => Done acc
  | nic :: rest => acc' ← nicStep acc nic; nicLoop rest acc'
  end.

(** The values [params.nics[i]] for [0 <= i < params.nics.length]. *)
Definition nicsItems (nics : value) : outcome (list value) :=
  match nics with
  | VUndefined | VNull => Fails (TypeError "Cannot read property 'length'")
  | VArr l => Done l
  | VStr s =>
      Done ((λ c, VStr (String c "")) <$> String.list_ascii_of_string s)
  | VObj o =>
      if is_undefined (pget o "length") then Done []
      else Fails (Unsupported "array-like nics")
  | _ => Done []
  end.

(** [['bhyve', 'kvm'].indexOf(brand) !== -1] *)
Definition isHvmBrand (brand : value) : bool :=
  includes [VStr "bhyve"; VStr "kvm"] brand.

Definition otherProps (brand : value) : list string :=
  (["disk_driver"; "nic_driver"; "cpu_type"]
   ++ (if is_str "bhyve" brand then ["flexible_disk_size"] else []))%list.

(** [otherProps.forEach(function addOtherPropsToPayload(field) ...)] *)
Fixpoint addOtherPropsToPayload (p : gmap string value) (image : value)
    (fields : list string) (payload : gmap string value)
    : outcome (gmap string value) :=
  match fields with
  | [] => Done payload
  | field :: rest =>
      x ← (if truthy (pget p field) then Done (pget p field)
           else get_prop image field);
      addOtherPropsToPayload p image rest (<[field := x]> payload)
  end.

(** The brand branch of [preparePayload]. *)
Definition brandFields (p : gmap string value) (image : value)
    (payload : gmap string value) : outcome (gmap string value) :=
  if isHvmBrand (pget p "brand") then
    payload' ← addOtherPropsToPayload p image (otherProps (pget p "brand"))
                 (<["disks" := pget p "disks"]> payload);
    Done (delete "quota" payload')
  else
    let payload' := <["image_uuid" := pget p "image_uuid"]> payload in
    Done (if is_undefined (pget p "filesystems") then payload'
          else <["filesystems" := pget p "filesystems"]> payload').

(** The kernel version of the image tags, unless the parameters have one:
    [if (payload.image.hasOwnProperty('tags') &&
    payload.image.tags.hasOwnProperty('kernel_version') &&
    !params.hasOwnProperty('kernel_version'))]. *)
Definition inheritKernelVersion (p : gmap string value) (image : value)
    : outcome (gmap string value) :=
  hasTags ← has_own image "tags";
  if hasTags : bool then
    tags ← get_prop image "tags";
    hasKv ← has_own tags "kernel_version";
    if (hasKv && negb (phas p "kernel_version"))%bool then
      kv ← get_prop tags "kernel_version";
      Done (<["kernel_version" := kv]> p)
    else Done p
  else Done p.

(** [if (payload.image.type === 'lx-dataset') params['brand'] = 'lx';] *)
Definition lxBrand (ity : value) (p : gmap string value)
    : gmap string value :=
  if is_str "lx-dataset" ity then <["brand" := VStr "lx"]> p else p.

(** [wantResolvers]: false when
    [internal_metadata.set_resolvers === false]. *)
Definition wantResolvers (p : gmap string value) : outcome bool :=
  let im := pget p "internal_metadata" in
  if (negb (is_undefined im) && typeof_object im)%bool then
    sr ← get_prop im "set_resolvers";
    Done (negb (is_false sr))
  else Done true.

(** [if (wantResolvers && !payload.resolvers) payload['resolvers'] =
    resolvers; if (Object.keys(routes).length !== 0) payload['routes'] =
    routes;] *)
Definition withResolversAndRoutes (want : bool)
    (acc : list value * gmap string value) (payload : gmap string value)
    : gmap string value :=
  let payload3 :=
    if (want && negb (truthy (pget payload "resolvers")))%bool
    then <["resolvers" := VArr acc.1]> payload
    else payload in
  if negb (size acc.2 =? 0)%nat then <["routes" := VObj acc.2]> payload3
  else payload3.

(** [if (params.imgapiPeers !== undefined) payload.imgapiPeers =
    params.imgapiPeers;] *)
Definition withImgapiPeers (p payload : gmap string value)
    : gmap string value :=
  if is_undefined (pget p "imgapiPeers") then payload
  else <["imgapiPeers" := pget p "imgapiPeers"]> payload.

(** [new Error(msg)], kept as an object with its message. *)
Definition Error (msg : string) : value := VObj {["message" := VStr msg]}.

Section PreparePayload.

(** [JSON.parse] (the text parsed, or the message of the SyntaxError) and
    [JSON.stringify]. *)
Variable JSON_parse : string → value + string.
Variable JSON_stringify : value → string.

(** [parsedNfsMetadata.forEach(function _eachVol(volObj) ...)]: replace
    [.mode = <string>] with [.readonly = true|false]. *)
Fixpoint eachVol (vols : list value) : outcome (list value) :=
  match vols with
  | [] => Done []
  | volObj :: rest =>
      mode ← get_prop volObj "mode";
      v ← set_prop volObj "readonly" (VBool (is_str "ro" mode));
      rest' ← eachVol rest;
      Done (delete_prop v "mode" :: rest')
  end.

(** The block guarded by [job.nfsVolumesInternalMetadata !== undefined].
    [payload.internal_metadata], when it was copied from the parameters, is
    the very object [params.internal_metadata]: what is written through the
    payload shows in the parameters too.  The result is the payload and the
    parameters, or the error handed to the callback. *)
Definition nfsMetadata (j : job) (p payload : gmap string value)
    : outcome (gmap string value * gmap string value + value) :=
  let nfs := nfsVolumesInternalMetadata j in
  if is_undefined nfs then Done (inl (payload, p))
  else
    let shared := phas payload "internal_metadata" in
    let im0 := if shared then pget payload "internal_metadata"
               else VObj ∅ in
    r ← (if is_true (pget p "docker") then
           match JSON_parse (to_string nfs) with
           | inr cause =>
               Done (inr (Error ("Could not parse NFS volumes metadata: "
                                 +:+ cause)))
           | inl (VArr vols) =>
               vols' ← eachVol vols;
               im1 ← set_prop im0 "docker:nfsvolumes"
                       (VStr (JSON_stringify (VArr vols')));
               Done (inl im1)
           | inl _ => Done (inr (Error "parsed nfsvolumes is not an array"))
           end
         else Done (inl im0));
    match r with
    | inr e => Done (inr e)
    | inl im1 =>
        im2 ← set_prop im1 "sdc:volumes" nfs;
        Done (inl (<["internal_metadata" := im2]> payload,
                   if shared then <["internal_metadata" := im2]> p else p))
    end.

(** [preparePayload(job, cb)] *)
Definition preparePayload (j : job) : outcome (job * callback) :=
  let p0 := <["jobid" := uuid j]> (params j) in
  let image := pget p0 "image" in
  let payload0 : gmap string value :=
    {[ "uuid" := pget p0 "vm_uuid"; "image" := image ]} in
  p1 ← inheritKernelVersion p0 image;
  ity ← get_prop image "type";
  let p2 := lxBrand ity p1 in
  let payload2 := <["archive_on_delete" := VBool true]> (copyKeys p2 payload0) in
  want ← wantResolvers p2;
  nics ← nicsItems (pget p2 "nics");
  acc ← nicLoop nics ([], (∅ : gmap string value));
  let payload4 := withResolversAndRoutes want acc payload2 in
  payload5 ← brandFields p2 image payload4;
  let payload6 := withImgapiPeers p2 payload5 in
  r ← nfsMetadata j p2 payload6;
  match r with
  | inr e => Done (set_params p2 j, CbErr e None)
  | inl (payload7, p3) =>
      Done (set_params (<["payload" := VObj payload7]> p3) j,
            CbOk "Payload prepared successfully")
  end.

End PreparePayload.

(** [job.params.payload], once [preparePayload] has set it. *)
Definition payloadOf (j : job) : gmap string value :=
  match pget (params j) "payload" with
  | VObj payload => payload
  | _ => ∅
  end.

(** The payload [ensureImage] sends to CNAPI. *)
Definition ensurePayload (j : job) : outcome (gmap string value) :=
  image_uuid ←
    (if isHvmBrand (pget (params j) "brand") then
       disk ← get_index (pget (params j) "disks") 0;
       get_prop disk "image_uuid"
     else Done (pget (params j) "image_uuid"));
  let e : gmap string value := {[ "image_uuid" := image_uuid ]} in
  Done (if is_undefined (pget (params j) "imgapiPeers") then e
        else <["imgapiPeers" := pget (params j) "imgapiPeers"]> e).

(** [ensureImage(job, cb)]; [cnapi_ensureImage server payload] is the answer
    of CNAPI. *)
Definition ensureImage (cnapi_ensureImage : value → value → cnapi_reply)
    (j : job) : outcome (job * callback) :=
  e ← ensurePayload j;
  let r := cnapi_ensureImage (pget (params j) "server_uuid") (VObj e) in
  if truthy (reply_err r) then Done (j, CbErr (reply_err r) None)
  else
    id ← get_prop (reply_task r) "id";
    Done (set_taskId id j, CbOk "Ensure image task queued!").

(** [provision(job, cb)]; [cnapi_createVm server payload] is the answer of
    CNAPI. *)
Definition provision (cnapi_createVm : value → value → cnapi_reply)
    (j : job) : outcome (job * callback) :=
  let p := <["jobid" := uuid j]> (delete "skip_zone_action" (params j)) in
  let autoboot := pget p "autoboot" in
  let j1 :=
    set_expects
      (if (is_false autoboot || is_str "false" autoboot)%bool
       then VStr "stopped" else VStr "running")
      (set_params p j) in
  let im := pget p "internal_metadata" in
  forced ← (if truthy im then
              f ← get_prop im "force_provision_failure";
              Done (truthy f)
            else Done false);
  if forced : bool then
    Done (j1, CbErr (VStr "force_provision_failure set, failing") None)
  else
    let r := cnapi_createVm (pget p "server_uuid") (pget p "payload") in
    if truthy (reply_err r) then Done (j1, CbErr (reply_err r) None)
    else
      id ← get_prop (reply_task r) "id";
      Done (set_markAsFailedOnError (VBool false) (set_taskId id j1),
            CbOk ("Provision task: " +:+ to_string id +:+ " queued!")).

(** [setPostBackFailed(job, cb)] *)
Definition setPostBackFailed (j : job) : job * callback :=
  if is_false (markAsFailedOnError j) then
    (j, CbOk ("markAsFailedOnError was set to false, "
              +:+ "won't set postBackState for VM"))
  else
    (set_postBackState (VStr "failed") j,
     CbOk "Set post back state as failed").

(** [setJobAction(job, cb)] *)
Definition setJobAction (j : job) : job * callback :=
  (set_action (VStr "provision") j, CbOk "Action set").

(** The settings the workflow runner gives the task bodies as globals;
    one that is not configured reads as [undefined]. *)
Record settings : Type := Settings {
  napiUrl : value;
  ufdsUrl : value;
  ufdsDn : value;
  ufdsPassword : value;
  cnapiUrl : value;
  fwapiUrl : value;
  imgapiUrl : value;
  sapiUrl : value
}.

(** [validateParams(job, cb)]: the job is not written. *)
Definition validateParams (s : settings) (j : job) : callback :=
  if is_undefined (napiUrl s) then
    CbErr (VStr "No NAPI parameters provided") None
  else if (is_undefined (ufdsUrl s) || is_undefined (ufdsDn s)
           || is_undefined (ufdsPassword s))%bool then
    CbErr (VStr "No UFDS parameters provided") None
  else if is_undefined (cnapiUrl s) then
    CbErr (VStr "No CNAPI URL provided") None
  else if is_undefined (fwapiUrl s) then
    CbErr (VStr "No FWAPI URL provided") None
  else if is_undefined (imgapiUrl s) then
    CbErr (VStr "No IMGAPI URL provided") None
  else if is_undefined (sapiUrl s) then
    CbErr (VStr "No SAPI URL provided") None
  else if is_undefined (pget (params j) "owner_uuid") then
    CbErr (VStr "'owner_uuid' is required") None
  else if is_undefined (pget (params j) "brand") then
    CbErr (VStr "VM 'brand' is required") None
  else CbOk "All parameters OK!".

(** The string holds a line feed or a carriage return. *)
Definition has_newline (s : string) : bool :=
  existsb (λ c, Ascii.eqb c LF || Ascii.eqb c CR)%bool
    (String.list_ascii_of_string s).

End Provision.

(** *** Declarative pipelines *)

Module Workflow.
Import JS Job.

(** The modules a workflow file imports tasks and task bodies from. *)
Inductive module : Type :=
| job_common          (* ./job-common *)
| fabric_common       (* ./fabric-common *)
| nfs_volumes         (* ./nfs-volumes *)
| migration_common    (* ./vm-migration/common *)
| migration_begin     (* ./vm-migration/begin *)
| migration_sync      (* ./vm-migration/sync *)
| migration_switch    (* ./vm-migration/switch *)
| cleanup_source      (* ./vm-migration/cleanup_source *)
| cleanup_target.     (* ./vm-migration/cleanup_target *)

#[global] Instance module_eq_dec : EqDecision module.
Proof. solve_decision. Defined.

(** The function a task runs. *)
Inductive body : Type :=
| Imported (m : module) (fn : string)   (* [common.cleanupNics] *)
| Local (fn : string)                   (* a function of the same file *)
| Anonymous (err : string).             (* [function (job, cb) { return cb(err); }] *)

#[global] Instance body_eq_dec : EqDecision body.
Proof. solve_decision. Defined.

(** A task: an object literal of the workflow file, or a task object
    exported by another module ([common.tasks.waitTask],
    [fabricCommon.releaseTicketTask], [cleanupSource]). *)
Inductive task : Type :=
| Task (name : string) (timeout retry : option Z) (b : body)
       (modules : option (list (string * string)))
| Exported (m : module) (path : list string).

#[global] Instance task_eq_dec : EqDecision task.
Proof. solve_decision. Defined.

(** An element of a [chain]: one task, or an array of tasks exported by
    another module and spliced in with [concat]. *)
Inductive item : Type :=
| One (t : task)
| Splice (m : module) (export : string).

#[global] Instance item_eq_dec : EqDecision item.
Proof. solve_decision. Defined.

Record workflow : Type := Workflow {
  name : string;
  version : string;
  chain : list item;
  timeout : Z;
  onerror : list task;
  oncancel : list task
}.

Definition task_name (t : task) : option string :=
  match t with
  | Task n _ _ _ _ => Some n
  | Exported _ _ => None
  end.

Definition task_body (t : task) : option body :=
  match t with
  | Task _ _ _ b _ => Some b
  | Exported _ _ => None
  end.

(** The members of [common.tasks], by name. *)
Definition common_task (n : string) : task := Exported job_common ["tasks"; n].

(** [lib/workflows/provision.js] *)
Definition provision : workflow := {|
  name := "provision-" +:+ Provision.VERSION;
  version := Provision.VERSION;
  chain := [
    One (Task "common.validate_params" (Some 10) (Some 1)
           (Local "validateParams") None);
    One (Task "workflow.set_job_action" (Some 10) (Some 1)
           (Local "setJobAction") (Some []));
    One (Task "imgapi.generate_passwords" (Some 10) (Some 1)
           (Local "generatePasswords")
           (Some [("childProcess", "child_process"); ("async", "async")]));
    Splice fabric_common "provisionChain";
    One (Task "cnapi.ensure_image" (Some 300) (Some 1)
           (Local "ensureImage") (Some [("sdcClients", "sdc-clients")]));
    One (Task "cnapi.wait_task_ensure_image" (Some 3600) (Some 1)
           (Imported job_common "waitTask")
           (Some [("sdcClients", "sdc-clients")]));
    One (Exported fabric_common ["provisionWaitTask"]);
    Splice nfs_volumes "provisionChain";
    One (Task "prepare_payload" (Some 10) (Some 1)
           (Local "preparePayload")
           (Some [("sdcClients", "sdc-clients"); ("VError", "verror")]));
    One (Task "cnapi.provision_vm" (Some 10) (Some 1)
           (Local "provision") (Some [("sdcClients", "sdc-clients")]));
    One (Task "cnapi.wait_task" (Some 3600) (Some 1)
           (Imported job_common "waitTask")
           (Some [("sdcClients", "sdc-clients")]));
    One (Task "volapi.add_volumes_references" (Some 120) (Some 1)
           (Imported nfs_volumes "addVolumesReferences")
           (Some [("sdcClients", "sdc-clients"); ("vasync", "vasync")]));
    One (Task "vmapi.put_vm" (Some 120) (Some 1)
           (Imported job_common "putVm")
           (Some [("sdcClients", "sdc-clients")]));
    One (Task "fwapi.update" (Some 10) (Some 1)
           (Imported job_common "updateFwapi")
           (Some [("sdcClients", "sdc-clients")]));
    One (Task "cnapi.release_vm_ticket" (Some 60) (Some 1)
           (Imported job_common "releaseVMTicket")
           (Some [("sdcClients", "sdc-clients")]));
    One (Exported fabric_common ["releaseFabricNatTickets"])
  ];
  timeout := 3810;
  onerror := [
    Task "napi.cleanup_nics" (Some 10) (Some 1)
      (Imported job_common "cleanupNics")
      (Some [("sdcClients", "sdc-clients"); ("async", "async")]);
    Task "set_post_back_failed" None None
      (Local "setPostBackFailed") (Some []);
    Task "common.post_back" None None
      (Imported job_common "postBack")
      (Some [("async", "async"); ("restify", "restify");
             ("urlModule", "url")]);
    Task "cnapi.cleanup_allocation_ticket" None None
      (Imported job_common "releaseAllocationTicket")
      (Some [("sdcClients", "sdc-clients")]);
    Task "cnapi.cleanup_vm_ticket" None None
      (Imported job_common "releaseVMTicket")
      (Some [("sdcClients", "sdc-clients")]);
    Task "vmapi.refresh_vm_on_error" None None
      (Imported job_common "refreshVm") (Some [("restify", "restify")]);
    Exported fabric_common ["releaseFabricNatTickets"];
    Task "On error" None None (Anonymous "Error executing job") None
  ];
  oncancel := [
    Task "vmapi.refresh_vm" None None
      (Imported job_common "refreshVm") (Some [("restify", "restify")]);
    Task "cnapi.cleanup_vm_ticket" None None
      (Imported job_common "releaseVMTicket")
      (Some [("sdcClients", "sdc-clients")]);
    Task "cnapi.cleanup_allocation_ticket" None None
      (Imported job_common "releaseAllocationTicket")
      (Some [("sdcClients", "sdc-clients")]);
    Exported fabric_common ["releaseFabricNatTickets"]
  ]
|}.

Definition ADD_NICS_VERSION : string := "7.3.0".

(** [setupRequest(job, cb)] of [lib/workflows/add-nics.js] *)
Definition setupRequest (j : job) : job * callback :=
  let server := pget (params j) "server_uuid" in
  (set_server_uuid server
     (set_action (VStr "add_nics")
        (set_requestMethod (VStr "post")
           (set_params (<["jobid" := uuid j]> (params j))
              (set_endpoint
                 (VStr ("/servers/" +:+ to_string server +:+ "/vms/"
                        +:+ to_string (pget (params j) "vm_uuid")
                        +:+ "/update")) j)))),
   CbOk "Request has been setup!").

(** [lib/workflows/add-nics.js] *)
Definition add_nics : workflow := {|
  name := "add-nics-" +:+ ADD_NICS_VERSION;
  version := ADD_NICS_VERSION;
  chain := [
    One (Task "common.validate_params" (Some 10) (Some 1)
           (Imported job_common "validateForZoneAction") (Some []));
    One (Task "common.setup_request" (Some 10) (Some 1)
           (Local "setupRequest") (Some []));
    Splice fabric_common "provisionChain";
    One (Task "common.update_network_params" (Some 10) (Some 1)
           (Imported job_common "updateNetworkParams")
           (Some [("sdcClients", "sdc-clients")]));
    One (Task "cnapi.acquire_vm_ticket" (Some 10) (Some 1)
           (Imported job_common "acquireVMTicket")
           (Some [("sdcClients", "sdc-clients")]));
    One (Task "cnapi.wait_on_vm_ticket" (Some 120) (Some 1)
           (Imported job_common "waitOnVMTicket")
           (Some [("sdcClients", "sdc-clients")]));
    One (Exported fabric_common ["provisionWaitTask"]);
    One (Task "cnapi.update_vm" (Some 10) (Some 1)
           (Imported job_common "zoneAction") (Some [("restify", "restify")]));
    One (Task "cnapi.wait_task" (Some 120) (Some 1)
           (Imported job_common "waitTask")
           (Some [("sdcClients", "sdc-clients")]));
    One (Task "vmapi.check_updated" (Some 90) (Some 1)
           (Imported job_common "checkUpdated")
           (Some [("sdcClients", "sdc-clients")]));
    One (Task "vmapi.put_vm" (Some 60) (Some 1)
           (Imported job_common "putVm")
           (Some [("sdcClients", "sdc-clients")]));
    One (Task "fwapi.update" (Some 10) (Some 1)
           (Imported job_common "updateFwapi")
           (Some [("sdcClients", "sdc-clients")]));
    One (Task "cnapi.release_vm_ticket" (Some 60) (Some 1)
           (Imported job_common "releaseVMTicket")
           (Some [("sdcClients", "sdc-clients")]));
    One (Exported fabric_common ["releaseTicketTask"])
  ];
  timeout := 300;
  onerror := [
    Task "napi.cleanup_nics" (Some 10) (Some 1)
      (Imported job_common "cleanupNics")
      (Some [("sdcClients", "sdc-clients"); ("async", "async")]);
    Task "on_error.release_vm_ticket" None None
      (Imported job_common "releaseVMTicket")
      (Some [("sdcClients", "sdc-clients")]);
    Exported fabric_common ["releaseTicketTask"];
    Task "On error" None None (Anonymous "Error executing job") None
  ];
  oncancel := [
    Task "on_cancel.release_vm_ticket" None None
      (Imported job_common "releaseVMTicket")
      (Some [("sdcClients", "sdc-clients")]);
    Exported fabric_common ["releaseTicketTask"]
  ]
|}.

Definition MIGRATE_VERSION : string := "1.0.0".

Definition migrationCommon_task (n : string) : task :=
  Exported migration_common ["tasks"; n].
Definition migrationBegin_task (n : string) : task :=
  Exported migration_begin ["tasks"; n].
Definition migrationSync_task (n : string) : task :=
  Exported migration_sync ["tasks"; n].
Definition modSwitch_task (n : string) : task :=
  Exported migration_switch ["tasks"; n].
Definition cleanupSource : task := Exported cleanup_source [].
Definition cleanupTarget : task := Exported cleanup_target [].

(** The migrate-begin workflow *)
Definition migrate_begin : workflow := {|
  name := "migrate-begin-" +:+ MIGRATE_VERSION;
  version := MIGRATE_VERSION;
  timeout := 1200;
  chain := One <$> [
    common_task "validateForZoneAction";
    migrationCommon_task "validate";
    common_task "setupForWaitTask";
    migrationBegin_task "getSourceFilesystemDetails";
    common_task "waitTask";
    migrationBegin_task "storeSourceFilesystemDetails";
    migrationBegin_task "createProvisionPayload";
    common_task "acquireAllocationTicket";
    common_task "waitOnAllocationTicket";
    migrationBegin_task "allocateServer";
    common_task "releaseAllocationTicket";
    common_task "acquireVMTicket";
    common_task "waitOnVMTicket";
    migrationCommon_task "storeInitialRecord";
    migrationCommon_task "disallowRetry";
    common_task "releaseVMTicket";
    migrationBegin_task "provisionVm";
    common_task "setupForWaitTask";
    migrationBegin_task "setCreateTimestamp";
    common_task "waitTask";
    common_task "setupForWaitTask";
    migrationBegin_task "getTargetFilesystemDetails";
    common_task "waitTask";
    migrationBegin_task "storeTargetFilesystemDetails";
    common_task "setupForWaitTask";
    migrationCommon_task "removeTargetZfsQuota";
    common_task "waitTask";
    common_task "setupForWaitTask";
    migrationCommon_task "removeSourceZfsQuota";
    common_task "waitTask";
    migrationCommon_task "storeSuccess";
    migrationBegin_task "startSyncWhenAutomatic"
  ];
  onerror := [
    migrationCommon_task "storeFailure";
    common_task "releaseAllocationTicket";
    common_task "releaseVMTicketIgnoringErr"
  ];
  oncancel := [
    migrationCommon_task "storeFailure";
    common_task "releaseAllocationTicket";
    common_task "releaseVMTicketIgnoringErr"
  ]
|}.

(** The migrate-sync workflow *)
Definition migrate_sync : workflow := {|
  name := "migrate-sync-" +:+ MIGRATE_VERSION;
  version := MIGRATE_VERSION;
  timeout := 60 * 60 * 24;
  chain := One <$> [
    common_task "validateForZoneAction";
    migrationCommon_task "validate";
    common_task "acquireVMTicket";
    common_task "waitOnVMTicket";
    cleanupSource;
    cleanupTarget;
    migrationCommon_task "storeInitialRecord";
    common_task "releaseVMTicket";
    common_task "setupForWaitTask";
    migrationCommon_task "setupCnapiSource";
    common_task "waitTask";
    common_task "setupForWaitTask";
    migrationCommon_task "setupCnapiTarget";
    common_task "waitTask";
    migrationCommon_task "storeProcessDetails";
    migrationSync_task "sync";
    migrationCommon_task "storeSuccess";
    migrationSync_task "startSyncOrSwitchWhenAutomatic"
  ];
  onerror := [
    cleanupSource;
    cleanupTarget;
    migrationCommon_task "storeFailure";
    common_task "releaseVMTicketIgnoringErr"
  ];
  oncancel := [
    cleanupSource;
    cleanupTarget;
    migrationCommon_task "storeFailure";
    common_task "releaseVMTicketIgnoringErr"
  ]
|}.

(** The migrate-switch workflow *)
Definition migrate_switch : workflow := {|
  name := "migrate-switch-" +:+ MIGRATE_VERSION;
  version := MIGRATE_VERSION;
  timeout := 1800;
  chain := One <$> [
    common_task "validateForZoneAction";
    migrationCommon_task "validate";
    modSwitch_task "stopVm";
    common_task "waitForWorkflowJob";
    modSwitch_task "startFinalSync";
    common_task "waitForWorkflowJob";
    common_task "acquireVMTicket";
    common_task "waitOnVMTicket";
    modSwitch_task "ensureVmStopped";
    modSwitch_task "reserveNetworkIps";
    modSwitch_task "storeReservedNetworkIps";
    migrationCommon_task "storeInitialRecord";
    modSwitch_task "getSourceCoreFilesystemSize";
    common_task "waitTask";
    modSwitch_task "setupTargetFilesystem";
    common_task "waitTask";
    modSwitch_task "setTargetVmAutoboot";
    common_task "waitTask";
    modSwitch_task "setSourceDoNotInventory";
    common_task "waitTask";
    modSwitch_task "updateVmServerUuid";
    modSwitch_task "removeTargetDoNotInventory";
    common_task "waitTask";
    migrationCommon_task "storeSuccess";
    common_task "releaseVMTicket";
    modSwitch_task "startTargetVm";
    common_task "waitForWorkflowJob"
  ];
  onerror := [
    migrationCommon_task "storeFailure";
    modSwitch_task "unreserveNetworkIps";
    modSwitch_task "startSourceVm";
    Task "on_error.release_vm_ticket" None None
      (Imported job_common "releaseVMTicketIgnoringErr")
      (Some [("sdcClients", "sdc-clients")])
  ];
  oncancel := [
    migrationCommon_task "storeFailure";
    modSwitch_task "unreserveNetworkIps";
    modSwitch_task "startSourceVm";
    Task "on_cancel.release_vm_ticket" None None
      (Imported job_common "releaseVMTicketIgnoringErr")
      (Some [("sdcClients", "sdc-clients")])
  ]
|}.

(** The five composed pipelines. *)
Definition pipelines : list workflow :=
  [provision; add_nics; migrate_begin; migrate_sync; migrate_switch].

End Workflow.

(** *** Waitlist tickets and reconciliation *)

Module Coordination.
Import JS Job Workflow.

Inductive ticket : Type :=
| VmTicket           (* [vm:<uuid>] *)
| AllocationTicket   (* [allocation:<server>] *)
| FabricNatTicket.   (* the fabric-NAT allocation ticket *)

#[global] Instance ticket_eq_dec : EqDecision ticket.
Proof. solve_decision. Defined.

(** Modelled from the spec: [lib/workflows/job-common.js] and
    [lib/workflows/fabric-common.js] are not among the sources.  Which of
    their exports release which waitlist ticket follows the export names,
    the comments at their uses ("If this was a fabric nat provision, clean
    up the ticket") and sections 4.3 and 4.4 of the specification. *)
Definition fn_releases (m : module) (fn : string) : option ticket :=
  match m with
  | job_common =>
      if bool_decide (fn = "releaseVMTicket"
                      ∨ fn = "releaseVMTicketIgnoringErr")
      then Some VmTicket
      else if bool_decide (fn = "releaseAllocationTicket")
      then Some AllocationTicket
      else None
  | fabric_common =>
      if bool_decide (fn = "releaseFabricNatTickets"
                      ∨ fn = "releaseTicketTask")
      then Some FabricNatTicket
      else None
  | _ => None
  end.

(** Modelled from the spec: same sources, the exports that acquire a
    ticket; the fabric-NAT sub-pipeline takes the fabric-NAT ticket. *)
Definition fn_acquires (m : module) (fn : string) : option ticket :=
  match m with
  | job_common =>
      if bool_decide (fn = "acquireVMTicket") then Some VmTicket
      else if bool_decide (fn = "acquireAllocationTicket")
      then Some AllocationTicket
      else None
  | fabric_common =>
      if bool_decide (fn = "provisionChain") then Some FabricNatTicket
      else None
  | _ => None
  end.

(** The ticket a task releases, if it is a release task. *)
Definition releases (t : task) : option ticket :=
  match t with
  | Task _ _ _ (Imported m fn) _ => fn_releases m fn
  | Exported job_common ["tasks"; fn] => fn_releases job_common fn
  | Exported fabric_common [fn] => fn_releases fabric_common fn
  | _ => None
  end.

(** The ticket an element of a chain acquires, if any. *)
Definition acquires (i : item) : option ticket :=
  match i with
  | One (Task _ _ _ (Imported m fn) _) => fn_acquires m fn
  | One (Exported job_common ["tasks"; fn]) => fn_acquires job_common fn
  | Splice m export => fn_acquires m export
  | _ => None
  end.

Definition releases_ticket (k : ticket) (ts : list task) : bool :=
  existsb (λ t, bool_decide (releases t = Some k)) ts.

Definition acquires_ticket (k : ticket) (c : list item) : bool :=
  existsb (λ i, bool_decide (acquires i = Some k)) c.

(** The tasks of a chain, spliced arrays left out. *)
Definition chain_tasks (c : list item) : list task :=
  omap (λ i, match i with One t => Some t | Splice _ _ => None end) c.

(** A task that runs [common.cleanupNics]. *)
Definition is_cleanup_nics (t : task) : bool :=
  bool_decide (task_body t = Some (Imported job_common "cleanupNics")).

(** A NIC record of NAPI.  [precreated_for] is bookkeeping of the model,
    not a field NAPI stores: the id of the job the record was pre-created
    for (by the job itself from its networks, or by the caller before the
    job, which then names the record by its MAC); [None] for a record that
    was there before, such as the NICs a VM already has when an add-nics
    job starts. *)
Record nic : Type := Nic {
  mac : string;
  belongs_to_uuid : value;
  precreated_for : option string
}.

(** The record was pre-created for the job. *)
Definition precreated (j : job) (n : nic) : bool :=
  match precreated_for n with
  | Some id => is_str id (uuid j)
  | None => false
  end.

(** Modelled from the spec: [common.cleanupNics] of
    [lib/workflows/job-common.js], which is not among the sources.
    Section 4.6: on failure, "if markAsFailedOnError is true, cleans up any
    NICs pre-created in NAPI for this provision (observable: after a failed
    provision, GET /nics?belongs_to_uuid=<vm> returns empty) ... If false
    (physical zone may exist), leaves NICs"; section 4.3, add-nics: "On
    error: cleanup NICs in NAPI (remove any pre-created NIC records)".  The
    records pre-created for the job are removed and no other.  No task body
    sets the flag to [true]: a job whose flag was not set to [false] is the
    "true" case. *)
Definition cleanupNics (j : job) (napi : list nic) : list nic :=
  if is_false (markAsFailedOnError j) then napi
  else List.filter (λ n, negb (precreated j n)) napi.

(** [GET /nics?belongs_to_uuid=<vm>] *)
Definition nicsOf (vm : value) (napi : list nic) : list nic :=
  List.filter (λ n, strict_eq (belongs_to_uuid n) vm) napi.

(** Every element of the chain that acquires a ticket is followed, later
    in the chain, by a task that releases it. *)
Fixpoint released_later (c : list item) : bool :=
  match c with
  | [] => true
  | i :: rest =>
      (match acquires i with
       | Some k => releases_ticket k (chain_tasks rest)
       | None => true
       end && released_later rest)%bool
  end.

(** What a task runs, its name and limits left out: the body of a
    literal, the export otherwise. *)
Definition handling (t : task) : body + module * list string :=
  match t with
  | Task _ _ _ b _ => inl b
  | Exported m path => inr (m, path)
  end.

(** The task bodies that always fail the job: [function (job, cb) { return
    cb(err); }]. *)
Definition always_fails (t : task) : bool :=
  match t with
  | Task _ _ _ (Anonymous _) _ => true
  | _ => false
  end.

(** The [timeout] of a task literal. *)
Definition task_timeout (t : task) : option Z :=
  match t with
  | Task _ timeout _ _ _ => timeout
  | Exported _ _ => None
  end.

End Coordination.

(** *** lib/errors.js *)

Module Errors.
Import JS.

(** An error object after its constructor ran: what
    [restify.RestError.call(this, options)] (or
    [restify.ServiceUnavailableError.call]) records from the options it is
    given, and the name set on the prototype.  A plain [Error] has no
    status and no body. *)
Record error : Type := MkError {
  name : string;
  statusCode : option Z;
  message : value;
  body : option (gmap string value);
  code : option string
}.

(** [assert.string(v, what)] *)
Definition assert_string (v : value) (what : string) : outcome string :=
  match v with
  | VStr s => Done s
  | _ => Fails (AssertionError (what +:+ " (string) is required"))
  end.

(** The check of assert-plus for [object]:
    [typeof (arg) === 'object' && arg !== null]. *)
Definition is_object (v : value) : bool :=
  match v with VArr _ | VObj _ => true | _ => false end.

(** [assert.arrayOfObject(v, what)] *)
Definition assert_arrayOfObject (v : value) (what : string)
    : outcome (list value) :=
  match v with
  | VArr l =>
      if forallb is_object l then Done l
      else Fails (AssertionError (what +:+ " ([object]) is required"))
  | _ => Fails (AssertionError (what +:+ " ([object]) is required"))
  end.

(** [assert.arrayOfString(v, what)] *)
Definition assert_arrayOfString (v : value) (what : string)
    : outcome (list string) :=
  match v with
  | VArr l =>
      match mapM (λ x, match x with VStr s => Some s | _ => None end) l with
      | Some ss => Done ss
      | None => Fails (AssertionError (what +:+ " ([string]) is required"))
      end
  | _ => Fails (AssertionError (what +:+ " ([string]) is required"))
  end.

(** [assert.optionalObject(v, what)]: [undefined] and [null] pass. *)
Definition assert_optionalObject (v : value) (what : string) : outcome unit :=
  match v with
  | VUndefined | VNull | VArr _ | VObj _ => Done ()
  | _ => Fails (AssertionError (what +:+ " (object) is required"))
  end.

(** [assert.number(v, what)] *)
Definition assert_number (v : value) (what : string) : outcome Z :=
  match v with
  | VNum n => Done n
  | _ => Fails (AssertionError (what +:+ " (number) is required"))
  end.

(** [assert.optionalNumber(v, what)] *)
Definition assert_optionalNumber (v : value) (what : string) : outcome unit :=
  match v with
  | VUndefined | VNull | VNum _ => Done ()
  | _ => Fails (AssertionError (what +:+ " (number) is required"))
  end.

(** The call shared by the REST errors whose body is
    [{ code: restCode, message: message }]. *)
Definition restError (name restCode : string) (status : Z) (msg : string)
    : error :=
  MkError name (Some status) (VStr msg)
    (Some {[ "code" := VStr restCode; "message" := VStr msg ]}) None.

(** The REST errors whose body also carries [errors]. *)
Definition restErrorWithErrors (name restCode : string) (status : Z)
    (msg : string) (errors : list value) : error :=
  MkError name (Some status) (VStr msg)
    (Some {[ "code" := VStr restCode; "message" := VStr msg;
             "errors" := VArr errors ]}) None.

Definition UnallocatedVMError (message : value) : outcome error :=
  msg ← assert_string message "message";
  Done (restError "UnallocatedVMError" "UnallocatedVM" 409 msg).

Definition VmNotRunningError : outcome error :=
  Done (restError "VmNotRunningError" "VmNotRunning" 409 "VM not running").

Definition VmNotStoppedError : outcome error :=
  Done (restError "VmNotStoppedError" "VmNotStopped" 409 "VM not stopped").

Definition VmWithoutFlexibleDiskSizeError : outcome error :=
  Done (restError "VmWithoutFlexibleDiskSizeError" "VmWithoutFlexibleDiskSize"
          409 "VM does not have flexible disk sizing enabled").

Definition InsufficientDiskSpaceError : outcome error :=
  Done (restError "InsufficientDiskSpaceError" "InsufficientDiskSpace"
          409 "VM does not have sufficient free disk").

Definition BrandNotSupportedError (message : value) : outcome error :=
  msg ← assert_string message "message";
  Done (restError "BrandNotSupportedError" "BrandNotSupported" 409 msg).

Definition ValidationFailedError (message errors : value) : outcome error :=
  msg ← assert_string message "message";
  errs ← assert_arrayOfObject errors "errors";
  Done (restErrorWithErrors "ValidationFailedError" "ValidationFailed" 409
          msg errs).

Definition MorayBucketsNotSetupError (lastInitError : value)
    : outcome error :=
  _ ← assert_optionalObject lastInitError "lastInitError";
  let msg :=
    "Moray buckets are not setup"
    +:+ (if truthy lastInitError
         then ", last buckets setup error: " +:+ to_string lastInitError
         else "") in
  Done (MkError "MorayBucketsNotSetupError" (Some 503) (VStr msg)
          (Some {[ "code" := VStr "MorayBucketsNotSetup";
                   "message" := VStr msg;
                   "lastInitError" := lastInitError ]}) None).

Definition DataVersionError (modelName requiredVer actualVer featureDesc : value)
    : outcome error :=
  model ← assert_string modelName "modelName";
  required ← assert_number requiredVer "requiredVersion";
  _ ← assert_optionalNumber actualVer "actualVersion";
  feature ← assert_string featureDesc "featureDesc";
  let msg :=
    "Data for model " +:+ model +:+ " not at required version "
    +:+ pretty required +:+ " to support " +:+ feature
    +:+ ". Current data " +:+ "version is: " +:+ to_string actualVer in
  Done (restError "DataVersionError" "DataVersion" 503 msg).

Definition VolumesNotReachableError (errors : value) : outcome error :=
  errs ← assert_arrayOfObject errors "errors";
  Done (restErrorWithErrors "VolumesNotReachableError" "VolumesNotReachable"
          409 "Volumes not reachable from VM" errs).

Definition InvalidIndexesRemovalError (indexes : value) : outcome error :=
  ixs ← assert_arrayOfString indexes "indexes";
  Done (MkError "InvalidIndexesRemovalError" None
          (VStr ("Invalid removal of indexes: " +:+ String.concat ", " ixs))
          None None).

Definition InvalidDataMigrationFileNamesError (fileNames : value)
    : outcome error :=
  names ← assert_arrayOfString fileNames "fileNames";
  Done (MkError "InvalidDataMigrationFileNamesError" None
          (VStr ("Invalid data migration file name: "
                 +:+ String.concat "," names))
          None None).

(** [VolumeNotReachableError]: a plain error with [message] and
    [code = 'VolumeNotReachableError'], no status and no body. *)
Definition VolumeNotReachableError (message : value) : outcome error :=
  Done (MkError "Error" None message None (Some "VolumeNotReachableError")).

(** The constructors the module exports, with their arguments.
    ([wfapiWrap], which re-wraps an error of the workflow API with the
    fields of that error, is left out.) *)
Inductive ctor : Type :=
| NewUnallocatedVMError (message : value)
| NewVmNotRunningError
| NewVmNotStoppedError
| NewVmWithoutFlexibleDiskSizeError
| NewInsufficientDiskSpaceError
| NewBrandNotSupportedError (message : value)
| NewValidationFailedError (message errors : value)
| NewMorayBucketsNotSetupError (lastInitError : value)
| NewDataVersionError (modelName requiredVer actualVer featureDesc : value)
| NewVolumesNotReachableError (errors : value)
| NewInvalidIndexesRemovalError (indexes : value)
| NewInvalidDataMigrationFileNamesError (fileNames : value)
| NewVolumeNotReachableError (message : value).

(** [new C(args)] *)
Definition construct (c : ctor) : outcome error :=
  match c with
  | NewUnallocatedVMError m => UnallocatedVMError m
  | NewVmNotRunningError => VmNotRunningError
  | NewVmNotStoppedError => VmNotStoppedError
  | NewVmWithoutFlexibleDiskSizeError => VmWithoutFlexibleDiskSizeError
  | NewInsufficientDiskSpaceError => InsufficientDiskSpaceError
  | NewBrandNotSupportedError m => BrandNotSupportedError m
  | NewValidationFailedError m es => ValidationFailedError m es
  | NewMorayBucketsNotSetupError e => MorayBucketsNotSetupError e
  | NewDataVersionError m r a f => DataVersionError m r a f
  | NewVolumesNotReachableError es => VolumesNotReachableError es
  | NewInvalidIndexesRemovalError ixs => InvalidIndexesRemovalError ixs
  | NewInvalidDataMigrationFileNamesError ns =>
      InvalidDataMigrationFileNamesError ns
  | NewVolumeNotReachableError m => VolumeNotReachableError m
  end.

(** [a || b] *)
Definition or_else (a b : value) : value := if truthy a then a else b.

(** The builders of [errors] array elements. *)
Definition invalidUuidErrorsElem (field message : value)
    : gmap string value :=
  {[ "field" := or_else field (VStr "uuid");
     "code" := VStr "Invalid";
     "message" := or_else message (VStr "Invalid UUID") ]}.

Definition invalidParamErrorsElem (field message : value)
    : outcome (gmap string value) :=
  f ← assert_string field "field";
  Done {[ "field" := VStr f;
          "code" := VStr "Invalid";
          "message" := or_else message (VStr "Invalid parameter") ]}.

Definition insufficientCapacityErrorsElem (field message : value)
    : outcome (gmap string value) :=
  f ← assert_string field "field";
  Done {[ "field" := VStr f;
          "code" := VStr "InsufficientCapacity";
          "message" := or_else message (VStr "Invalid Capacity") ]}.

Definition duplicateParamErrorsElem (field message : value)
    : outcome (gmap string value) :=
  f ← assert_string field "field";
  Done {[ "field" := VStr f;
          "code" := VStr "Duplicate";
          "message" := or_else message (VStr "Already exists") ]}.

Definition missingParamErrorsElem (field message : value)
    : outcome (gmap string value) :=
  f ← assert_string field "field";
  let obj : gmap string value :=
    {[ "field" := VStr f; "code" := VStr "MissingParameter" ]} in
  Done (if truthy message then <["message" := message]> obj else obj).

Definition conflictingParamsErrorsElem (fields message : value)
    : outcome (gmap string value) :=
  fs ← assert_arrayOfString fields "fields";
  let obj : gmap string value :=
    {[ "fields" := VArr (VStr <$> fs);
       "code" := VStr "ConflictingParameters" ]} in
  Done (if truthy message then <["message" := message]> obj else obj).

(** The error taxonomy of section 7 of the specification: the [code]
    values and their HTTP status. *)
Definition taxonomy : list (string * Z) :=
  [ ("ValidationFailed", 409); ("InvalidParameters", 422);
    ("UnprocessableEntityError", 422); ("UnallocatedVM", 409);
    ("VmNotRunning", 409); ("VmNotStopped", 409);
    ("BrandNotSupported", 409); ("VmWithoutFlexibleDiskSize", 409);
    ("InsufficientDiskSpace", 409); ("MorayBucketsNotSetup", 503);
    ("DataVersion", 503) ].

(** The body shapes of the specification:
    [{code, message}] or [{code, message, errors: [{field, code, message}]}]. *)
Definition elem_shape (v : value) : bool :=
  match v with
  | VObj o => bool_decide (dom o = {[ "field"; "code"; "message" ]})
  | _ => false
  end.

Definition body_shape (b : gmap string value) : bool :=
  (bool_decide (dom b = {[ "code"; "message" ]})
   || (bool_decide (dom b = {[ "code"; "message"; "errors" ]})
       && match pget b "errors" with
          | VArr l => forallb elem_shape l
          | _ => false
          end))%bool.

(** The literal [erropts] of [wfapiWrap], the options it hands to
    [restify.RestError] ([constructorOpt], the constructor itself, left
    out). *)
Record erropts : Type := Erropts {
  opt_restCode : value;
  opt_statusCode : value;
  opt_message : value
}.

(** The error [wfapiWrap] returns, [new _WorkflowError()]: the object as
    [restify.RestError.call(this, erropts)] initialised it, the [name] set
    on it after that call, and the [restCode] and [statusCode] set on its
    constructor. *)
Record workflow_error (E : Type) : Type := WorkflowError {
  wf_built : E;
  wf_name : value;
  wf_restCode : value;
  wf_statusCode : value
}.
Arguments WorkflowError {E} _ _ _ _.
Arguments wf_built {E} _.
Arguments wf_name {E} _.
Arguments wf_restCode {E} _.
Arguments wf_statusCode {E} _.

Section WfapiWrap.

(** [restify.RestError.call(this, erropts)]: restify is not part of the
    repository; what it makes of the options, the defaults it fills in
    where they are falsy included, is taken as given. *)
Variable E : Type.
Variable RestError : erropts → E.

(** [exports.wfapiWrap(opts)].  [a || b.c] reads [b.c] only when [a] is
    falsy; [error.name] is read when the error is constructed, after the
    options were built. *)
Definition wfapiWrap (opts : value) : outcome (workflow_error E) :=
  error ← get_prop opts "error";
  orc ← get_prop opts "restCode";
  restCode ← (if truthy orc then Done orc else get_prop error "restCode");
  osc ← get_prop opts "statusCode";
  statusCode ← (if truthy osc then Done osc
                else get_prop error "statusCode");
  om ← get_prop opts "message";
  let options :=
    Erropts restCode statusCode (or_else om (VStr "Unknown Error")) in
  ename ← get_prop error "name";
  Done (WorkflowError (RestError options)
          (or_else ename (VStr "WfapiError")) restCode statusCode).

End WfapiWrap.

(** One of the six builders of [errors] elements, with its arguments. *)
Inductive elem_builder : Type :=
| InvalidUuid (field message : value)
| InvalidParam (field message : value)
| InsufficientCapacity (field message : value)
| DuplicateParam (field message : value)
| MissingParam (field message : value)
| ConflictingParams (fields message : value).

Definition build (b : elem_builder) : outcome (gmap string value) :=
  match b with
  | InvalidUuid f m => Done (invalidUuidErrorsElem f m)
  | InvalidParam f m => invalidParamErrorsElem f m
  | InsufficientCapacity f m => insufficientCapacityErrorsElem f m
  | DuplicateParam f m => duplicateParamErrorsElem f m
  | MissingParam f m => missingParamErrorsElem f m
  | ConflictingParams fs m => conflictingParamsErrorsElem fs m
  end.

(** The [code] each builder writes. *)
Definition builder_code (b : elem_builder) : string :=
  match b with
  | InvalidUuid _ _ | InvalidParam _ _ => "Invalid"
  | InsufficientCapacity _ _ => "InsufficientCapacity"
  | DuplicateParam _ _ => "Duplicate"
  | MissingParam _ _ => "MissingParameter"
  | ConflictingParams _ _ => "ConflictingParameters"
  end.

End Errors.

(** *** The VM endpoints *)

Module Endpoints.
Import JS.

Definition VALID_VM_ACTIONS : list string :=
  [ "start"; "stop"; "reboot"; "update" ].

(** [validAction(action)] *)
Definition validAction (action : value) : bool :=
  includes (VStr <$> VALID_VM_ACTIONS) action.

(** The request, with what the handlers put on it. *)
Record request : Type := Request {
  params : gmap string value;
  vm : value;
  juuid : value
}.

Definition set_juuid (v : value) (r : request) : request :=
  Request (params r) (vm r) v.
Definition set_params (p : gmap string value) (r : request) : request :=
  Request p (vm r) (juuid r).
Definition set_vm (v : value) (r : request) : request :=
  Request (params r) v (juuid r).

(** What a handler does to the response and to its collaborators, in
    order. *)
Inductive event : Type :=
| Send (code : Z) (body : value)                       (* [res.send(code, body)] *)
| DefaultResponseHeaders                               (* [res.defaultResponseHeaders()] *)
| WriteHead (code : Z) (headers : list (string * string)) (* [res.writeHead] *)
| PipeJob (juuid : value)                              (* [req.wfapi.pipeJob(res, juuid, ..)] *)
| EndResponse                                          (* [res.end()] *)
| CacheSet (key v : value)                             (* [req.cache.set(key, v)] *)
| UfdsMarkAsDestroyed (vm : value).                    (* [req.ufds.markAsDestroyed(..)] *)

(** The error given to [next]: one of restify's REST errors, whose status
    is fixed by restify ([MissingParameterError] and [InvalidArgumentError]
    are 409 Conflict), or the error a collaborator answered with. *)
Inductive next_error : Type :=
| MissingParameterError (message : string)
| InvalidArgumentError (message : string)
| Upstream (err : value).

Definition error_status (e : next_error) : option Z :=
  match e with
  | MissingParameterError _ => Some 409
  | InvalidArgumentError _ => Some 409
  | Upstream (VObj o) =>
      match pget o "statusCode" with VNum n => Some n | _ => None end
  | Upstream _ => None
  end.

(** How a handler ends: [next()], [next(err)], or without calling [next]. *)
Inductive continuation : Type :=
| Next
| NextErr (e : next_error)
| NoNext.

Definition handler : Type :=
  request → list event → outcome (request * list event * continuation).

(** The collaborators reached through [req] and [common]: each answers with
    the arguments its callback receives. *)
Record collaborators : Type := Collaborators {
  ufds_listVms : gmap string value → value * value;
  cnapi_getVm : value → value → value * value;
  wfapi_createStartJob : request → value * value;
  wfapi_createStopJob : request → value * value;
  wfapi_createRebootJob : request → value * value;
  wfapi_createUpdateJob : request → value → value * value;
  wfapi_createDestroyJob : request → value * value;
  wfapi_createProvisionJob : request → value * value * value;
  wfapi_pipeJob : value → value;
  common_validateVm : gmap string value → value;
  common_setDefaultValues : gmap string value → gmap string value;
  common_validateUpdate : gmap string value → value + value;
  common_translateVm : value → value
}.

Section Handlers.
Variable c : collaborators.

(** The callback shared by the job-creating handlers:
    [function (err, juuid) { if (err) return next(err); req.juuid = juuid;
    return next(); }] *)
Definition jobCreated (reply : value * value) : handler := λ req log,
  if truthy reply.1 then Done (req, log, NextErr (Upstream reply.1))
  else Done (set_juuid reply.2 req, log, Next).

Definition listVms : handler := λ req log,
  let reply := ufds_listVms c (params req) in
  if truthy reply.1 then Done (req, log, NextErr (Upstream reply.1))
  else Done (req, (log ++ [Send 200 reply.2])%list, Next).

(** [x == 'true'] *)
Definition loosely_true (v : value) : bool :=
  match v with
  | VStr _ | VArr _ => String.eqb (to_string v) "true"
  | _ => false
  end.

(** [req.params.sync && req.params.sync == 'true'] *)
Definition wantsSync (req : request) : bool :=
  (truthy (pget (params req) "sync")
   && loosely_true (pget (params req) "sync"))%bool.

(** [markAsDestroyed(req, res, next)] *)
Definition markAsDestroyed : handler := λ req log,
  Done (req, (log ++ [UfdsMarkAsDestroyed (vm req)])%list, NoNext).

Definition getVm : handler := λ req log,
  let m := vm req in
  server ← get_prop m "server_uuid";
  if (truthy server && wantsSync req)%bool then
    uuid ← get_prop m "uuid";
    let reply := cnapi_getVm c server uuid in
    if truthy reply.1 then Done (req, log, NextErr (Upstream reply.1))
    else if truthy reply.2 then
      let newVm := common_translateVm c reply.2 in
      key ← get_prop newVm "uuid";
      Done (req, (log ++ [CacheSet key newVm; Send 200 newVm])%list, Next)
    else
      Done (req,
            (log ++ [UfdsMarkAsDestroyed (vm req); Send 200 (vm req)])%list,
            Next)
  else Done (req, (log ++ [Send 200 m])%list, Next).

Definition startVm : handler := λ req,
  jobCreated (wfapi_createStartJob c req) req.

Definition stopVm : handler := λ req,
  jobCreated (wfapi_createStopJob c req) req.

Definition rebootVm : handler := λ req,
  jobCreated (wfapi_createRebootJob c req) req.

Definition changeVm : handler := λ req log,
  match common_validateUpdate c (params req) with
  | inl e => Done (req, log, NextErr (Upstream e))
  | inr p => jobCreated (wfapi_createUpdateJob c req p) req log
  end.

Definition deleteVm : handler := λ req,
  jobCreated (wfapi_createDestroyJob c req) req.

(** [updateVm(req, res, next)], the handler of [POST /vms/:uuid].  In the
    [default] branch of the [switch], [next] is given the error and then
    [method.call] is applied to [undefined]. *)
Definition updateVm : handler := λ req log,
  let action := pget (params req) "action" in
  if negb (truthy action) then
    Done (req, log, NextErr (MissingParameterError "action is required"))
  else if negb (validAction action) then
    Done (req, log,
          NextErr (InvalidArgumentError
                     (to_string action +:+ " is not a valid action")))
  else if is_str "start" action then startVm req log
  else if is_str "stop" action then stopVm req log
  else if is_str "reboot" action then rebootVm req log
  else if is_str "update" action then changeVm req log
  else Fails (TypeError "Cannot read property 'call' of undefined").

(** [streamResponse(req, res, next)] *)
Definition streamResponse : handler := λ req log,
  if wantsSync req then
    let log1 :=
      (log ++ [DefaultResponseHeaders;
               WriteHead 200 [("content-type", "application/json")];
               PipeJob (juuid req)])%list in
    let err := wfapi_pipeJob c (juuid req) in
    if truthy err then Done (req, log1, NextErr (Upstream err))
    else Done (req, (log1 ++ [EndResponse])%list, Next)
  else
    uuid ← get_prop (vm req) "uuid";
    Done (req,
          (log ++ [Send 200 (VObj {[ "vm_uuid" := uuid;
                                     "job_uuid" := juuid req ]})])%list,
          Next).

(** [createVm(req, res, next)], the handler of [POST /vms]. *)
Definition createVm : handler := λ req log,
  let error := common_validateVm c (params req) in
  if truthy error then Done (req, log, NextErr (Upstream error))
  else
    let req1 := set_params (common_setDefaultValues c (params req)) req in
    let '(err, vmuuid, juuid) := wfapi_createProvisionJob c req1 in
    if truthy err then Done (req1, log, NextErr (Upstream err))
    else
      let p := <["uuid" := vmuuid]>
                 (<["state" := VStr "provisioning"]> (params req1)) in
      let req2 := set_params p req1 in
      let vm := common_translateVm c (VObj p) in
      uuid ← get_prop vm "uuid";
      Done (req2,
            (log ++ [CacheSet uuid vm;
                     Send 201 (VObj {[ "vm_uuid" := uuid;
                                       "job_uuid" := juuid ]})])%list,
            Next).

(** The handlers of a route run in order, each one when the one before it
    called [next()]; the run stops at [next(err)] or when [next] is not
    called. *)
Fixpoint runChain (hs : list handler) (req : request) (log : list event)
    : outcome (request * list event * continuation) :=
  match hs with
  | [] => Done (req, log, Next)
  | h :: rest =>
      r ← h req log;
      match r with
      | (req', log', Next) => runChain rest req' log'
      | _ => Done r
      end
  end.

Inductive route : Type :=
| ListVms | CreateVm | GetVm | DeleteVm | UpdateVm.

(** [mount(server, before)] *)
Definition mount (before : list handler) (r : route) : list handler :=
  match r with
  | ListVms => before ++ [listVms]
  | CreateVm => before ++ [createVm]
  | GetVm => before ++ [getVm]
  | DeleteVm => before ++ [deleteVm; streamResponse; markAsDestroyed]
  | UpdateVm => before ++ [updateVm; streamResponse]
  end%list.

End Handlers.

(** The status line of the answer: the first status written by a handler,
    or else the status of the error given to [next]. *)
Definition written_status (log : list event) : option Z :=
  head (omap (λ e, match e with
                   | Send code _ | WriteHead code _ => Some code
                   | _ => None
                   end) log).

Definition response_status (r : request * list event * continuation)
    : option Z :=
  match written_status r.1.2 with
  | Some code => Some code
  | None =>
      match r.2 with
      | NextErr e => error_status e
      | _ => None
      end
  end.

(** The body given to [res.send], if any. *)
Definition sent_body (log : list event) : option value :=
  head (omap (λ e, match e with Send _ b => Some b | _ => None end) log).

(** The number of times the handlers started an answer: [res.send] or
    [res.writeHead]. *)
Definition responses (log : list event) : nat :=
  length (omap (λ e, match e with
                     | Send code _ | WriteHead code _ => Some code
                     | _ => None
                     end) log).

(** The VMs the handlers asked UFDS to mark as destroyed. *)
Definition marked_destroyed (log : list event) : list value :=
  omap (λ e, match e with UfdsMarkAsDestroyed v => Some v | _ => None end)
       log.

End Endpoints.

(** *** The statements of the specification, in its own words *)

Module Stated.
Import JS Job Workflow Coordination.

(** "resolvers are collected in NIC order with duplicates removed": the
    resolvers of the NICs, one NIC after the other, each value kept where it
    first occurs. *)
Definition resolversOf (nic : value) : list value :=
  match nic with
  | VObj o => match pget o "resolvers" with VArr l => l | _ => [] end
  | _ => []
  end.

Fixpoint uniq (l : list value) : list value :=
  match l with
  | [] => []
  | x :: rest => x :: List.filter (λ y, negb (strict_eq y x)) (uniq rest)
  end.

Definition collectedResolvers (nics : list value) : list value :=
  uniq (concat (resolversOf <$> nics)).

(** "routes are merged from the NICs with the first-seen key winning": the
    left-biased union of the routes of the NICs, in NIC order. *)
Definition routesOf (nic : value) : gmap string value :=
  match nic with
  | VObj o =>
      match pget o "routes" with
      | VObj r => r
      | VArr l => list_to_map (for_in (VArr l))
      | _ => ∅
      end
  | _ => ∅
  end.

Definition mergedRoutes (nics : list value) : gmap string value :=
  foldr (λ nic rest, routesOf nic ∪ rest) ∅ nics.

(** "internal_metadata.set_resolvers === false" *)
Definition setResolversFalse (p : gmap string value) : bool :=
  match pget p "internal_metadata" with
  | VObj im => is_false (pget im "set_resolvers")
  | _ => false
  end.

(** The brand the brand branch of [preparePayload] tests: [lx] for an
    image of type [lx-dataset], the brand of the parameters otherwise. *)
Definition payloadBrand (p : gmap string value) (imageType : value) : value :=
  if is_str "lx-dataset" imageType then VStr "lx" else pget p "brand".

(** Modelled from the spec: the effect of an error or cancel branch on the
    NIC records of NAPI.  Of the tasks these branches run, only the one
    whose body is [common.cleanupNics] removes NIC records (section 4.6);
    the ticket releases, the post-back and the refresh leave NAPI alone. *)
Definition runOnNapi (ts : list task) (j : job) (napi : list nic)
    : list nic :=
  foldl (λ acc t, if is_cleanup_nics t then cleanupNics j acc else acc)
        napi ts.

(** The [code] and HTTP status the specification gives each REST error of
    [lib/errors.js] (section 7). *)
Definition expected (c : Errors.ctor) : option (string * Z) :=
  match c with
  | Errors.NewUnallocatedVMError _ => Some ("UnallocatedVM", 409)
  | Errors.NewVmNotRunningError => Some ("VmNotRunning", 409)
  | Errors.NewVmNotStoppedError => Some ("VmNotStopped", 409)
  | Errors.NewVmWithoutFlexibleDiskSizeError =>
      Some ("VmWithoutFlexibleDiskSize", 409)
  | Errors.NewInsufficientDiskSpaceError => Some ("InsufficientDiskSpace", 409)
  | Errors.NewBrandNotSupportedError _ => Some ("BrandNotSupported", 409)
  | Errors.NewValidationFailedError _ _ => Some ("ValidationFailed", 409)
  | Errors.NewMorayBucketsNotSetupError _ => Some ("MorayBucketsNotSetup", 503)
  | Errors.NewDataVersionError _ _ _ _ => Some ("DataVersion", 503)
  | _ => None
  end.

(** The task the specification names for NIC cleanup, as both workflow
    files write it. *)
Definition cleanup_nics_task : task :=
  Task "napi.cleanup_nics" (Some 10) (Some 1)
    (Imported job_common "cleanupNics")
    (Some [("sdcClients", "sdc-clients"); ("async", "async")]).

(** The keys of the body each REST error of [lib/errors.js] is built
    with. *)
Definition bodyKeys (c : Errors.ctor) : gset string :=
  match c with
  | Errors.NewValidationFailedError _ _
  | Errors.NewVolumesNotReachableError _ => {[ "code"; "message"; "errors" ]}
  | Errors.NewMorayBucketsNotSetupError _ =>
      {[ "code"; "message"; "lastInitError" ]}
  | _ => {[ "code"; "message" ]}
  end.

(** The actions of [POST /vms/:uuid] listed by the specification
    (section 6). *)
Definition specActions : list string :=
  [ "start"; "stop"; "reboot"; "update"; "add_nics"; "remove_nics";
    "create_snapshot"; "rollback_snapshot"; "delete_snapshot";
    "reprovision"; "migrate" ].

End Stated.

(** *** Sample inputs *)

Module Samples.
Import JS Job.

(** A provision job as the workflow runner hands it to the first task. *)
Definition job_fresh : job :=
  fresh (VStr "job-1")
    {[ "vm_uuid" := VStr "vm-1"; "server_uuid" := VStr "cn-1";
       "payload" := VObj {[ "uuid" := VStr "vm-1" ]} ]}.

(** CNAPI accepting every request with a task. *)
Definition cnapi_accepts (server payload : value) : cnapi_reply :=
  CnapiReply VNull (VObj {[ "id" := VStr "task-1" ]}).

(** A job whose zone creation was accepted by CNAPI: the flag is [false],
    no post-back state was set. *)
Definition job_zone_started : job :=
  set_markAsFailedOnError (VBool false) job_fresh.

(** NAPI during an add-nics job on a VM that has a NIC already: the NIC the
    VM had, the NIC pre-created for the job, and a NIC of another VM. *)
Definition napi_three : list Coordination.nic :=
  [ Coordination.Nic "90:b8:d0:00:00:03" (VStr "vm-1") None;
    Coordination.Nic "90:b8:d0:00:00:04" (VStr "vm-1") (Some "job-1");
    Coordination.Nic "90:b8:d0:00:00:02" (VStr "vm-9") None ].

(** Collaborators that accept every request: validation passes, WFAPI
    creates the job. *)
Definition accepting : Endpoints.collaborators := {|
  Endpoints.ufds_listVms := λ _, (VNull, VArr []);
  Endpoints.cnapi_getVm := λ _ _, (VNull, VNull);
  Endpoints.wfapi_createStartJob := λ _, (VNull, VStr "job-1");
  Endpoints.wfapi_createStopJob := λ _, (VNull, VStr "job-1");
  Endpoints.wfapi_createRebootJob := λ _, (VNull, VStr "job-1");
  Endpoints.wfapi_createUpdateJob := λ _ _, (VNull, VStr "job-1");
  Endpoints.wfapi_createDestroyJob := λ _, (VNull, VStr "job-1");
  Endpoints.wfapi_createProvisionJob := λ _, (VNull, VStr "vm-1", VStr "job-1");
  Endpoints.wfapi_pipeJob := λ _, VNull;
  Endpoints.common_validateVm := λ _, VNull;
  Endpoints.common_setDefaultValues := λ p, p;
  Endpoints.common_validateUpdate := λ p, inr (VObj p);
  Endpoints.common_translateVm := λ v, v
|}.

(** [POST /vms] with a provision record. *)
Definition req_create : Endpoints.request :=
  Endpoints.Request
    {[ "owner_uuid" := VStr "owner-1"; "brand" := VStr "joyent-minimal";
       "ram" := VNum 64 ]}
    VUndefined VUndefined.

(** A request on [/vms/vm-1], the VM loaded, with the given body. *)
Definition req_on_vm (body : gmap string value) : Endpoints.request :=
  Endpoints.Request body (VObj {[ "uuid" := VStr "vm-1" ]}) VUndefined.

(** The body [{vm_uuid, job_uuid}] of the sample answers. *)
Definition accepted_body : value :=
  VObj {[ "vm_uuid" := VStr "vm-1"; "job_uuid" := VStr "job-1" ]}.

(** A provision job for an image that declares two users and no
    [generate_passwords] flag; the password of [admin] is already there. *)
Definition job_two_users : job :=
  fresh (VStr "job-1")
    {[ "vm_uuid" := VStr "vm-1";
       "image" := VObj {[ "users" := VArr [VObj {[ "name" := VStr "root" ]};
                                         VObj {[ "name" := VStr "admin" ]}] ]};
       "internal_metadata" := VObj {[ "admin_pw" := VStr "keep" ]} ]}.


(** [apg] printing a password and a newline. *)
Definition apg_prints (n : nat) : Provision.apg_result :=
  Provision.ApgResult VNull ("s3cr3t" +:+ String Provision.LF "").

(** The same job after [generatePasswords] ran with [apg_prints]. *)
Definition job_two_users_done : job :=
  set_params
    (<["internal_metadata" :=
         VObj {[ "admin_pw" := VStr "keep"; "root_pw" := VStr "s3cr3t" ]}]>
       (params job_two_users))
    job_two_users.

(** A JSON parser that refuses every text and a printer that prints
    nothing: the sample jobs carry no NFS volumes. *)
Definition no_parse (text : string) : value + string :=
  inr "Unexpected token".
Definition no_print (v : value) : string := "".

(** Two NICs sharing a resolver and a route. *)
Definition nic_external : value :=
  VObj {[ "resolvers" := VArr [VStr "8.8.8.8"; VStr "8.8.4.4"];
          "routes" := VObj {[ "10.0.0.0/8" := VStr "10.0.0.1" ]} ]}.
Definition nic_internal : value :=
  VObj {[ "resolvers" := VArr [VStr "8.8.4.4"; VStr "10.0.0.53"];
          "routes" := VObj {[ "10.0.0.0/8" := VStr "10.9.9.9";
                              "172.16.0.0/12" := VStr "172.16.0.1" ]} ]}.

(** A provision job for a kvm VM. *)
Definition job_kvm : job :=
  fresh (VStr "job-1")
    {[ "vm_uuid" := VStr "vm-1"; "brand" := VStr "kvm";
       "image" := VObj {[ "type" := VStr "zvol" ]};
       "quota" := VNum 10;
       "disks" := VArr [VObj {[ "image_uuid" := VStr "img-1" ]};
                        VObj {[ "size" := VNum 10240 ]}];
       "nics" := VArr [nic_external; nic_internal] ]}.

(** A provision job for a native zone. *)
Definition job_zone : job :=
  fresh (VStr "job-1")
    {[ "vm_uuid" := VStr "vm-1"; "brand" := VStr "joyent-minimal";
       "image" := VObj {[ "type" := VStr "zone-dataset" ]};
       "image_uuid" := VStr "img-2";
       "quota" := VNum 10;
       "nics" := VArr [nic_external; nic_internal] ]}.

(** A provision job whose parameters say brand kvm and whose image is an
    lx-dataset. *)
Definition job_kvm_lx : job :=
  fresh (VStr "job-1")
    {[ "vm_uuid" := VStr "vm-1"; "brand" := VStr "kvm";
       "image" := VObj {[ "type" := VStr "lx-dataset" ]};
       "image_uuid" := VStr "img-3";
       "quota" := VNum 10;
       "disks" := VArr [VObj {[ "image_uuid" := VStr "img-3" ]}];
       "nics" := VArr [] ]}.

(** The sample jobs after [preparePayload] ran. *)
Definition prepared (j : job) : job :=
  match Provision.preparePayload no_parse no_print j with
  | Done (j', _) => j'
  | Fails _ => j
  end.
Definition job_zone_prepared : job := Eval vm_compute in prepared job_zone.
Definition job_kvm_prepared : job := Eval vm_compute in prepared job_kvm.
Definition job_kvm_lx_prepared : job :=
  Eval vm_compute in prepared job_kvm_lx.

(** The error of the last attempt to set up the Moray buckets. *)
Definition init_error : value :=
  VObj {[ "message" := VStr "bucket not found" ]}.

(** The zone of [job_zone] with an NFS volume to mount. *)
Definition job_zone_nfs : job :=
  Job (VStr "job-1") (params job_zone) VUndefined VUndefined VUndefined
    VUndefined VUndefined (VStr "[{'name':'v1','mode':'ro'}]") VUndefined
    VUndefined VUndefined.

(** The same for a docker VM. *)
Definition job_docker_nfs : job :=
  Job (VStr "job-1") (<["docker" := VBool true]> (params job_zone))
    VUndefined VUndefined VUndefined VUndefined VUndefined
    (VStr "[{'name':'v1','mode':'ro'}]") VUndefined VUndefined VUndefined.

End Samples.

(** ** Part II: the properties *)

(** *** Facts about values *)

Module JSFacts.
Import JS.

Lemma strict_eq_eq a b : strict_eq a b = true → a = b.
Proof.
  destruct a, b; simpl; try discriminate; try reflexivity.
  - intros H. apply Bool.eqb_prop in H. by subst.
  - intros H. apply Z.eqb_eq in H. by subst.
  - intros H. apply String.eqb_eq in H. by subst.
Qed.

Lemma strict_eq_sym a b : strict_eq a b = strict_eq b a.
Proof.
  destruct a, b; simpl; try reflexivity.
  - by destruct b, b0.
  - apply Z.eqb_sym.
  - apply String.eqb_sym.
Qed.

Lemma is_str_spec s v : is_str s v = true ↔ v = VStr s.
Proof.
  unfold is_str. split.
  - apply strict_eq_eq.
  - intros ->. simpl. apply String.eqb_refl.
Qed.

Lemma is_false_spec v : is_false v = true ↔ v = VBool false.
Proof. destruct v as [| |[]| | | |]; simpl; split; congruence. Qed.

Lemma is_undefined_spec v : is_undefined v = true ↔ v = VUndefined.
Proof. destruct v; simpl; split; congruence. Qed.

Lemma includes_spec l x :
  includes l x = true ↔ ∃ y, y ∈ l ∧ strict_eq x y = true.
Proof.
  unfold includes. rewrite existsb_exists.
  split; intros (y & Hy & E); exists y; split; auto;
    by apply list_elem_of_In.
Qed.

Lemma includes_app l1 l2 x :
  includes (l1 ++ l2) x = (includes l1 x || includes l2 x)%bool.
Proof. unfold includes. apply existsb_app. Qed.

Lemma pget_insert o k v : pget (<[k := v]> o) k = v.
Proof. unfold pget. by rewrite lookup_insert_eq. Qed.

Lemma pget_insert_ne o k k' v : k ≠ k' → pget (<[k := v]> o) k' = pget o k'.
Proof. intros. unfold pget. by rewrite lookup_insert_ne. Qed.

Lemma phas_spec o k : phas o k = true ↔ is_Some (o !! k).
Proof. unfold phas. apply bool_decide_eq_true. Qed.

Lemma phas_false o k : phas o k = false ↔ o !! k = None.
Proof.
  unfold phas. rewrite bool_decide_eq_false, eq_None_not_Some. tauto.
Qed.

Lemma bind_ret {A B} (a : A) (k : A → outcome B) : (Done a ≫= k) = k a.
Proof. reflexivity. Qed.

(** Running the binds whose first outcome is known, and nothing else. *)
Ltac run_bind :=
  cbn [mbind outcome_bind get_prop Provision.nicsItems].

Lemma bind_Done {A B} (m : outcome A) (k : A → outcome B) b :
  (m ≫= k) = Done b ↔ ∃ a, m = Done a ∧ k a = Done b.
Proof.
  destruct m as [a|e]; simpl; split.
  - eauto.
  - by intros (a' & [= ->] & H).
  - discriminate.
  - by intros (a' & ? & _).
Qed.

End JSFacts.

(** *** The pipelines: tickets and NIC cleanup *)

Module PipelineFacts.
Import JS Job Workflow Coordination Stated Samples JSFacts.

(** Closing a goal over the task lists by evaluation. *)
Ltac by_evaluation := vm_compute; intros; repeat split; congruence.

Lemma pipelines_cases (P : workflow → Prop) :
  P provision → P add_nics → P migrate_begin → P migrate_sync →
  P migrate_switch → ∀ w, w ∈ pipelines → P w.
Proof.
  intros H1 H2 H3 H4 H5 w Hw. unfold pipelines in Hw.
  repeat (apply elem_of_cons in Hw as [->|Hw]; [assumption|]).
  by apply elem_of_nil in Hw.
Qed.

(** Every pipeline releases the per-VM ticket on the three paths. *)
Lemma vm_ticket_released w :
  w ∈ pipelines →
  releases_ticket VmTicket (chain_tasks (chain w)) = true
  ∧ releases_ticket VmTicket (onerror w) = true
  ∧ releases_ticket VmTicket (oncancel w) = true.
Proof. revert w. apply pipelines_cases; by_evaluation. Qed.

(** Every ticket a pipeline acquires is released on the three paths. *)
Lemma acquired_ticket_released w k :
  w ∈ pipelines →
  acquires_ticket k (chain w) = true →
  releases_ticket k (chain_tasks (chain w)) = true
  ∧ releases_ticket k (onerror w) = true
  ∧ releases_ticket k (oncancel w) = true.
Proof.
  intros Hw. pattern w. revert w Hw.
  apply pipelines_cases; destruct k; by_evaluation.
Qed.

(** The provision pipeline also releases the allocation ticket on error
    and on cancel, though its chain has no task acquiring it. *)
Lemma provision_releases_allocation :
  acquires_ticket AllocationTicket (chain provision) = false
  ∧ releases_ticket AllocationTicket (onerror provision) = true
  ∧ releases_ticket AllocationTicket (oncancel provision) = true.
Proof. by_evaluation. Qed.

Lemma onerror_starts_with_cleanup :
  head (onerror provision) = Some cleanup_nics_task
  ∧ head (onerror add_nics) = Some cleanup_nics_task.
Proof. split; reflexivity. Qed.

(** With the flag not [false], no record pre-created for the job is left. *)
Lemma cleanupNics_removes j napi :
  markAsFailedOnError j ≠ VBool false →
  List.filter (precreated j) (cleanupNics j napi) = [].
Proof.
  intros Hflag. unfold cleanupNics.
  destruct (is_false (markAsFailedOnError j)) eqn:E.
  { apply is_false_spec in E. contradiction. }
  induction napi as [|n napi IH]; simpl; [reflexivity|].
  destruct (precreated j n) eqn:Eq; simpl; [exact IH|]. by rewrite Eq.
Qed.

Lemma cleanupNics_skips j napi :
  markAsFailedOnError j = VBool false → cleanupNics j napi = napi.
Proof. intros E. unfold cleanupNics. by rewrite E. Qed.

(** A record that was not pre-created for the job is left in place. *)
Lemma cleanupNics_keeps_others j napi n :
  n ∈ napi → precreated j n = false → n ∈ cleanupNics j napi.
Proof.
  intros Hin Hne. unfold cleanupNics.
  destruct (is_false (markAsFailedOnError j)); [assumption|].
  apply list_elem_of_In, filter_In. split; [by apply list_elem_of_In|].
  by rewrite Hne.
Qed.

(** The cleanup creates no record. *)
Lemma cleanupNics_sublist j napi n :
  n ∈ cleanupNics j napi → n ∈ napi.
Proof.
  unfold cleanupNics.
  destruct (is_false (markAsFailedOnError j)); [done|].
  intros Hin. apply list_elem_of_In, filter_In in Hin as [Hin _].
  by apply list_elem_of_In.
Qed.

(** When every NIC record of a VM was pre-created for the job, as for the
    new VM of a provision, [GET /nics?belongs_to_uuid=<vm>] returns
    nothing after the cleanup. *)
Lemma cleanupNics_new_vm j napi vm :
  markAsFailedOnError j ≠ VBool false →
  Forall (λ n, strict_eq (belongs_to_uuid n) vm = true →
               precreated j n = true) napi →
  nicsOf vm (cleanupNics j napi) = [].
Proof.
  intros Hflag Hall. unfold cleanupNics, nicsOf.
  destruct (is_false (markAsFailedOnError j)) eqn:E.
  { apply is_false_spec in E. contradiction. }
  induction Hall as [|n napi Hn _ IH]; simpl; [reflexivity|].
  destruct (precreated j n) eqn:Eq; simpl; [exact IH|].
  destruct (strict_eq (belongs_to_uuid n) vm) eqn:Evm; [|exact IH].
  specialize (Hn eq_refl). congruence.
Qed.

Lemma setPostBackFailed_marks j :
  markAsFailedOnError j ≠ VBool false →
  (Provision.setPostBackFailed j).1 = set_postBackState (VStr "failed") j.
Proof.
  intros Hflag. unfold Provision.setPostBackFailed.
  destruct (is_false (markAsFailedOnError j)) eqn:E; [|reflexivity].
  apply is_false_spec in E. contradiction.
Qed.

Lemma setPostBackFailed_skips j :
  markAsFailedOnError j = VBool false →
  (Provision.setPostBackFailed j).1 = j.
Proof. intros E. unfold Provision.setPostBackFailed. by rewrite E. Qed.

Lemma setPostBackFailed_iff j :
  postBackState (Provision.setPostBackFailed j).1 = VStr "failed"
  ↔ markAsFailedOnError j ≠ VBool false ∨ postBackState j = VStr "failed".
Proof.
  destruct (decide (is_false (markAsFailedOnError j) = true)) as [E|E].
  - apply is_false_spec in E. rewrite setPostBackFailed_skips by done.
    split; [by right|]. intros [?|?]; done.
  - assert (markAsFailedOnError j ≠ VBool false) as Hne.
    { intros ?. apply E. by apply is_false_spec. }
    rewrite setPostBackFailed_marks by done. destruct j; simpl. tauto.
Qed.

Lemma runOnNapi_no_cleanup ts j napi :
  Forall (λ t, is_cleanup_nics t = false) ts → runOnNapi ts j napi = napi.
Proof.
  unfold runOnNapi. intros H. revert napi.
  induction H as [|t ts Ht _ IH]; intros napi; simpl; [reflexivity|].
  rewrite Ht. apply IH.
Qed.

(** C2. For every composed pipeline (provision, add-nics, migrate-begin,
    migrate-sync, migrate-switch), both the onerror chain and the oncancel
    chain contain a task that releases the acquired waitlist tickets: the
    per-VM ticket and, where one was acquired, the allocation and the
    fabric-NAT tickets; the chain itself releases them on success. *)
Theorem pipelines_release_tickets w :
  w ∈ pipelines →
  (releases_ticket VmTicket (onerror w) = true
   ∧ releases_ticket VmTicket (oncancel w) = true
   ∧ releases_ticket VmTicket (chain_tasks (chain w)) = true)
  ∧ (∀ k, acquires_ticket k (chain w) = true →
          releases_ticket k (onerror w) = true
          ∧ releases_ticket k (oncancel w) = true
          ∧ releases_ticket k (chain_tasks (chain w)) = true).
Proof.
  intros Hw. split.
  - destruct (vm_ticket_released w Hw) as (? & ? & ?). auto.
  - intros k Hk.
    destruct (acquired_ticket_released w k Hw Hk) as (? & ? & ?). auto.
Qed.

(** The allocation ticket of migrate-begin: acquired in the chain, released
    on the three paths. *)
Lemma pipelines_release_tickets_witness :
  migrate_begin ∈ pipelines
  ∧ acquires_ticket AllocationTicket (chain migrate_begin) = true
  ∧ releases_ticket AllocationTicket (onerror migrate_begin) = true
  ∧ releases_ticket AllocationTicket (oncancel migrate_begin) = true
  ∧ releases_ticket AllocationTicket (chain_tasks (chain migrate_begin))
    = true.
Proof.
  assert (migrate_begin ∈ pipelines) as Hin.
  { unfold pipelines. apply elem_of_cons. right. apply elem_of_cons. right.
    apply elem_of_cons. left. reflexivity. }
  split; [exact Hin|]. split; [vm_compute; reflexivity|].
  apply (proj2 (pipelines_release_tickets migrate_begin Hin) AllocationTicket).
  vm_compute; reflexivity.
Defined.

(** C3, as the code has it.  For provision and add-nics, the error branch
    runs the NIC cleanup task [napi.cleanup_nics] first.  While
    [markAsFailedOnError] is not [false], no NIC record pre-created for the
    job remains in NAPI after the branch, the records that were not
    pre-created for it are still there (for the new VM of a provision, whose
    NIC records were all pre-created for it, [GET /nics?belongs_to_uuid]
    then returns nothing), and [setPostBackFailed], the second task of the
    error branch of provision, sets [postBackState = 'failed'].  When the
    flag is [false], the NIC records are left in place and
    [setPostBackFailed] leaves the job as it is: it does not set the
    post-back state.  The error branch of add-nics has no task setting the
    post-back state.  What the imported tasks of the branch ([postBack],
    [refreshVm]) do with the stored VM is not in the sources and is not
    part of the statement. *)
Theorem failed_job_cleanup_and_state w j napi :
  w = provision ∨ w = add_nics →
  head (onerror w) = Some cleanup_nics_task
  ∧ onerror provision !! 1%nat
    = Some (Task "set_post_back_failed" None None
              (Local "setPostBackFailed") (Some []))
  ∧ Forall (λ t, task_body t ≠ Some (Local "setPostBackFailed"))
      (onerror add_nics)
  ∧ (markAsFailedOnError j ≠ VBool false →
       List.filter (precreated j) (runOnNapi (onerror w) j napi) = []
       ∧ (∀ n, n ∈ runOnNapi (onerror w) j napi
               ↔ n ∈ napi ∧ precreated j n = false)
       ∧ (∀ vm, Forall (λ n, strict_eq (belongs_to_uuid n) vm = true →
                            precreated j n = true) napi →
                nicsOf vm (runOnNapi (onerror w) j napi) = [])
       ∧ (Provision.setPostBackFailed j).1
         = set_postBackState (VStr "failed") j)
  ∧ (markAsFailedOnError j = VBool false →
       runOnNapi (onerror w) j napi = napi
       ∧ (Provision.setPostBackFailed j).1 = j).
Proof.
  intros Hw.
  assert (runOnNapi (onerror w) j napi = cleanupNics j napi) as Hrun
    by (destruct Hw as [-> | ->]; reflexivity).
  split; [destruct Hw as [-> | ->]; reflexivity|].
  split; [reflexivity|].
  split; [repeat constructor; discriminate|].
  rewrite Hrun. split.
  - intros Hflag. split; [by apply cleanupNics_removes|].
    split; [|split].
    + intros n. split.
      * intros Hin. split; [by eapply cleanupNics_sublist|].
        destruct (precreated j n) eqn:Eq; [|reflexivity].
        assert (n ∈ List.filter (precreated j) (cleanupNics j napi)) as Hbad.
        { apply list_elem_of_In, filter_In.
          split; [by apply list_elem_of_In|done]. }
        rewrite cleanupNics_removes in Hbad by done.
        by apply elem_of_nil in Hbad.
      * intros [Hin Hne]. by apply cleanupNics_keeps_others.
    + intros vm Hall. by apply cleanupNics_new_vm.
    + by apply setPostBackFailed_marks.
  - intros Hflag. split.
    + by apply cleanupNics_skips.
    + by apply setPostBackFailed_skips.
Qed.

(** An add-nics job that fails on a VM that had a NIC already: the NIC
    pre-created for the job is removed from NAPI, the NIC the VM had and
    the NIC of the other VM are still there. *)
Lemma failed_job_cleanup_and_state_witness :
  (add_nics = provision ∨ add_nics = add_nics)
  ∧ markAsFailedOnError job_fresh ≠ VBool false
  ∧ List.filter (precreated job_fresh)
      (runOnNapi (onerror add_nics) job_fresh napi_three) = []
  ∧ Nic "90:b8:d0:00:00:03" (VStr "vm-1") None
    ∈ runOnNapi (onerror add_nics) job_fresh napi_three
  ∧ (Provision.setPostBackFailed job_fresh).1
    = set_postBackState (VStr "failed") job_fresh.
Proof.
  assert (markAsFailedOnError job_fresh ≠ VBool false) as Hflag
    by (vm_compute; discriminate).
  split; [right; reflexivity|]. split; [exact Hflag|].
  destruct (proj2 (proj2 (proj2
              (failed_job_cleanup_and_state add_nics job_fresh napi_three
                 (or_intror eq_refl)))))
    as [Hfailed _].
  destruct (Hfailed Hflag) as (Hnone & Hkept & _ & Hstate).
  split; [exact Hnone|]. split; [|exact Hstate].
  apply Hkept. split; [|reflexivity]. apply list_elem_of_here.
Defined.

(** C3, as stated, fails: with [markAsFailedOnError = false],
    [setPostBackFailed] leaves the job as it is and does not set
    [postBackState = 'failed']. *)
Lemma zone_started_not_marked_failed :
  markAsFailedOnError job_zone_started = VBool false
  ∧ (Provision.setPostBackFailed job_zone_started).1 = job_zone_started
  ∧ postBackState (Provision.setPostBackFailed job_zone_started).1
    ≠ VStr "failed".
Proof.
  split; [reflexivity|]. split; [reflexivity|]. vm_compute. discriminate.
Qed.

(** C9. For the add-nics workflow, the oncancel chain consists only of
    ticket-release tasks and contains no NAPI NIC-cleanup task: cancelling
    an add-nics job leaves the NIC records of NAPI untouched; the cleanup
    runs only on the onerror path. *)
Theorem add_nics_cancel_skips_cleanup :
  Forall (λ t, is_Some (releases t)) (oncancel add_nics)
  ∧ Forall (λ t, is_cleanup_nics t = false) (oncancel add_nics)
  ∧ Exists (λ t, is_cleanup_nics t = true) (onerror add_nics)
  ∧ Forall (λ i, match i with
                 | One t => is_cleanup_nics t = false
                 | Splice _ _ => True
                 end) (chain add_nics)
  ∧ (∀ j napi, runOnNapi (oncancel add_nics) j napi = napi)
  ∧ (∀ j napi, runOnNapi (onerror add_nics) j napi = cleanupNics j napi).
Proof.
  assert (Forall (λ t, is_cleanup_nics t = false) (oncancel add_nics)) as H
    by (repeat constructor).
  split; [repeat constructor; vm_compute; eauto|].
  split; [exact H|].
  split; [constructor; reflexivity|].
  split; [repeat constructor|].
  split; [intros; by apply runOnNapi_no_cleanup | reflexivity].
Qed.

End PipelineFacts.

(** *** provision.js: the point of no return *)

Module ProvisionFacts.
Import JS Job Workflow Coordination Stated Samples JSFacts PipelineFacts.
Import Provision.


Lemma provision_err_keeps_flag cnapi j j' e m :
  Provision.provision cnapi j = Done (j', CbErr e m) →
  markAsFailedOnError j' = markAsFailedOnError j.
Proof.
  unfold Provision.provision. intros H.
  apply bind_Done in H as (forced & _ & H).
  destruct forced; [by injection H as <- _ _|].
  destruct (truthy (reply_err _)) eqn:Herr; [by injection H as <- _ _|].
  apply bind_Done in H as (id & Hid & H). discriminate.
Qed.

(** CNAPI accepting the request is enough for [provision] to succeed,
    unless the failure is forced through the internal metadata. *)
Lemma provision_accepted cnapi j :
  let p := <["jobid" := uuid j]> (delete "skip_zone_action" (params j)) in
  let r := cnapi (pget p "server_uuid") (pget p "payload") in
  truthy (pget p "internal_metadata") = false →
  truthy (reply_err r) = false →
  (∃ o, reply_task r = VObj o) →
  ∃ j' msg, Provision.provision cnapi j = Done (j', CbOk msg).
Proof.
  intros p r Him Herr [o Ho]. unfold Provision.provision.
  fold p. rewrite Him. simpl. fold r. rewrite Herr, Ho. simpl. eauto.
Qed.



End ProvisionFacts.

(** *** The VM endpoints *)

Module EndpointFacts.
Import JS Stated Samples JSFacts.
Import Endpoints.

Lemma validAction_iff v :
  validAction v = true ↔ ∃ a, a ∈ VALID_VM_ACTIONS ∧ v = VStr a.
Proof.
  unfold validAction. rewrite includes_spec. split.
  - intros (y & Hy & E). apply list_elem_of_fmap in Hy as (a & -> & Ha).
    apply strict_eq_eq in E. eauto.
  - intros (a & Ha & ->). exists (VStr a). split.
    + by apply list_elem_of_fmap_2.
    + simpl. apply String.eqb_refl.
Qed.

(** The actions of the specification that [validAction] accepts are the
    four of [VALID_VM_ACTIONS]. *)
Lemma validAction_specActions :
  List.filter (λ a, validAction (VStr a)) specActions = VALID_VM_ACTIONS.
Proof. reflexivity. Qed.

(** A missing action, or one that [validAction] refuses, is answered with
    a 409 and no job is created. *)
Lemma updateVm_rejects c req log :
  (truthy (pget (params req) "action")
   && validAction (pget (params req) "action"))%bool = false →
  ∃ e, updateVm c req log = Done (req, log, NextErr e)
       ∧ error_status e = Some 409.
Proof.
  intros H. unfold updateVm.
  destruct (truthy (pget (params req) "action")); simpl in *.
  - rewrite H. simpl. eauto.
  - eauto.
Qed.

(** An accepted action is handed to its job-creating handler. *)
Lemma updateVm_dispatches c req log a :
  pget (params req) "action" = VStr a →
  a ∈ VALID_VM_ACTIONS →
  updateVm c req log =
    (if String.eqb a "start" then startVm c req log
     else if String.eqb a "stop" then stopVm c req log
     else if String.eqb a "reboot" then rebootVm c req log
     else changeVm c req log).
Proof.
  intros Ha Hin. unfold updateVm. rewrite Ha.
  unfold VALID_VM_ACTIONS in Hin.
  repeat (apply elem_of_cons in Hin as [->|Hin]; [reflexivity|]).
  by apply elem_of_nil in Hin.
Qed.

(** The [default] branch of the [switch] is never reached: [updateVm]
    always ends by calling [next]. *)
Lemma updateVm_never_throws c req log :
  ∃ r, updateVm c req log = Done r.
Proof.
  unfold updateVm.
  destruct (truthy (pget (params req) "action")); simpl; [|eauto].
  destruct (validAction (pget (params req) "action")) eqn:Hv; simpl;
    [|eauto].
  apply validAction_iff in Hv as (a & Hin & ->).
  unfold VALID_VM_ACTIONS in Hin.
  repeat (apply elem_of_cons in Hin as [->|Hin];
          [simpl; unfold startVm, stopVm, rebootVm, changeVm, jobCreated;
           repeat case_match; eauto|]).
  by apply elem_of_nil in Hin.
Qed.

(** Whatever the collaborators answer, the job-creating routes write no
    status other than 200 and 201. *)
Lemma mutation_routes_status c route req r :
  route ∈ [CreateVm; DeleteVm; UpdateVm] →
  runChain (mount c [] route) req [] = Done r →
  written_status r.1.2 ∈ [None; Some 200; Some 201].
Proof.
  intros Hroute.
  repeat (apply elem_of_cons in Hroute as [->|Hroute]);
    [| | |by apply elem_of_nil in Hroute];
    unfold mount, runChain, createVm, deleteVm, updateVm, streamResponse,
      markAsDestroyed, startVm, stopVm, rebootVm, changeVm, jobCreated;
    simpl; intros H;
    repeat (first
      [ match goal with
        | H : (_ ≫= _) = Done _ |- _ =>
            apply bind_Done in H as (? & ? & H)
        end
      | progress (simpl in *; simplify_eq)
      | case_match ]);
    unfold written_status; simpl; set_solver.
Qed.

(** Without [sync=true], [streamResponse] answers 200 with the body
    [{vm_uuid, job_uuid}]. *)
Lemma streamResponse_async c req log uuid :
  wantsSync req = false →
  get_prop (vm req) "uuid" = Done uuid →
  streamResponse c req log
  = Done (req,
          (log ++ [Send 200 (VObj {[ "vm_uuid" := uuid;
                                     "job_uuid" := juuid req ]})])%list,
          Next).
Proof. intros Hs Hu. unfold streamResponse. rewrite Hs, Hu. reflexivity. Qed.

(** With [sync=true], the head of the answer is written with status 200
    and the job is piped. *)
Lemma streamResponse_sync c req log r :
  wantsSync req = true →
  streamResponse c req log = Done r →
  written_status r.1.2 = written_status
    (log ++ [WriteHead 200 [("content-type", "application/json")]]).
Proof.
  intros Hs. unfold streamResponse. rewrite Hs.
  destruct (truthy _); intros [= <-]; simpl; unfold written_status;
    rewrite !omap_app; simpl; rewrite ?app_nil_r;
    by destruct (omap _ log).
Qed.

(** When validation passes and WFAPI creates the job, [createVm] answers
    201 with the body [{vm_uuid, job_uuid}]. *)
Lemma createVm_accepted c req log vmuuid juuid err uuid :
  truthy (common_validateVm c (params req)) = false →
  let req1 := set_params (common_setDefaultValues c (params req)) req in
  wfapi_createProvisionJob c req1 = (err, vmuuid, juuid) →
  truthy err = false →
  let p := <["uuid" := vmuuid]>
             (<["state" := VStr "provisioning"]> (params req1)) in
  get_prop (common_translateVm c (VObj p)) "uuid" = Done uuid →
  createVm c req log
  = Done (set_params p req1,
          (log ++ [CacheSet uuid (common_translateVm c (VObj p));
                   Send 201 (VObj {[ "vm_uuid" := uuid;
                                     "job_uuid" := juuid ]})])%list,
          Next).
Proof.
  intros Hv req1 Hjob Herr p Hu. unfold createVm.
  rewrite Hv. fold req1. rewrite Hjob, Herr. fold p. rewrite Hu.
  reflexivity.
Qed.

(** C1, on the code: an accepted [POST /vms] is answered with status 201,
    an accepted [DELETE /vms/:uuid] and an accepted [POST /vms/:uuid] with
    status 200, each with the body [{vm_uuid, job_uuid}]; none is answered
    with 202. *)
Theorem accepted_mutations_status :
  (∃ r, runChain (mount accepting [] CreateVm) req_create [] = Done r
        ∧ r.2 = Next
        ∧ response_status r = Some 201
        ∧ sent_body r.1.2 = Some accepted_body)
  ∧ (∃ r, runChain (mount accepting [] DeleteVm) (req_on_vm ∅) [] = Done r
          ∧ response_status r = Some 200
          ∧ sent_body r.1.2 = Some accepted_body)
  ∧ (∃ r, runChain (mount accepting [] UpdateVm)
            (req_on_vm {[ "action" := VStr "start" ]}) [] = Done r
          ∧ r.2 = Next
          ∧ response_status r = Some 200
          ∧ sent_body r.1.2 = Some accepted_body).
Proof.
  split; [|split]; eexists; (split; [vm_compute; reflexivity|]);
    repeat split; vm_compute; reflexivity.
Qed.

(** C5, on the code: [POST /vms/:uuid] with [action=add_nics] is answered
    with the 409 of an invalid argument and creates no job; so are the six
    other actions of the specification missing from [VALID_VM_ACTIONS]. *)
Theorem add_nics_action_rejected :
  updateVm accepting (req_on_vm {[ "action" := VStr "add_nics" ]}) []
  = Done (req_on_vm {[ "action" := VStr "add_nics" ]}, [],
          NextErr (InvalidArgumentError "add_nics is not a valid action"))
  ∧ error_status (InvalidArgumentError "add_nics is not a valid action")
    = Some 409
  ∧ List.filter (λ a, negb (validAction (VStr a))) specActions
    = [ "add_nics"; "remove_nics"; "create_snapshot"; "rollback_snapshot";
        "delete_snapshot"; "reprovision"; "migrate" ].
Proof. repeat split; vm_compute; reflexivity. Qed.

End EndpointFacts.

(** *** lib/errors.js: bodies and status codes *)

Module ErrorFacts.
Import JS Stated Samples JSFacts.
Import Errors.

(** Inverting the assertions of a constructor that returned. *)
Ltac invert_construct H :=
  repeat match type of H with
         | (_ ≫= _) = Done _ =>
             let x := fresh "x" in
             let Hx := fresh "Hx" in
             apply bind_Done in H as (x & Hx & H)
         end;
  try (injection H as <-).

Lemma assert_string_Done v what s :
  assert_string v what = Done s → v = VStr s.
Proof. destruct v; simpl; congruence. Qed.

Lemma assert_arrayOfObject_Done v what l :
  assert_arrayOfObject v what = Done l →
  v = VArr l ∧ forallb is_object l = true.
Proof.
  destruct v; simpl; try discriminate.
  destruct (forallb is_object items) eqn:E; [|discriminate].
  by intros [= <-].
Qed.

(** Every REST error of the taxonomy carries the status of the taxonomy
    and a body whose [code] and [message] are those of the error. *)
Lemma construct_expected c e code status :
  construct c = Done e →
  expected c = Some (code, status) →
  statusCode e = Some status
  ∧ (code, status) ∈ taxonomy
  ∧ ∃ b, body e = Some b
         ∧ b !! "code" = Some (VStr code)
         ∧ b !! "message" = Some (message e)
         ∧ dom b = bodyKeys c.
Proof.
  intros H Hexp.
  destruct c; simpl in Hexp; simplify_eq; simpl in H;
    unfold UnallocatedVMError, VmNotRunningError, VmNotStoppedError,
      VmWithoutFlexibleDiskSizeError, InsufficientDiskSpaceError,
      BrandNotSupportedError, ValidationFailedError,
      MorayBucketsNotSetupError, DataVersionError in H;
    invert_construct H; simpl;
    (split; [reflexivity|]);
    (split; [unfold taxonomy; set_solver|]);
    eexists; (split; [reflexivity|]);
    (split; [by simplify_map_eq|]);
    (split; [by simplify_map_eq|]);
    rewrite ?dom_insert_L, ?dom_singleton_L; set_solver.
Qed.

(** The [errors] of a validation failure are the array of objects the
    caller gave, whatever the keys of its elements. *)
Lemma ValidationFailedError_errors message errors e :
  ValidationFailedError message errors = Done e →
  ∃ b l, body e = Some b ∧ errors = VArr l ∧ b !! "errors" = Some (VArr l)
         ∧ forallb is_object l = true.
Proof.
  unfold ValidationFailedError. intros H. invert_construct H.
  apply assert_arrayOfObject_Done in Hx0 as [-> Hl].
  eexists _, _. split; [reflexivity|]. split; [reflexivity|].
  split; [by simplify_map_eq|done].
Qed.

(** The plain errors have no status and no body. *)
Lemma construct_plain c e :
  construct c = Done e →
  (∃ v, c = NewInvalidIndexesRemovalError v
        ∨ c = NewInvalidDataMigrationFileNamesError v
        ∨ c = NewVolumeNotReachableError v) →
  statusCode e = None ∧ body e = None.
Proof.
  intros H (v & [-> | [-> | ->]]); simpl in H;
    unfold InvalidIndexesRemovalError, InvalidDataMigrationFileNamesError,
      VolumeNotReachableError in H;
    invert_construct H; by simplify_eq.
Qed.

(** The elements built for [errors]: four builders give
    [{field, code, message}]; [missingParamErrorsElem] gives [{field, code}]
    when no message is given. *)
Lemma errors_elem_shapes field message o :
  (invalidParamErrorsElem field message = Done o
   ∨ insufficientCapacityErrorsElem field message = Done o
   ∨ duplicateParamErrorsElem field message = Done o) →
  elem_shape (VObj o) = true
  ∧ elem_shape (VObj (invalidUuidErrorsElem field message)) = true.
Proof.
  unfold invalidParamErrorsElem, insufficientCapacityErrorsElem,
    duplicateParamErrorsElem, invalidUuidErrorsElem, elem_shape.
  intros [H | [H | H]]; invert_construct H;
    (split; apply bool_decide_eq_true;
     rewrite ?dom_insert_L, ?dom_singleton_L; set_solver).
Qed.

Lemma missingParam_elem_shape :
  ∃ o, missingParamErrorsElem (VStr "ram") VUndefined = Done o
       ∧ elem_shape (VObj o) = false.
Proof. eexists. split; [reflexivity|]. vm_compute. reflexivity. Qed.

(** C8, as the code has it.  Every error built by the constructors
    UnallocatedVM, VmNotRunning, VmNotStopped, BrandNotSupported,
    VmWithoutFlexibleDiskSize, InsufficientDiskSpace and ValidationFailed
    has status 409, every error built by MorayBucketsNotSetup and
    DataVersion has status 503; its body carries that [code] and the
    [message] of the error, and has the keys [{code, message}], with
    [errors] added for ValidationFailed and [lastInitError] added for
    MorayBucketsNotSetup. *)
Theorem taxonomy_errors_body_and_status c e code status :
  construct c = Done e →
  expected c = Some (code, status) →
  statusCode e = Some status
  ∧ (code, status) ∈ taxonomy
  ∧ (status = 409 ∨ status = 503)
  ∧ ∃ b, body e = Some b
         ∧ b !! "code" = Some (VStr code)
         ∧ b !! "message" = Some (message e)
         ∧ dom b = bodyKeys c
         ∧ (body_shape b = true ∨ c = NewValidationFailedError
                                        (message e) (pget b "errors")
            ∨ c = NewMorayBucketsNotSetupError (pget b "lastInitError")).
Proof.
  intros H Hexp.
  destruct (construct_expected c e code status H Hexp)
    as (Hs & Ht & b & Hb & Hc & Hm & Hd).
  split; [exact Hs|]. split; [exact Ht|].
  split.
  { destruct c; simpl in Hexp; simplify_eq; auto. }
  exists b. repeat (split; [assumption|]).
  destruct c; simpl in Hexp; simplify_eq; simpl in Hd;
    try (left; unfold body_shape; rewrite Hd;
         by rewrite bool_decide_eq_true_2).
  - right; left. simpl in H. unfold ValidationFailedError in H.
    invert_construct H. simpl in *. simplify_eq.
    apply assert_string_Done in Hx as ->.
    apply assert_arrayOfObject_Done in Hx0 as [-> _].
    f_equal; unfold pget; by simplify_map_eq.
  - right; right. simpl in H. unfold MorayBucketsNotSetupError in H.
    invert_construct H. simpl in *. simplify_eq.
    f_equal; unfold pget; by simplify_map_eq.
Qed.

(** A validation failure with one invalid-UUID element: status 409. *)
Lemma taxonomy_errors_body_and_status_witness :
  construct (NewValidationFailedError (VStr "Invalid VM parameters")
               (VArr [VObj (invalidUuidErrorsElem (VStr "owner_uuid")
                              VUndefined)]))
  = Done (restErrorWithErrors "ValidationFailedError" "ValidationFailed" 409
            "Invalid VM parameters"
            [VObj (invalidUuidErrorsElem (VStr "owner_uuid") VUndefined)])
  ∧ statusCode
      (restErrorWithErrors "ValidationFailedError" "ValidationFailed" 409
         "Invalid VM parameters"
         [VObj (invalidUuidErrorsElem (VStr "owner_uuid") VUndefined)])
    = Some 409.
Proof.
  split; [reflexivity|].
  exact (proj1 (taxonomy_errors_body_and_status
                  (NewValidationFailedError (VStr "Invalid VM parameters")
                     (VArr [VObj (invalidUuidErrorsElem (VStr "owner_uuid")
                                    VUndefined)]))
                  _ "ValidationFailed" 409 eq_refl eq_refl)).
Defined.

(** C8, as stated, fails: the body of a MorayBucketsNotSetup error has the
    key [lastInitError] besides [code] and [message]. *)
Lemma moray_error_body_shape :
  ∃ e b, construct (NewMorayBucketsNotSetupError init_error) = Done e
         ∧ statusCode e = Some 503
         ∧ body e = Some b
         ∧ b !! "lastInitError" = Some init_error
         ∧ body_shape b = false.
Proof.
  eexists _, _. split; [reflexivity|]. split; [reflexivity|].
  split; [reflexivity|]. split; vm_compute; reflexivity.
Qed.

End ErrorFacts.

(** *** provision.js: password generation *)

Module PasswordFacts.
Import JS Job Stated Samples JSFacts.
Import Provision.

(** [job.params.internal_metadata] *)
Abbreviation metadata p := (pget p "internal_metadata").

Lemma set_params_id j : set_params (params j) j = j.
Proof. by destruct j. Qed.

Lemma get_set_prop v key x v' :
  set_prop v key x = Done v' → get_prop v' key = Done x.
Proof.
  destruct v; simpl; try discriminate. intros [= <-]. simpl.
  by rewrite pget_insert.
Qed.

Lemma get_set_prop_ne v key key' x v' :
  set_prop v key x = Done v' → key ≠ key' →
  get_prop v' key' = get_prop v key'.
Proof.
  destruct v; simpl; try discriminate. intros [= <-] Hne. simpl.
  by rewrite pget_insert_ne.
Qed.


Section EachUser.
Variable apg : nat → apg_result.

(** The iterator touches [internal_metadata] only. *)
Lemma eachUser_frame us : ∀ n p p' n' err k,
  eachUser apg us n p = Done (p', n', err) →
  k ≠ "internal_metadata" → p' !! k = p !! k.
Proof.
  induction us as [|user rest IH]; intros n p p' n' err k H Hk.
  - by injection H as <- _ _.
  - simpl in H. apply bind_Done in H as (key & _ & H).
    apply bind_Done in H as (cur & _ & H).
    destruct (is_undefined cur); [|by eapply IH].
    destruct (truthy (apg_err (apg n))); [by injection H as <- _ _|].
    apply bind_Done in H as (im & _ & H).
    eapply IH in H; [|done]. by rewrite H, lookup_insert_ne.
Qed.

(** The count of runs of [apg] only grows. *)
Lemma eachUser_count us : ∀ n p p' n' err,
  eachUser apg us n p = Done (p', n', err) → (n ≤ n')%nat.
Proof.
  induction us as [|user rest IH]; intros n p p' n' err H.
  - injection H as _ <- _. lia.
  - simpl in H. apply bind_Done in H as (key & _ & H).
    apply bind_Done in H as (cur & _ & H).
    destruct (is_undefined cur); [|by eapply IH].
    destruct (truthy (apg_err (apg n))); [injection H as _ <- _; lia|].
    apply bind_Done in H as (im & _ & H). apply IH in H. lia.
Qed.





End EachUser.







(** What [generatePasswords] does, case by case. *)
Lemma generatePasswords_cases apg j j' n cb :
  generatePasswords apg j = Done (j', n, cb) →
  ∃ gp, get_prop (pget (params j) "image") "generate_passwords" = Done gp
  ∧ ((gp = VBool false ∧ j' = j ∧ n = 0%nat
      ∧ cb = CbOk "No need to generate passwords for image")
     ∨ (gp ≠ VBool false
        ∧ ∃ users, get_prop (pget (params j) "image") "users" = Done users
          ∧ ((isArray users = false ∧ j' = j ∧ n = 0%nat
              ∧ cb = CbOk ("Image has generate_passwords=true "
                           +:+ "but no users found"))
             ∨ ∃ us p' err,
                 users = VArr us
                 ∧ eachUser apg us 0 (withMetadata (params j))
                   = Done (p', n, err)
                 ∧ j' = set_params p' j
                 ∧ cb = match err with
                        | Some e => CbErr e (Some "Could not generate passwords")
                        | None => CbOk "Passwords generated for Image"
                        end))).
Proof.
  unfold generatePasswords. intros H.
  apply bind_Done in H as (gp & Hgp & H). exists gp. split; [done|].
  destruct (is_false gp) eqn:Hf.
  { left. apply is_false_spec in Hf. by simplify_eq. }
  right. split. { intros ->. discriminate. }
  apply bind_Done in H as (users & Hus & H). exists users. split; [done|].
  destruct users; try (left; by simplify_eq).
  right.
  apply bind_Done in H as ([[p' n'] err] & Hrun & H).
  exists items, p', err. destruct err; by simplify_eq.
Qed.



End PasswordFacts.

(** *** provision.js: the CNAPI payload *)

Module PayloadFacts.
Import JS Job Stated Samples JSFacts.
Import Provision.

(** **** Resolvers and routes *)

Lemma filter_and {A} (P Q : A → bool) l :
  List.filter (λ y, P y && Q y)%bool l = List.filter P (List.filter Q l).
Proof.
  induction l as [|x l IH]; simpl; [reflexivity|].
  destruct (Q x); simpl; destruct (P x); simpl; congruence.
Qed.

Lemma filter_implied {A} (P Q : A → bool) l :
  (∀ y, P y = true → Q y = true) →
  List.filter P (List.filter Q l) = List.filter P l.
Proof.
  intros HPQ. induction l as [|x l IH]; simpl; [reflexivity|].
  destruct (P x) eqn:HP.
  - rewrite (HPQ x HP). simpl. rewrite HP. congruence.
  - destruct (Q x); simpl; rewrite ?HP; exact IH.
Qed.

(** The loop over the resolvers of a NIC keeps what is there and appends
    the values it does not find, each once. *)
Lemma addResolvers_uniq l : ∀ acc,
  addResolvers acc l
  = (acc ++ List.filter (λ y, negb (includes acc y)) (uniq l))%list.
Proof.
  induction l as [|x l IH]; intros acc.
  - simpl. by rewrite app_nil_r.
  - change (addResolvers acc (x :: l))
      with (addResolvers (if includes acc x then acc else (acc ++ [x])%list) l).
    simpl uniq. simpl List.filter.
    destruct (includes acc x) eqn:Hx; simpl.
    + rewrite IH. f_equal. symmetry. apply filter_implied.
      intros y Hy. apply Bool.negb_true_iff.
      destruct (strict_eq y x) eqn:E; [|reflexivity].
      apply strict_eq_eq in E as ->. rewrite Hx in Hy. discriminate.
    + rewrite IH, <- app_assoc. simpl. do 2 f_equal.
      rewrite <- filter_and. apply filter_ext. intros y.
      rewrite includes_app. simpl. rewrite Bool.orb_false_r.
      by rewrite Bool.negb_orb.
Qed.

Lemma addResolvers_app acc l1 l2 :
  addResolvers acc (l1 ++ l2) = addResolvers (addResolvers acc l1) l2.
Proof. unfold addResolvers. apply foldl_app. Qed.



(** Every resolver of the NICs that [===] can find is kept. *)
Lemma uniq_complete l x :
  x ∈ l → strict_eq x x = true → includes (uniq l) x = true.
Proof.
  induction l as [|a l IH]; intros Hin Hrefl; [by apply elem_of_nil in Hin|].
  apply elem_of_cons in Hin as [->|Hin]; simpl.
  - by rewrite Hrefl.
  - destruct (strict_eq x a) eqn:E; [reflexivity|]. simpl.
    specialize (IH Hin Hrefl). apply includes_spec in IH as (y & Hy & Exy).
    apply includes_spec. exists y. split; [|done].
    apply list_elem_of_In, filter_In. split; [by apply list_elem_of_In|].
    apply strict_eq_eq in Exy as <-. by rewrite E.
Qed.

(** The loop over the routes of a NIC is a union that keeps the keys
    already there. *)
Lemma addRoutes_union kvs : ∀ acc,
  addRoutes acc kvs = acc ∪ list_to_map kvs.
Proof.
  induction kvs as [|[k v] kvs IH]; intros acc.
  - simpl. by rewrite (right_id_L ∅ (∪)).
  - change (addRoutes acc ((k, v) :: kvs))
      with (addRoutes (if phas acc k then acc else <[k := v]> acc) kvs).
    rewrite IH. simpl. destruct (phas acc k) eqn:Hk.
    + apply phas_spec in Hk as [x Hx]. apply map_eq. intros i.
      rewrite !lookup_union. destruct (decide (i = k)) as [->|Hne].
      * rewrite Hx, lookup_insert_eq. by destruct (list_to_map kvs !! k).
      * by rewrite lookup_insert_ne.
    + apply phas_false in Hk. rewrite <- insert_union_l.
      by rewrite insert_union_r.
Qed.

Lemma nicStep_spec acc nic acc' :
  nicStep acc nic = Done acc' →
  acc' = (addResolvers acc.1 (resolversOf nic), acc.2 ∪ routesOf nic).
Proof.
  unfold nicStep. intros H.
  apply bind_Done in H as (nr & Hnr & H).
  apply bind_Done in H as (nroutes & Hro & H). injection H as <-.
  destruct nic; simpl in *; simplify_eq;
    try (by rewrite (right_id_L ∅ (∪))).
  f_equal.
  - by destruct (pget props "resolvers").
  - destruct (pget props "routes") eqn:E; simpl;
      rewrite ?(right_id_L ∅ (∪)); try reflexivity.
    + by rewrite addRoutes_union.
    + by rewrite addRoutes_union, list_to_map_to_list.
Qed.

Lemma nicLoop_spec nics : ∀ acc acc',
  nicLoop nics acc = Done acc' →
  acc' = (addResolvers acc.1 (concat (resolversOf <$> nics)),
          acc.2 ∪ mergedRoutes nics).
Proof.
  induction nics as [|nic nics IH]; intros acc acc' H.
  - injection H as <-. simpl. rewrite (right_id_L ∅ (∪)). by destruct acc.
  - simpl in H. apply bind_Done in H as (acc1 & Hstep & H).
    apply nicStep_spec in Hstep as ->. apply IH in H as ->. simpl.
    by rewrite addResolvers_app, (assoc_L (∪)).
Qed.

(** What the loop over the NICs computes, from scratch. *)
Lemma nicLoop_from_scratch nics acc :
  nicLoop nics ([], ∅) = Done acc →
  acc = (collectedResolvers nics, mergedRoutes nics).
Proof.
  intros H. apply nicLoop_spec in H as ->. simpl.
  rewrite addResolvers_uniq, (left_id_L ∅ (∪)). simpl.
  unfold collectedResolvers. f_equal.
  induction (uniq _) as [|x l IH]; simpl; congruence.
Qed.


(** **** The fields of the payload *)

(** A property name is one of a list of names. *)
Ltac one_of_keys := apply (bool_decide_unpack _); vm_compute; exact I.

(** Two property names are different. *)
Ltac other_key :=
  unfold keys;
  repeat (apply not_elem_of_cons; split; [discriminate|]);
  try apply not_elem_of_nil; try discriminate.

Lemma copy_lookup (p : gmap string value) ks :
  ∀ (payload : gmap string value) k,
  foldl (λ acc key, if is_undefined (pget p key) then acc
                    else <[key := pget p key]> acc) payload ks !! k
  = if (bool_decide (k ∈ ks) && negb (is_undefined (pget p k)))%bool
    then Some (pget p k) else payload !! k.
Proof.
  induction ks as [|a ks IH]; intros payload k.
  - simpl foldl. rewrite bool_decide_eq_false_2; [done|].
    apply not_elem_of_nil.
  - simpl foldl. rewrite IH. destruct (decide (k = a)) as [->|Hne].
    + rewrite (bool_decide_eq_true_2 (a ∈ a :: ks)) by apply list_elem_of_here.
      simpl. destruct (is_undefined (pget p a)) eqn:Hu; simpl.
      * by rewrite Bool.andb_false_r.
      * rewrite lookup_insert_eq. by destruct (bool_decide (a ∈ ks)).
    + assert (bool_decide (k ∈ a :: ks) = bool_decide (k ∈ ks)) as ->.
      { apply bool_decide_ext. rewrite elem_of_cons. tauto. }
      destruct (_ && _)%bool; [done|].
      destruct (is_undefined (pget p a)); [done|].
      by rewrite lookup_insert_ne.
Qed.

Lemma copyKeys_copied p payload k :
  k ∈ keys → pget p k ≠ VUndefined →
  copyKeys p payload !! k = Some (pget p k).
Proof.
  intros Hin Hdef. unfold copyKeys. rewrite copy_lookup.
  rewrite bool_decide_eq_true_2 by done. simpl.
  destruct (is_undefined (pget p k)) eqn:E; [|done].
  by apply is_undefined_spec in E.
Qed.

Lemma copyKeys_skipped p payload k :
  k ∉ keys ∨ pget p k = VUndefined →
  copyKeys p payload !! k = payload !! k.
Proof.
  intros H. unfold copyKeys. rewrite copy_lookup.
  destruct H as [H | ->].
  - by rewrite bool_decide_eq_false_2.
  - simpl. by rewrite Bool.andb_false_r.
Qed.

Lemma addOtherProps_frame p image fields : ∀ payload payload' k,
  addOtherPropsToPayload p image fields payload = Done payload' →
  k ∉ fields → payload' !! k = payload !! k.
Proof.
  induction fields as [|f fields IH]; intros payload payload' k H Hk.
  - by injection H as <-.
  - apply not_elem_of_cons in Hk as [Hne Hk]. simpl in H.
    apply bind_Done in H as (x & _ & H).
    rewrite (IH _ _ _ H Hk). by rewrite lookup_insert_ne.
Qed.

Lemma otherProps_subset brand k :
  k ∉ ["disk_driver"; "nic_driver"; "cpu_type"; "flexible_disk_size"] →
  k ∉ otherProps brand.
Proof.
  intros Hk. unfold otherProps. destruct (is_str "bhyve" brand); simpl.
  - exact Hk.
  - intros Hin. apply Hk. rewrite !elem_of_cons in Hin. rewrite !elem_of_cons.
    tauto.
Qed.

(** For bhyve and kvm: [disks] replaces [quota]. *)
Lemma brandFields_hvm p image payload payload' :
  isHvmBrand (pget p "brand") = true →
  brandFields p image payload = Done payload' →
  payload' !! "disks" = Some (pget p "disks")
  ∧ payload' !! "quota" = None
  ∧ ∀ k, k ∉ ["disks"; "quota"; "disk_driver"; "nic_driver"; "cpu_type";
              "flexible_disk_size"] →
         payload' !! k = payload !! k.
Proof.
  intros Hb. unfold brandFields. rewrite Hb. intros H.
  apply bind_Done in H as (q & Hq & H). injection H as <-.
  split; [|split].
  - rewrite lookup_delete_ne by discriminate.
    rewrite (addOtherProps_frame _ _ _ _ _ "disks" Hq).
    + by rewrite lookup_insert_eq.
    + apply otherProps_subset. other_key.
  - by rewrite lookup_delete_eq.
  - intros k Hk.
    apply not_elem_of_cons in Hk as [Hd Hk].
    apply not_elem_of_cons in Hk as [Hq' Hk].
    rewrite lookup_delete_ne by done.
    rewrite (addOtherProps_frame _ _ _ _ _ k Hq).
    + by rewrite lookup_insert_ne.
    + by apply otherProps_subset.
Qed.

(** For the other brands: [image_uuid], and [filesystems] when given. *)
Lemma brandFields_other p image payload payload' :
  isHvmBrand (pget p "brand") = false →
  brandFields p image payload = Done payload' →
  payload' !! "image_uuid" = Some (pget p "image_uuid")
  ∧ payload' !! "filesystems"
    = (if is_undefined (pget p "filesystems") then payload !! "filesystems"
       else Some (pget p "filesystems"))
  ∧ ∀ k, k ∉ ["image_uuid"; "filesystems"] → payload' !! k = payload !! k.
Proof.
  intros Hb. unfold brandFields. rewrite Hb. intros [= <-].
  destruct (is_undefined (pget p "filesystems")); repeat split.
  - by rewrite lookup_insert_eq.
  - by rewrite lookup_insert_ne.
  - intros k Hk. apply not_elem_of_cons in Hk as [Hne _].
    by rewrite lookup_insert_ne.
  - rewrite lookup_insert_ne by discriminate. by rewrite lookup_insert_eq.
  - by rewrite lookup_insert_eq.
  - intros k Hk. apply not_elem_of_cons in Hk as [H1 Hk].
    apply not_elem_of_cons in Hk as [H2 _].
    by rewrite !lookup_insert_ne.
Qed.

Lemma withImgapiPeers_frame p payload k :
  k ≠ "imgapiPeers" → withImgapiPeers p payload !! k = payload !! k.
Proof.
  intros Hk. unfold withImgapiPeers. destruct (is_undefined _); [done|].
  by rewrite lookup_insert_ne.
Qed.

(** The NFS block writes [internal_metadata] only. *)
Lemma nfsMetadata_frame parse print j p payload payload' p' k :
  nfsMetadata parse print j p payload = Done (inl (payload', p')) →
  k ≠ "internal_metadata" →
  payload' !! k = payload !! k ∧ p' !! k = p !! k.
Proof.
  unfold nfsMetadata. intros H Hk.
  destruct (is_undefined (nfsVolumesInternalMetadata j)).
  { by injection H as <- <-. }
  apply bind_Done in H as ([im1|e] & _ & H); [|discriminate].
  apply bind_Done in H as (im2 & _ & H). injection H as <- <-.
  rewrite lookup_insert_ne by done. split; [done|].
  destruct (phas payload "internal_metadata"); [|done].
  by rewrite lookup_insert_ne.
Qed.

Lemma inheritKernelVersion_frame p image p1 k :
  inheritKernelVersion p image = Done p1 →
  k ≠ "kernel_version" → p1 !! k = p !! k.
Proof.
  unfold inheritKernelVersion. intros H Hk.
  apply bind_Done in H as ([] & _ & H); [|by injection H as <-].
  apply bind_Done in H as (tags & _ & H).
  apply bind_Done in H as (hasKv & _ & H).
  destruct (_ && _)%bool; [|by injection H as <-].
  apply bind_Done in H as (kv & _ & H). injection H as <-.
  by rewrite lookup_insert_ne.
Qed.

Lemma lxBrand_frame ity p k :
  k ≠ "brand" → lxBrand ity p !! k = p !! k.
Proof.
  intros Hk. unfold lxBrand. destruct (is_str _ _); [|done].
  by rewrite lookup_insert_ne.
Qed.

Lemma lxBrand_brand ity p :
  pget (lxBrand ity p) "brand"
  = if is_str "lx-dataset" ity then VStr "lx" else pget p "brand".
Proof.
  unfold lxBrand. destruct (is_str _ _); [|done]. by rewrite pget_insert.
Qed.

Lemma withResolversAndRoutes_frame want acc payload k :
  k ∉ ["resolvers"; "routes"] →
  withResolversAndRoutes want acc payload !! k = payload !! k.
Proof.
  intros Hk. apply not_elem_of_cons in Hk as [H1 Hk].
  apply not_elem_of_cons in Hk as [H2 _].
  unfold withResolversAndRoutes.
  destruct (negb _); destruct (_ && _)%bool;
    by rewrite ?lookup_insert_ne.
Qed.

Lemma wantResolvers_spec p want :
  wantResolvers p = Done want → want = negb (setResolversFalse p).
Proof.
  unfold wantResolvers, setResolversFalse.
  destruct (pget p "internal_metadata"); simpl; intros H;
    by simplify_eq.
Qed.

Section Prepared.
Variable JSON_parse : string → value + string.
Variable JSON_stringify : value → string.

(** The stages [preparePayload] went through when it answers without
    error. *)
Lemma preparePayload_stages j j' msg :
  preparePayload JSON_parse JSON_stringify j = Done (j', CbOk msg) →
  let p0 := <["jobid" := uuid j]> (params j) in
  let image := pget p0 "image" in
  ∃ p1 ity want nics acc payload5 payload7 p3,
    inheritKernelVersion p0 image = Done p1
    ∧ get_prop image "type" = Done ity
    ∧ wantResolvers (lxBrand ity p1) = Done want
    ∧ nicsItems (pget (lxBrand ity p1) "nics") = Done nics
    ∧ nicLoop nics ([], ∅) = Done acc
    ∧ brandFields (lxBrand ity p1) image
        (withResolversAndRoutes want acc
           (<["archive_on_delete" := VBool true]>
              (copyKeys (lxBrand ity p1)
                 {[ "uuid" := pget p0 "vm_uuid"; "image" := image ]})))
      = Done payload5
    ∧ nfsMetadata JSON_parse JSON_stringify j (lxBrand ity p1)
        (withImgapiPeers (lxBrand ity p1) payload5)
      = Done (inl (payload7, p3))
    ∧ j' = set_params (<["payload" := VObj payload7]> p3) j.
Proof.
  intros H. cbv zeta. unfold preparePayload in H.
  apply bind_Done in H as (p1 & Hp1 & H).
  apply bind_Done in H as (ity & Hity & H).
  apply bind_Done in H as (want & Hwant & H).
  apply bind_Done in H as (nics & Hnics & H).
  apply bind_Done in H as (acc & Hacc & H).
  apply bind_Done in H as (payload5 & Hp5 & H).
  apply bind_Done in H as (r & Hr & H).
  destruct r as [[payload7 p3]|e]; [|discriminate].
  injection H as <- _.
  by exists p1, ity, want, nics, acc, payload5, payload7, p3.
Qed.

Lemma nicLoop_returns nics : ∀ acc,
  Forall (λ nic, ∃ o, nic = VObj o) nics →
  ∃ acc', nicLoop nics acc = Done acc'.
Proof.
  induction nics as [|nic nics IH]; intros acc Hall; [simpl; eauto|].
  apply Forall_cons in Hall as [[o ->] Hrest]. simpl. by apply IH.
Qed.

Lemma addOtherProps_returns p image fields : ∀ payload,
  ∃ payload', addOtherPropsToPayload p (VObj image) fields payload
              = Done payload'.
Proof.
  induction fields as [|f fields IH]; intros payload; simpl; [eauto|].
  destruct (truthy (pget p f)); simpl; apply IH.
Qed.

(** [preparePayload] answers without error for every job whose image is
    an object (with tags, if any, an object), whose NICs are an array of
    objects, whose [internal_metadata] is an object or is not there, and
    which carries no NFS volumes. *)
Lemma preparePayload_returns j image nics :
  pget (params j) "image" = VObj image →
  (image !! "tags" = None ∨ ∃ t, image !! "tags" = Some (VObj t)) →
  pget (params j) "nics" = VArr nics →
  Forall (λ nic, ∃ o, nic = VObj o) nics →
  (pget (params j) "internal_metadata" = VUndefined
   ∨ ∃ o, pget (params j) "internal_metadata" = VObj o) →
  nfsVolumesInternalMetadata j = VUndefined →
  ∃ j', preparePayload JSON_parse JSON_stringify j
        = Done (j', CbOk "Payload prepared successfully").
Proof.
  intros Himg Htags Hnics Hobj Hm Hnfs. unfold preparePayload.
  set (p0 := <["jobid" := uuid j]> (params j)).
  assert (pget p0 "image" = VObj image) as ->
    by (unfold p0; by rewrite pget_insert_ne).
  assert (∃ p1, inheritKernelVersion p0 (VObj image) = Done p1) as [p1 Hp1].
  { unfold inheritKernelVersion. simpl. unfold phas at 1.
    destruct Htags as [Ht | [t Ht]]; rewrite ?Ht.
    - rewrite bool_decide_eq_false_2 by (by intros [? ?]). eauto.
    - rewrite bool_decide_eq_true_2 by eauto. simpl.
      assert (pget image "tags" = VObj t) as ->
        by (unfold pget; by rewrite Ht).
      simpl. destruct (phas t "kernel_version" && _)%bool; eauto. }
  rewrite Hp1. run_bind.
  set (p2 := lxBrand (pget image "type") p1).
  assert (∀ k, k ∉ ["jobid"; "kernel_version"; "brand"] →
               pget p2 k = pget (params j) k) as Hp2.
  { intros k Hk. apply not_elem_of_cons in Hk as [H1 Hk].
    apply not_elem_of_cons in Hk as [H2 Hk].
    apply not_elem_of_cons in Hk as [H3 _].
    unfold pget, p2. rewrite lxBrand_frame by done.
    rewrite (inheritKernelVersion_frame _ _ _ k Hp1) by done.
    unfold p0. by rewrite lookup_insert_ne. }
  assert (∃ want, wantResolvers p2 = Done want) as [want ->].
  { unfold wantResolvers. rewrite Hp2 by other_key.
    destruct Hm as [-> | [o ->]]; simpl; eauto. }
  run_bind. rewrite Hp2 by other_key. rewrite Hnics. run_bind.
  destruct (nicLoop_returns nics ([], ∅) Hobj) as [acc ->]. run_bind.
  match goal with
  | |- context [brandFields p2 (VObj image) ?pl] => generalize pl
  end.
  intros payload4.
  assert (∃ payload5, brandFields p2 (VObj image) payload4 = Done payload5)
    as [payload5 ->].
  { unfold brandFields. destruct (isHvmBrand _); [|eauto].
    match goal with
    | |- context [addOtherPropsToPayload p2 (VObj image) ?fs ?pl] =>
        destruct (addOtherProps_returns p2 image fs pl) as [q ->]
    end.
    run_bind. eauto. }
  run_bind. unfold nfsMetadata. rewrite Hnfs.
  cbn [is_undefined]. run_bind. eauto.
Qed.

(** The payload [preparePayload] leaves in [job.params.payload], field by
    field. *)
Lemma preparePayload_fields j j' msg :
  preparePayload JSON_parse JSON_stringify j = Done (j', CbOk msg) →
  ∃ ity nics payload,
    get_prop (pget (params j) "image") "type" = Done ity
    ∧ nicsItems (pget (params j) "nics") = Done nics
    ∧ pget (params j') "payload" = VObj payload
    ∧ payload !! "archive_on_delete" = Some (VBool true)
    ∧ payload !! "resolvers"
      = (if (negb (setResolversFalse (params j))
             && negb (truthy (pget (params j) "resolvers")))%bool
         then Some (VArr (collectedResolvers nics))
         else if is_undefined (pget (params j) "resolvers") then None
         else Some (pget (params j) "resolvers"))
    ∧ payload !! "routes"
      = (if (size (mergedRoutes nics) =? 0)%nat then None
         else Some (VObj (mergedRoutes nics)))
    ∧ (isHvmBrand (payloadBrand (params j) ity) = true →
         payload !! "disks" = Some (pget (params j) "disks")
         ∧ payload !! "quota" = None)
    ∧ (isHvmBrand (payloadBrand (params j) ity) = false →
         payload !! "image_uuid" = Some (pget (params j) "image_uuid")
         ∧ payload !! "filesystems"
           = (if is_undefined (pget (params j) "filesystems") then None
              else Some (pget (params j) "filesystems"))
         ∧ payload !! "quota"
           = (if is_undefined (pget (params j) "quota") then None
              else Some (pget (params j) "quota"))).
Proof.
  intros H. apply preparePayload_stages in H.
  destruct H as (p1 & ity & want & nics & acc & payload5 & payload7 & p3
                 & Hp1 & Hity & Hwant & Hnics & Hacc & Hp5 & Hnfs & ->).
  set (p0 := <["jobid" := uuid j]> (params j)) in *.
  set (p2 := lxBrand ity p1) in *.
  (* the parameters read by the later stages are those of the job *)
  assert (∀ k, k ∉ ["jobid"; "kernel_version"; "brand"] →
               pget p2 k = pget (params j) k) as Hp2.
  { intros k Hk. apply not_elem_of_cons in Hk as [H1 Hk].
    apply not_elem_of_cons in Hk as [H2 Hk].
    apply not_elem_of_cons in Hk as [H3 _].
    unfold pget, p2. rewrite lxBrand_frame by done.
    rewrite (inheritKernelVersion_frame _ _ _ k Hp1) by done.
    unfold p0. by rewrite lookup_insert_ne. }
  assert (pget p0 "image" = pget (params j) "image") as Himg
    by (unfold p0; by rewrite pget_insert_ne).
  assert (pget p2 "brand" = payloadBrand (params j) ity) as Hbrand.
  { unfold p2. rewrite lxBrand_brand. unfold payloadBrand.
    destruct (is_str _ _); [done|].
    unfold pget. rewrite (inheritKernelVersion_frame _ _ _ "brand" Hp1)
      by discriminate.
    unfold p0. by rewrite lookup_insert_ne. }
  assert (want = negb (setResolversFalse (params j))) as ->.
  { rewrite (wantResolvers_spec _ _ Hwant). f_equal.
    unfold setResolversFalse. rewrite Hp2; [done|other_key]. }
  apply nicLoop_from_scratch in Hacc as ->.
  rewrite Hp2 in Hnics by other_key. rewrite Himg in Hity, Hp5.
  exists ity, nics, payload7.
  split; [exact Hity|]. split; [exact Hnics|].
  split; [simpl; by rewrite pget_insert|].
  (* from the payload after the brand branch to the final one *)
  assert (∀ k, k ∉ ["imgapiPeers"; "internal_metadata"] →
               payload7 !! k = payload5 !! k) as Hlate.
  { intros k Hk. apply not_elem_of_cons in Hk as [H1 Hk].
    apply not_elem_of_cons in Hk as [H2 _].
    destruct (nfsMetadata_frame _ _ _ _ _ _ _ k Hnfs H2) as [-> _].
    by apply withImgapiPeers_frame. }
  set (payload2 := <["archive_on_delete" := VBool true]> (copyKeys p2 _))
    in Hp5.
  set (payload4 := withResolversAndRoutes _ _ payload2) in Hp5.
  (* the brand branch leaves the three fields of payload4 alone *)
  assert (∀ k, k ∈ ["archive_on_delete"; "resolvers"; "routes"] →
               payload5 !! k = payload4 !! k) as Hmid.
  { intros k Hk.
    destruct (isHvmBrand (pget p2 "brand")) eqn:Hb.
    - destruct (brandFields_hvm _ _ _ _ Hb Hp5) as (_ & _ & Hfr).
      apply Hfr. rewrite !elem_of_cons, elem_of_nil in Hk.
      destruct Hk as [-> | [-> | [-> | []]]]; other_key.
    - destruct (brandFields_other _ _ _ _ Hb Hp5) as (_ & _ & Hfr).
      apply Hfr. rewrite !elem_of_cons, elem_of_nil in Hk.
      destruct Hk as [-> | [-> | [-> | []]]]; other_key. }
  assert (payload2 !! "resolvers"
          = if is_undefined (pget (params j) "resolvers") then None
            else Some (pget (params j) "resolvers")) as Hres2.
  { unfold payload2. rewrite lookup_insert_ne by discriminate.
    rewrite <- (Hp2 "resolvers") by other_key.
    destruct (is_undefined (pget p2 "resolvers")) eqn:E.
    - apply is_undefined_spec in E.
      rewrite copyKeys_skipped by (by right). reflexivity.
    - rewrite copyKeys_copied; [done|one_of_keys|].
      intros Hu. rewrite Hu in E. discriminate. }
  assert (pget payload2 "resolvers" = pget (params j) "resolvers") as Hres2'.
  { unfold pget at 1. rewrite Hres2.
    destruct (is_undefined (pget (params j) "resolvers")) eqn:E; [|done].
    by apply is_undefined_spec in E. }
  assert (payload2 !! "archive_on_delete" = Some (VBool true)) as Haod2
    by (unfold payload2; by rewrite lookup_insert_eq).
  assert (∀ k, k ∉ "archive_on_delete" :: "uuid" :: "image" :: keys →
               payload2 !! k = None) as Hnone2.
  { intros k Hk. apply not_elem_of_cons in Hk as [H1 Hk].
    apply not_elem_of_cons in Hk as [H2 Hk].
    apply not_elem_of_cons in Hk as [H3 Hk].
    unfold payload2. rewrite lookup_insert_ne by done.
    rewrite copyKeys_skipped by (by left).
    rewrite lookup_insert_ne by done. by rewrite lookup_singleton_ne. }
  assert (payload2 !! "quota"
          = if is_undefined (pget (params j) "quota") then None
            else Some (pget (params j) "quota")) as Hquota2.
  { unfold payload2. rewrite lookup_insert_ne by discriminate.
    rewrite <- (Hp2 "quota") by other_key.
    destruct (is_undefined (pget p2 "quota")) eqn:E.
    - apply is_undefined_spec in E.
      rewrite copyKeys_skipped by (by right). reflexivity.
    - rewrite copyKeys_copied; [done|one_of_keys|].
      intros Hu. rewrite Hu in E. discriminate. }
  clearbody payload2.
  assert (payload4 !! "resolvers"
          = (if (negb (setResolversFalse (params j))
                 && negb (truthy (pget (params j) "resolvers")))%bool
             then Some (VArr (collectedResolvers nics))
             else if is_undefined (pget (params j) "resolvers") then None
             else Some (pget (params j) "resolvers"))) as Hres4.
  { unfold payload4, withResolversAndRoutes. cbn [fst snd].
    rewrite Hres2'.
    destruct (negb (size (mergedRoutes nics) =? 0)%nat);
      rewrite ?lookup_insert_ne by discriminate;
      destruct (_ && _)%bool; by rewrite ?lookup_insert_eq. }
  assert (payload4 !! "routes"
          = (if (size (mergedRoutes nics) =? 0)%nat then None
             else Some (VObj (mergedRoutes nics)))) as Hroutes4.
  { unfold payload4, withResolversAndRoutes. cbn [fst snd].
    destruct (size (mergedRoutes nics) =? 0)%nat; cbn [negb].
    - destruct (_ && negb (truthy (pget payload2 _)))%bool;
        rewrite ?lookup_insert_ne by discriminate; apply Hnone2; other_key.
    - by rewrite lookup_insert_eq. }
  assert (∀ k, k ∉ ["resolvers"; "routes"] →
               payload4 !! k = payload2 !! k) as Hfr4
    by (intros; by apply withResolversAndRoutes_frame).
  clearbody payload4.
  split; [|split; [|split; [|split]]].
  - rewrite Hlate by other_key. rewrite Hmid by one_of_keys.
    by rewrite Hfr4 by other_key.
  - rewrite Hlate by other_key. by rewrite Hmid by one_of_keys.
  - rewrite Hlate by other_key. by rewrite Hmid by one_of_keys.
  - intros Hb. rewrite <- Hbrand in Hb.
    destruct (brandFields_hvm _ _ _ _ Hb Hp5) as (Hd & Hq & _).
    rewrite !Hlate by other_key. rewrite Hd, Hq.
    by rewrite Hp2 by other_key.
  - intros Hb. rewrite <- Hbrand in Hb.
    destruct (brandFields_other _ _ _ _ Hb Hp5) as (Hi & Hf & Hfr).
    rewrite !Hlate by other_key. rewrite Hi, Hf, Hfr by other_key.
    rewrite !Hp2 by other_key. rewrite !Hfr4 by other_key.
    split; [done|]. split; [|exact Hquota2].
    destruct (is_undefined (pget (params j) "filesystems")); [|done].
    apply Hnone2. other_key.
Qed.

End Prepared.


Lemma payloadOf_prepared p payload j :
  payloadOf (set_params (<["payload" := VObj payload]> p) j) = payload.
Proof. unfold payloadOf. simpl. by rewrite pget_insert. Qed.

Section Claims.
Variable JSON_parse : string → value + string.
Variable JSON_stringify : value → string.

(** C6, as the code has it.  For every provision job whose brand, as the
    brand branch of [preparePayload] reads it (an image of type
    [lx-dataset] has made it [lx]), is bhyve or kvm, the CNAPI payload
    carries [disks] and no [quota] key; for every other brand it carries
    [image_uuid] (plus [filesystems] when given) and retains [quota] when
    given.  The ensure-image step, which runs on the brand of the
    parameters, uses [disks[0].image_uuid] for bhyve and kvm and
    [image_uuid] otherwise. *)
Theorem payload_brand_fields j j' msg :
  preparePayload JSON_parse JSON_stringify j = Done (j', CbOk msg) →
  ∃ ity,
    get_prop (pget (params j) "image") "type" = Done ity
    ∧ pget (params j') "payload" = VObj (payloadOf j')
    ∧ (is_str "lx-dataset" ity = false →
         payloadBrand (params j) ity = pget (params j) "brand")
    ∧ (isHvmBrand (payloadBrand (params j) ity) = true →
         payloadOf j' !! "disks" = Some (pget (params j) "disks")
         ∧ payloadOf j' !! "quota" = None)
    ∧ (isHvmBrand (payloadBrand (params j) ity) = false →
         payloadOf j' !! "image_uuid" = Some (pget (params j) "image_uuid")
         ∧ (pget (params j) "filesystems" ≠ VUndefined →
              payloadOf j' !! "filesystems"
              = Some (pget (params j) "filesystems"))
         ∧ (pget (params j) "quota" ≠ VUndefined →
              payloadOf j' !! "quota" = Some (pget (params j) "quota")))
    ∧ (isHvmBrand (pget (params j) "brand") = true →
         ∀ disk image_uuid,
           get_index (pget (params j) "disks") 0 = Done disk →
           get_prop disk "image_uuid" = Done image_uuid →
           ∃ e, ensurePayload j = Done e
                ∧ e !! "image_uuid" = Some image_uuid)
    ∧ (isHvmBrand (pget (params j) "brand") = false →
         ∃ e, ensurePayload j = Done e
              ∧ e !! "image_uuid" = Some (pget (params j) "image_uuid")).
Proof.
  intros H.
  destruct (preparePayload_fields _ _ _ _ _ H)
    as (ity & nics & payload & Hity & _ & Hpl & _ & _ & _ & Hhvm & Hother).
  assert (payloadOf j' = payload) as Hof by (unfold payloadOf; by rewrite Hpl).
  exists ity. rewrite Hof.
  split; [exact Hity|]. split; [exact Hpl|].
  split. { intros Hlx. unfold payloadBrand. by rewrite Hlx. }
  split; [exact Hhvm|]. split.
  { intros Hb. destruct (Hother Hb) as (Hi & Hf & Hq).
    split; [exact Hi|]. split.
    - intros Hdef. rewrite Hf.
      destruct (is_undefined (pget (params j) "filesystems")) eqn:E; [|done].
      by apply is_undefined_spec in E.
    - intros Hdef. rewrite Hq.
      destruct (is_undefined (pget (params j) "quota")) eqn:E; [|done].
      by apply is_undefined_spec in E. }
  split.
  - intros Hb disk iu Hdisk Hiu. unfold ensurePayload.
    rewrite Hb, Hdisk. simpl. rewrite Hiu. simpl.
    eexists. split; [reflexivity|].
    destruct (is_undefined (pget (params j) "imgapiPeers"));
      rewrite ?lookup_insert_ne by discriminate;
      by rewrite lookup_singleton_eq.
  - intros Hb. unfold ensurePayload. rewrite Hb. simpl.
    eexists. split; [reflexivity|].
    destruct (is_undefined (pget (params j) "imgapiPeers"));
      rewrite ?lookup_insert_ne by discriminate;
      by rewrite lookup_singleton_eq.
Qed.


End Claims.

(** A kvm job with a zvol image: [disks] in the payload, [quota] out. *)
Lemma payload_brand_fields_witness :
  preparePayload no_parse no_print job_kvm
  = Done (job_kvm_prepared, CbOk "Payload prepared successfully")
  ∧ isHvmBrand (payloadBrand (params job_kvm) (VStr "zvol")) = true
  ∧ payloadOf job_kvm_prepared !! "disks"
    = Some (VArr [VObj {[ "image_uuid" := VStr "img-1" ]};
                  VObj {[ "size" := VNum 10240 ]}])
  ∧ payloadOf job_kvm_prepared !! "quota" = None.
Proof.
  assert (preparePayload no_parse no_print job_kvm
          = Done (job_kvm_prepared, CbOk "Payload prepared successfully"))
    as Hrun by (vm_compute; reflexivity).
  split; [exact Hrun|]. split; [vm_compute; reflexivity|].
  destruct (payload_brand_fields _ _ _ _ _ Hrun)
    as (ity & Hity & _ & _ & Hhvm & _).
  assert (ity = VStr "zvol") as -> by (vm_compute in Hity; congruence).
  apply Hhvm. vm_compute; reflexivity.
Defined.

(** C6, as stated, fails: a job whose parameters say brand kvm and whose
    image is an lx-dataset gets a payload without [disks] that keeps
    [quota]. *)
Lemma kvm_lx_payload_keeps_quota :
  isHvmBrand (pget (params job_kvm_lx) "brand") = true
  ∧ preparePayload no_parse no_print job_kvm_lx
    = Done (job_kvm_lx_prepared, CbOk "Payload prepared successfully")
  ∧ payloadOf job_kvm_lx_prepared !! "brand" = Some (VStr "lx")
  ∧ payloadOf job_kvm_lx_prepared !! "disks" = None
  ∧ payloadOf job_kvm_lx_prepared !! "quota" = Some (VNum 10).
Proof. repeat split; vm_compute; reflexivity. Qed.


End PayloadFacts.

(** *** provision.js: validation, passwords, the calls to CNAPI *)

Module ProvisionMore.
Import JS Job Stated Samples JSFacts PasswordFacts.
Import Provision.

(** X1. [validateParams] accepts the job exactly when the eight settings
    and the parameters [owner_uuid] and [brand] are not [undefined]. *)
Theorem validateParams_accepts_iff s j :
  validateParams s j = CbOk "All parameters OK!"
  ↔ Forall (λ v, v ≠ VUndefined)
      [ napiUrl s; ufdsUrl s; ufdsDn s; ufdsPassword s; cnapiUrl s;
        fwapiUrl s; imgapiUrl s; sapiUrl s;
        pget (params j) "owner_uuid"; pget (params j) "brand" ].
Proof.
  unfold validateParams. rewrite !Forall_cons, Forall_nil.
  rewrite <- !is_undefined_spec.
  repeat match goal with
         | |- context [is_undefined ?v] =>
             destruct (is_undefined v); simpl;
             [split; [discriminate|intuition congruence]|]
         end.
  intuition congruence.
Qed.

Lemma strip_newlines_clean s : has_newline (strip_newlines s) = false.
Proof.
  unfold has_newline. induction s as [|c s IH]; [reflexivity|].
  simpl. destruct (Ascii.eqb c LF || Ascii.eqb c CR)%bool eqn:E; [exact IH|].
  simpl. by rewrite E.
Qed.

(** A value found under a key after the iterator ran was there before, or
    is the output of a successful run of [apg], line ends removed. *)
Lemma eachUser_new_values apg us : ∀ n p p' n' err key x,
  eachUser apg us n p = Done (p', n', err) →
  get_prop (metadata p') key = Done x →
  get_prop (metadata p) key = Done x
  ∨ ∃ i, (n ≤ i < n')%nat ∧ truthy (apg_err (apg i)) = false
         ∧ x = VStr (strip_newlines (apg_stdout (apg i))).
Proof.
  induction us as [|user rest IH]; intros n p p' n' err key x H Hx.
  - injection H as <- _ _. by left.
  - simpl in H. apply bind_Done in H as (name & _ & H).
    apply bind_Done in H as (cur & Hcur & H).
    destruct (is_undefined cur); [|by eapply IH].
    destruct (truthy (apg_err (apg n))) eqn:Herr.
    { injection H as <- _ _. by left. }
    apply bind_Done in H as (im & Him & H).
    pose proof (eachUser_count _ _ _ _ _ _ _ H) as Hcount.
    destruct (IH _ _ _ _ _ _ _ H Hx) as [Hold | (i & Hi & Herr' & ->)].
    + rewrite pget_insert in Hold.
      destruct (decide (name = key)) as [->|Hne].
      * right. exists n. split; [lia|]. split; [done|].
        rewrite (get_set_prop _ _ _ _ Him) in Hold. by injection Hold as <-.
      * left. by rewrite <- (get_set_prop_ne _ _ _ _ _ Him Hne).
    + right. exists i. split; [lia|]. done.
Qed.

(** The runs of [apg]: at most one per user, all successful but the last
    one when the iterator ends on an error, which is the error of that
    run. *)
Lemma eachUser_runs apg us : ∀ n p p' n' err,
  eachUser apg us n p = Done (p', n', err) →
  (n' ≤ n + length us)%nat
  ∧ (∀ i, (n ≤ i)%nat → (i + match err with Some _ => 1 | None => 0 end < n')%nat →
          truthy (apg_err (apg i)) = false)
  ∧ (∀ e, err = Some e →
          (n < n')%nat ∧ e = apg_err (apg (n' - 1)%nat) ∧ truthy e = true).
Proof.
  induction us as [|user rest IH]; intros n p p' n' err H.
  - injection H as _ <- <-. simpl. split; [lia|]. split; [intros; lia|done].
  - simpl in H. apply bind_Done in H as (name & _ & H).
    apply bind_Done in H as (cur & _ & H).
    destruct (is_undefined cur).
    + destruct (truthy (apg_err (apg n))) eqn:Herr.
      * injection H as _ <- <-. simpl. split; [lia|].
        split; [intros; lia|]. intros e [= <-].
        rewrite Nat.sub_0_r. split; [lia|by split].
      * apply bind_Done in H as (im & _ & H).
        destruct (IH _ _ _ _ _ H) as (Hle & Hok & Hlast).
        simpl. split; [lia|]. split.
        -- intros i Hi Hlt. destruct (decide (i = n)) as [->|Hne]; [done|].
           apply Hok; [lia|done].
        -- intros e He. destruct (Hlast e He) as (? & ? & ?).
           split; [lia|done].
    + destruct (IH _ _ _ _ _ H) as (Hle & Hok & Hlast).
      simpl. split; [lia|done].
Qed.

(** X2. Whatever [generatePasswords] leaves in [internal_metadata] was
    there before the task ran, or is what a successful run of [apg]
    printed, with the line feeds and carriage returns removed. *)
Theorem generatePasswords_values_from_apg apg j j' n cb key x :
  generatePasswords apg j = Done (j', n, cb) →
  get_prop (metadata (params j')) key = Done x → x ≠ VUndefined →
  get_prop (metadata (params j)) key = Done x
  ∨ ∃ i s, (i < n)%nat ∧ truthy (apg_err (apg i)) = false
           ∧ s = strip_newlines (apg_stdout (apg i))
           ∧ x = VStr s ∧ has_newline s = false.
Proof.
  intros H Hx Hdef.
  destruct (generatePasswords_cases _ _ _ _ _ H)
    as (gp & Hgp & [(-> & -> & -> & ->) |
                    (Hnf & users & Hus &
                     [(Harr & -> & -> & ->) |
                      (us & p' & err & -> & Hrun & -> & ->)])]);
    [by left..|].
  simpl in Hx.
  destruct (eachUser_new_values _ _ _ _ _ _ _ _ _ Hrun Hx)
    as [Hold | (i & Hi & Herr & ->)].
  - left. unfold withMetadata in Hold.
    destruct (is_undefined (metadata (params j))); [|done].
    rewrite pget_insert in Hold. simpl in Hold. unfold pget in Hold.
    rewrite lookup_empty in Hold. simpl in Hold. congruence.
  - right. eexists i, _. split; [lia|]. split; [done|].
    split; [reflexivity|]. split; [done|]. apply strip_newlines_clean.
Qed.

(** The password of [root] in the sample job is what [apg] printed, the
    line feed removed. *)
Lemma generatePasswords_values_from_apg_witness :
  get_prop (metadata (params job_two_users)) "root_pw" = Done (VStr "s3cr3t")
  ∨ ∃ i s, (i < 1)%nat ∧ truthy (apg_err (apg_prints i)) = false
           ∧ s = strip_newlines (apg_stdout (apg_prints i))
           ∧ VStr "s3cr3t" = VStr s ∧ has_newline s = false.
Proof.
  apply (generatePasswords_values_from_apg apg_prints job_two_users
           job_two_users_done 1 (CbOk "Passwords generated for Image")).
  - vm_compute. reflexivity.
  - vm_compute. reflexivity.
  - discriminate.
Defined.

(** X3. [generatePasswords] runs [apg] at most once per user of the image
    and stops at the first run that fails: the error handed to the
    callback is the error of the last run, and every run before it
    succeeded. *)
Theorem generatePasswords_apg_runs apg j j' n cb :
  generatePasswords apg j = Done (j', n, cb) →
  (∀ us, get_prop (pget (params j) "image") "users" = Done (VArr us) →
         (n ≤ length us)%nat)
  ∧ (cb_ok cb = true → ∀ i, (i < n)%nat → truthy (apg_err (apg i)) = false)
  ∧ (∀ e msg, cb = CbErr e msg →
       (0 < n)%nat ∧ e = apg_err (apg (n - 1)%nat) ∧ truthy e = true
       ∧ msg = Some "Could not generate passwords"
       ∧ ∀ i, (i < n - 1)%nat → truthy (apg_err (apg i)) = false).
Proof.
  intros H.
  destruct (generatePasswords_cases _ _ _ _ _ H)
    as (gp & Hgp & [(-> & -> & -> & ->) |
                    (Hnf & users & Hus &
                     [(Harr & -> & -> & ->) |
                      (us & p' & err & -> & Hrun & -> & ->)])]).
  - split; [intros; lia|]. split; [intros; lia|]. discriminate.
  - split; [intros; lia|]. split; [intros; lia|]. discriminate.
  - destruct (eachUser_runs _ _ _ _ _ _ _ Hrun) as (Hle & Hok & Hlast).
    split; [|split].
    + intros us' Hus'. rewrite Hus in Hus'. injection Hus' as <-. lia.
    + intros Hcb i Hi. destruct err; [discriminate|]. apply Hok; lia.
    + intros e msg Hcb. destruct err as [e'|]; [|discriminate].
      injection Hcb as <- <-. destruct (Hlast e' eq_refl) as (? & ? & ?).
      repeat split; try done. intros i Hi. apply Hok; lia.
Qed.

(** One user without password in the sample job: one run of [apg], which
    succeeded. *)
Lemma generatePasswords_apg_runs_witness :
  (1 ≤ 2)%nat ∧ truthy (apg_err (apg_prints 0)) = false.
Proof.
  assert (generatePasswords apg_prints job_two_users
          = Done (job_two_users_done, 1%nat,
                  CbOk "Passwords generated for Image")) as Hrun
    by (vm_compute; reflexivity).
  destruct (generatePasswords_apg_runs _ _ _ _ _ Hrun) as (Hle & Hok & _).
  split.
  - apply (Hle [VObj {[ "name" := VStr "root" ]};
                VObj {[ "name" := VStr "admin" ]}]).
    vm_compute. reflexivity.
  - apply Hok; [reflexivity|lia].
Defined.

(** X4. [generatePasswords] writes [job.params.internal_metadata] and
    nothing else: the other parameters and the other fields of the job are
    those it was given. *)
Theorem generatePasswords_writes_metadata_only apg j j' n cb :
  generatePasswords apg j = Done (j', n, cb) →
  j' = set_params (params j') j
  ∧ (∀ k, k ≠ "internal_metadata" → params j' !! k = params j !! k).
Proof.
  intros H.
  destruct (generatePasswords_cases _ _ _ _ _ H)
    as (gp & Hgp & [(-> & -> & -> & ->) |
                    (Hnf & users & Hus &
                     [(Harr & -> & -> & ->) |
                      (us & p' & err & -> & Hrun & -> & ->)])]).
  - by rewrite set_params_id.
  - by rewrite set_params_id.
  - split; [done|].
    intros k Hk. simpl. rewrite (eachUser_frame _ _ _ _ _ _ _ k Hrun Hk).
    unfold withMetadata. destruct (is_undefined _); [|done].
    by rewrite lookup_insert_ne.
Qed.

Lemma generatePasswords_writes_metadata_only_witness :
  job_two_users_done = set_params (params job_two_users_done) job_two_users
  ∧ params job_two_users_done !! "vm_uuid" = params job_two_users !! "vm_uuid".
Proof.
  assert (generatePasswords apg_prints job_two_users
          = Done (job_two_users_done, 1%nat,
                  CbOk "Passwords generated for Image")) as Hrun
    by (vm_compute; reflexivity).
  destruct (generatePasswords_writes_metadata_only _ _ _ _ _ Hrun)
    as (Hjob & Hframe).
  split; [exact Hjob|]. apply Hframe. discriminate.
Defined.

End ProvisionMore.

(** *** provision.js and add-nics.js: the requests to CNAPI *)

Module RequestFacts.
Import JS Job Stated Samples JSFacts PasswordFacts.
Import Provision.

(** What [provision] leaves in the job, whatever it answers. *)
Lemma provision_inv cnapi j j' cb :
  provision cnapi j = Done (j', cb) →
  let p := <["jobid" := uuid j]> (delete "skip_zone_action" (params j)) in
  let autoboot := pget (params j) "autoboot" in
  let j1 :=
    set_expects
      (if (is_false autoboot || is_str "false" autoboot)%bool
       then VStr "stopped" else VStr "running")
      (set_params p j) in
  (j' = j1 ∧ ∃ e, cb = CbErr e None ∧ truthy e = true)
  ∨ (∃ id msg, j' = set_markAsFailedOnError (VBool false) (set_taskId id j1)
               ∧ cb = CbOk msg).
Proof.
  unfold provision. intros H. cbv zeta.
  assert (pget (<["jobid" := uuid j]> (delete "skip_zone_action" (params j)))
            "autoboot" = pget (params j) "autoboot") as Hauto.
  { rewrite pget_insert_ne by discriminate. unfold pget.
    by rewrite lookup_delete_ne. }
  rewrite Hauto in H.
  apply bind_Done in H as (forced & _ & H).
  destruct forced.
  { injection H as <- <-. left. split; [done|]. by eexists. }
  destruct (truthy (reply_err _)) eqn:Herr.
  { injection H as <- <-. left. split; [done|]. by eexists. }
  apply bind_Done in H as (id & _ & H). injection H as <- <-.
  right. by eexists _, _.
Qed.

(** X5. Whatever [provision] answers, it has removed [skip_zone_action]
    from the parameters, set [jobid] to the id of the job and left the
    other parameters alone, and it expects the VM stopped exactly when
    [autoboot] is the boolean [false] or the string ['false'], running
    otherwise. *)
Theorem provision_expects_and_params cnapi j j' cb :
  provision cnapi j = Done (j', cb) →
  params j' !! "skip_zone_action" = None
  ∧ params j' !! "jobid" = Some (uuid j)
  ∧ (∀ k, k ≠ "jobid" → k ≠ "skip_zone_action" →
          params j' !! k = params j !! k)
  ∧ (expects j' = VStr "stopped"
     ↔ pget (params j) "autoboot" = VBool false
       ∨ pget (params j) "autoboot" = VStr "false")
  ∧ (expects j' = VStr "stopped" ∨ expects j' = VStr "running")
  ∧ uuid j' = uuid j ∧ postBackState j' = postBackState j
  ∧ action j' = action j.
Proof.
  intros H. apply provision_inv in H. cbv zeta in H.
  assert (∀ v, (is_false v || is_str "false" v)%bool = true
               ↔ v = VBool false ∨ v = VStr "false") as Hstop.
  { intros v. rewrite Bool.orb_true_iff, is_false_spec, is_str_spec. tauto. }
  destruct H as [[-> _] | (id & msg & -> & _)]; simpl;
    (split; [by rewrite lookup_insert_ne, lookup_delete_eq by discriminate|]);
    (split; [by rewrite lookup_insert_eq|]);
    (split; [intros k H1 H2;
             by rewrite lookup_insert_ne, lookup_delete_ne by done|]);
    rewrite <- Hstop;
    destruct (is_false _ || is_str "false" _)%bool;
    (split; [split; [done|congruence]|]); (split; [auto|done]).
Qed.

Lemma provision_expects_and_params_witness :
  params
    (set_markAsFailedOnError (VBool false)
       (set_taskId (VStr "task-1")
          (set_expects (VStr "running")
             (set_params (<["jobid" := VStr "job-1"]> (params job_fresh))
                job_fresh)))) !! "jobid" = Some (uuid job_fresh).
Proof.
  refine (proj1 (proj2 (provision_expects_and_params cnapi_accepts job_fresh
                          _ (CbOk "Provision task: task-1 queued!") _))).
  vm_compute. reflexivity.
Defined.

(** X6. A job whose [internal_metadata] carries a truthy
    [force_provision_failure] fails in [provision] without CNAPI being
    asked: the answer is the same for every CNAPI, no task id is recorded
    and [markAsFailedOnError] keeps its value, so that the error branch
    cleans up after the job. *)
Theorem provision_forced_failure cnapi j im :
  pget (params j) "internal_metadata" = VObj im →
  truthy (pget im "force_provision_failure") = true →
  ∃ j', provision cnapi j
        = Done (j', CbErr (VStr "force_provision_failure set, failing") None)
        ∧ markAsFailedOnError j' = markAsFailedOnError j
        ∧ taskId j' = taskId j
        ∧ ∀ cnapi', provision cnapi' j = provision cnapi j.
Proof.
  intros Him Hforce.
  assert (∀ c, provision c j
               = Done (set_expects
                         (if (is_false (pget (params j) "autoboot")
                              || is_str "false" (pget (params j) "autoboot"))%bool
                          then VStr "stopped" else VStr "running")
                         (set_params
                            (<["jobid" := uuid j]>
                               (delete "skip_zone_action" (params j))) j),
                       CbErr (VStr "force_provision_failure set, failing")
                         None)) as Hrun.
  { intros c. unfold provision.
    assert (∀ k, k ≠ "jobid" → k ≠ "skip_zone_action" →
                 pget (<["jobid" := uuid j]>
                         (delete "skip_zone_action" (params j))) k
                 = pget (params j) k) as Hp.
    { intros k H1 H2. rewrite pget_insert_ne by done. unfold pget.
      by rewrite lookup_delete_ne. }
    rewrite !Hp by discriminate. rewrite Him. cbn [truthy]. run_bind.
    by rewrite Hforce. }
  eexists. split; [apply Hrun|]. split; [done|]. split; [done|].
  intros c'. by rewrite !Hrun.
Qed.

Lemma provision_forced_failure_witness :
  ∃ j', provision cnapi_accepts
          (fresh (VStr "job-1")
             {[ "internal_metadata" :=
                  VObj {[ "force_provision_failure" := VBool true ]} ]})
        = Done (j', CbErr (VStr "force_provision_failure set, failing") None)
        ∧ markAsFailedOnError j' = VUndefined.
Proof.
  destruct (provision_forced_failure cnapi_accepts
              (fresh (VStr "job-1")
                 {[ "internal_metadata" :=
                      VObj {[ "force_provision_failure" := VBool true ]} ]})
              {[ "force_provision_failure" := VBool true ]})
    as (j' & Hrun & Hflag & _).
  - vm_compute. reflexivity.
  - vm_compute. reflexivity.
  - exists j'. split; [exact Hrun|exact Hflag].
Defined.

(** X7. For a bhyve or kvm job without a first disk ([disks] missing,
    [null] or empty), [ensureImage] throws a [TypeError] before CNAPI is
    asked, instead of answering its callback. *)
Theorem ensureImage_throws_without_disks cnapi j :
  isHvmBrand (pget (params j) "brand") = true →
  pget (params j) "disks" ∈ [VUndefined; VNull; VArr []] →
  ∃ what, ensureImage cnapi j = Fails (TypeError what).
Proof.
  intros Hb Hd. unfold ensureImage, ensurePayload. rewrite Hb.
  rewrite !elem_of_cons, elem_of_nil in Hd.
  destruct Hd as [-> | [-> | [-> | []]]]; simpl; eauto.
Qed.

Lemma ensureImage_throws_without_disks_witness :
  ∃ what,
    ensureImage cnapi_accepts
      (fresh (VStr "job-1") {[ "brand" := VStr "kvm"; "disks" := VArr [] ]})
    = Fails (TypeError what).
Proof.
  apply ensureImage_throws_without_disks.
  - vm_compute. reflexivity.
  - rewrite !elem_of_cons. right. right. left. vm_compute. reflexivity.
Defined.

(** X8. When [ensureImage] answers, CNAPI was sent a payload with
    [image_uuid] and, when the parameters have them, [imgapiPeers], and
    nothing else; the task records the id of the CNAPI task in
    [job.taskId] when CNAPI accepted and leaves the job as it was when
    CNAPI answered with an error, which it hands to the callback. *)
Theorem ensureImage_request cnapi j j' cb :
  ensureImage cnapi j = Done (j', cb) →
  ∃ e, ensurePayload j = Done e
    ∧ is_Some (e !! "image_uuid")
    ∧ e !! "imgapiPeers"
      = (if is_undefined (pget (params j) "imgapiPeers") then None
         else Some (pget (params j) "imgapiPeers"))
    ∧ (∀ k, k ≠ "image_uuid" → k ≠ "imgapiPeers" → e !! k = None)
    ∧ let r := cnapi (pget (params j) "server_uuid") (VObj e) in
      (∀ err msg, cb = CbErr err msg →
         j' = j ∧ err = reply_err r ∧ truthy err = true ∧ msg = None)
      ∧ (cb_ok cb = true →
         truthy (reply_err r) = false
         ∧ get_prop (reply_task r) "id" = Done (taskId j')
         ∧ j' = set_taskId (taskId j') j).
Proof.
  unfold ensureImage. intros H.
  apply bind_Done in H as (e & He & H). exists e. split; [done|].
  assert (is_Some (e !! "image_uuid")
          ∧ e !! "imgapiPeers"
            = (if is_undefined (pget (params j) "imgapiPeers") then None
               else Some (pget (params j) "imgapiPeers"))
          ∧ (∀ k, k ≠ "image_uuid" → k ≠ "imgapiPeers" → e !! k = None))
    as (H1 & H2 & H3).
  { unfold ensurePayload in He.
    apply bind_Done in He as (iu & _ & He). injection He as <-.
    destruct (is_undefined (pget (params j) "imgapiPeers")).
    - split; [by rewrite lookup_singleton_eq|].
      split; [by rewrite lookup_singleton_ne|].
      intros k Hk _. by rewrite lookup_singleton_ne.
    - split; [by rewrite lookup_insert_ne, lookup_singleton_eq|].
      split; [by rewrite lookup_insert_eq|].
      intros k Hk Hk'. by rewrite lookup_insert_ne, lookup_singleton_ne. }
  split; [done|]. split; [done|]. split; [done|]. cbv zeta.
  destruct (truthy (reply_err _)) eqn:Herr.
  - injection H as <- <-. split; [|discriminate].
    intros err msg [= <- <-]. done.
  - apply bind_Done in H as (id & Hid & H). injection H as <- <-.
    split; [discriminate|]. intros _. done.
Qed.

Lemma ensureImage_request_witness :
  ∃ e, ensurePayload job_zone = Done e
       ∧ e !! "image_uuid" = Some (VStr "img-2")
       ∧ e !! "imgapiPeers" = None.
Proof.
  destruct (ensureImage_request cnapi_accepts job_zone
              (set_taskId (VStr "task-1") job_zone)
              (CbOk "Ensure image task queued!"))
    as (e & He & _ & Hpeers & _).
  - vm_compute. reflexivity.
  - exists e. split; [exact He|]. split; [|exact Hpeers].
    assert (ensurePayload job_zone = Done {[ "image_uuid" := VStr "img-2" ]})
      as Hsample by (vm_compute; reflexivity).
    rewrite Hsample in He. injection He as <-. reflexivity.
Defined.

(** X9. The task bodies that only write fields of the job give the same
    job and the same answer when they run again on their own result: a
    retry of [setPostBackFailed], [setJobAction] or [setupRequest] changes
    nothing. *)
Theorem field_setters_idempotent j :
  setPostBackFailed (setPostBackFailed j).1 = setPostBackFailed j
  ∧ setJobAction (setJobAction j).1 = setJobAction j
  ∧ Workflow.setupRequest (Workflow.setupRequest j).1
    = Workflow.setupRequest j.
Proof.
  split; [|split].
  - unfold setPostBackFailed.
    destruct (is_false (markAsFailedOnError j)) eqn:E; simpl; by rewrite E.
  - reflexivity.
  - unfold Workflow.setupRequest. simpl.
    rewrite insert_insert_eq. unfold pget.
    by rewrite !lookup_insert_ne by discriminate.
Qed.

End RequestFacts.

(** *** provision.js: the rest of the CNAPI payload *)

Module PayloadMore.
Import JS Job Stated Samples JSFacts PasswordFacts PayloadFacts.
Import Provision.

(** A list of property names does not hold the name [k]. *)
Ltac not_among :=
  repeat (apply not_elem_of_cons; split; [done|]); apply not_elem_of_nil.

(** Splitting [k ∉ [a; b; ...]] into [k ≠ a], [k ≠ b], ... *)
Ltac split_not_among H :=
  repeat (let Hne := fresh "Hne" in
          apply not_elem_of_cons in H as [Hne H]);
  clear H.

Lemma get_prop_readable v k x k' :
  get_prop v k = Done x → ∃ x', get_prop v k' = Done x'.
Proof. destruct v; simpl; try discriminate; eauto. Qed.

Lemma copied_lookup (p payload : gmap string value) k :
  k ∈ keys → payload !! k = None →
  copyKeys p payload !! k
  = if is_undefined (pget p k) then None else Some (pget p k).
Proof.
  intros Hin Hnone. destruct (is_undefined (pget p k)) eqn:E.
  - apply is_undefined_spec in E. by rewrite copyKeys_skipped by (by right).
  - apply copyKeys_copied; [done|]. intros Hu. rewrite Hu in E. discriminate.
Qed.

(** What [inheritKernelVersion] does to the parameters. *)
Lemma inheritKernelVersion_inv p image p1 :
  inheritKernelVersion p image = Done p1 →
  (phas p "kernel_version" = true → p1 = p)
  ∧ (phas p "kernel_version" = false →
     (∀ tags kv, get_prop image "tags" = Done (VObj tags) →
                 tags !! "kernel_version" = Some kv →
                 p1 = <["kernel_version" := kv]> p)
     ∧ ((∀ tags, get_prop image "tags" = Done (VObj tags) →
                 tags !! "kernel_version" = None) → p1 = p))
  ∧ (p1 = p ∨ ∃ kv, p1 = <["kernel_version" := kv]> p
                    ∧ p !! "kernel_version" = None).
Proof.
  unfold inheritKernelVersion. intros H.
  apply bind_Done in H as (hasTags & Htags & H).
  destruct hasTags.
  - apply bind_Done in H as (tags & Hget & H).
    apply bind_Done in H as (hasKv & HhasKv & H).
    destruct hasKv; cbn [andb] in H.
    + destruct (phas p "kernel_version") eqn:Hp; cbn [negb] in H.
      * injection H as <-. split; [done|]. split; [discriminate|by left].
      * apply bind_Done in H as (kv & Hkv & H). injection H as <-.
        split; [discriminate|]. split.
        -- intros _. split.
           ++ intros tags' kv' Htags' Hkv'. rewrite Hget in Htags'.
              injection Htags' as ->. simpl in Hkv. injection Hkv as <-.
              unfold pget. by rewrite Hkv'.
           ++ intros Hno. destruct tags; simpl in HhasKv; try discriminate.
              injection HhasKv as HhasKv. apply phas_spec in HhasKv.
              rewrite (Hno props Hget) in HhasKv. by destruct HhasKv.
        -- right. exists kv. split; [done|]. by apply phas_false.
    + injection H as <-. split; [done|]. split; [|by left].
      intros _. split; [|done].
      intros tags' kv' Htags' Hkv'. rewrite Hget in Htags'.
      injection Htags' as ->. simpl in HhasKv. injection HhasKv as HhasKv.
      apply phas_false in HhasKv. congruence.
  - injection H as <-. split; [done|]. split; [|by left].
    intros _. split; [|done].
    intros tags kv Hget _. destruct image; simpl in *; try discriminate.
    injection Htags as Htags. apply phas_false in Htags.
    injection Hget as Hget. unfold pget in Hget. rewrite Htags in Hget.
    discriminate.
Qed.

Lemma addOtherProps_lookup p image fields : ∀ payload payload' f,
  addOtherPropsToPayload p image fields payload = Done payload' →
  f ∈ fields →
  ∃ x, (if truthy (pget p f) then Done (pget p f) else get_prop image f)
       = Done x
       ∧ payload' !! f = Some x.
Proof.
  induction fields as [|g fields IH]; intros payload payload' f H Hin.
  - by apply elem_of_nil in Hin.
  - simpl in H. apply bind_Done in H as (x & Hx & H).
    destruct (decide (f ∈ fields)) as [Hin'|Hout]; [by eapply IH|].
    apply elem_of_cons in Hin as [->|Hin]; [|done].
    exists x. split; [done|].
    rewrite (addOtherProps_frame _ _ _ _ _ g H Hout).
    by rewrite lookup_insert_eq.
Qed.

Section Payload.
Variable JSON_parse : string → value + string.
Variable JSON_stringify : value → string.

(** X16. The volumes written under [docker:nfsvolumes] are the parsed
    ones, in the same order, each an object that lost [mode] and gained
    [readonly], [true] exactly when the mode was the string ['ro'], its
    other properties kept. *)
Theorem eachVol_rewrites_mode vols : ∀ vols',
  eachVol vols = Done vols' →
  Forall2 (λ v v', ∃ o o', v = VObj o ∧ v' = VObj o'
             ∧ o' !! "mode" = None
             ∧ o' !! "readonly" = Some (VBool (is_str "ro" (pget o "mode")))
             ∧ ∀ k, k ≠ "mode" → k ≠ "readonly" → o' !! k = o !! k)
          vols vols'.
Proof.
  induction vols as [|v vols IH]; intros vols' H.
  - injection H as <-. constructor.
  - simpl in H. apply bind_Done in H as (mode & Hmode & H).
    apply bind_Done in H as (v1 & Hv1 & H).
    apply bind_Done in H as (rest' & Hrest & H). injection H as <-.
    constructor; [|by apply IH].
    destruct v; simpl in Hv1; try discriminate. injection Hv1 as <-.
    simpl in Hmode. injection Hmode as <-.
    eexists _, _. split; [done|]. split; [reflexivity|].
    split; [by rewrite lookup_delete_eq|].
    split; [by rewrite lookup_delete_ne, lookup_insert_eq by discriminate|].
    intros k H1 H2. by rewrite lookup_delete_ne, lookup_insert_ne.
Qed.

(** What the NFS block does when it does not end the task. *)
Lemma nfsMetadata_inv j p payload payload' p' :
  nfsMetadata JSON_parse JSON_stringify j p payload
  = Done (inl (payload', p')) →
  let nfs := nfsVolumesInternalMetadata j in
  (nfs = VUndefined ∧ payload' = payload ∧ p' = p)
  ∨ (nfs ≠ VUndefined
     ∧ ∃ o0 o2,
         (if phas payload "internal_metadata"
          then pget payload "internal_metadata" = VObj o0 else o0 = ∅)
         ∧ o2 !! "sdc:volumes" = Some nfs
         ∧ (∀ k, k ≠ "sdc:volumes" → k ≠ "docker:nfsvolumes" →
                 o2 !! k = o0 !! k)
         ∧ (if is_true (pget p "docker")
            then ∃ vols vols',
                   JSON_parse (to_string nfs) = inl (VArr vols)
                   ∧ eachVol vols = Done vols'
                   ∧ o2 !! "docker:nfsvolumes"
                     = Some (VStr (JSON_stringify (VArr vols')))
            else o2 !! "docker:nfsvolumes" = o0 !! "docker:nfsvolumes")
         ∧ payload' = <["internal_metadata" := VObj o2]> payload
         ∧ p' = (if phas payload "internal_metadata"
                 then <["internal_metadata" := VObj o2]> p else p)).
Proof.
  unfold nfsMetadata. intros H. cbv zeta.
  destruct (is_undefined (nfsVolumesInternalMetadata j)) eqn:Hu.
  { apply is_undefined_spec in Hu. injection H as <- <-. by left. }
  right. split. { intros Hn. rewrite Hn in Hu. discriminate. }
  apply bind_Done in H as (r & Hr & H).
  destruct r as [im1|e]; [|discriminate].
  apply bind_Done in H as (im2 & Him2 & H). injection H as <- <-.
  set (im0 := if phas payload "internal_metadata"
              then pget payload "internal_metadata" else VObj ∅) in *.
  assert (∃ o0, im0 = VObj o0) as [o0 Ho0].
  { destruct (is_true (pget p "docker")).
    - destruct (JSON_parse _) as [[]|]; try discriminate.
      apply bind_Done in Hr as (vols' & _ & Hr).
      apply bind_Done in Hr as (im1' & Him1 & _).
      destruct im0; simpl in Him1; try discriminate. eauto.
    - injection Hr as <-. destruct im0; simpl in Him2; try discriminate.
      eauto. }
  rewrite Ho0 in Hr.
  assert (if phas payload "internal_metadata"
          then pget payload "internal_metadata" = VObj o0 else o0 = ∅) as Hshared.
  { unfold im0 in Ho0. destruct (phas payload "internal_metadata"); [done|].
    by injection Ho0 as <-. }
  clearbody im0.
  destruct (is_true (pget p "docker")).
  - destruct (JSON_parse _) as [[]|] eqn:Hparse; try discriminate.
    apply bind_Done in Hr as (vols' & Hvols & Hr).
    simpl in Hr. injection Hr as <-. simpl in Him2. injection Him2 as <-.
    exists o0,
      (<["sdc:volumes" := nfsVolumesInternalMetadata j]>
         (<["docker:nfsvolumes" := VStr (JSON_stringify (VArr vols'))]> o0)).
    split; [done|].
    split; [by rewrite lookup_insert_eq|].
    split; [intros k H1 H2; by rewrite !lookup_insert_ne|].
    split; [|done].
    exists items, vols'. split; [done|]. split; [done|].
    by rewrite lookup_insert_ne, lookup_insert_eq by discriminate.
  - injection Hr as <-. simpl in Him2. injection Him2 as <-.
    exists o0, (<["sdc:volumes" := nfsVolumesInternalMetadata j]> o0).
    split; [done|].
    split; [by rewrite lookup_insert_eq|].
    split; [intros k H1 H2; by rewrite !lookup_insert_ne|].
    split; [|done]. by rewrite lookup_insert_ne by discriminate.
Qed.

(** The run of [preparePayload] that answers without error, stage by
    stage, in terms of the parameters of the job. *)
Lemma preparePayload_anatomy j j' msg :
  preparePayload JSON_parse JSON_stringify j = Done (j', CbOk msg) →
  ∃ p1 ity want acc payload5 payload7 p3,
    let image := pget (params j) "image" in
    let p2 := lxBrand ity p1 in
    inheritKernelVersion (<["jobid" := uuid j]> (params j)) image = Done p1
    ∧ get_prop image "type" = Done ity
    ∧ (∀ k, k ∉ ["jobid"; "kernel_version"; "brand"] →
            p2 !! k = params j !! k)
    ∧ brandFields p2 image
        (withResolversAndRoutes want acc
           (<["archive_on_delete" := VBool true]>
              (copyKeys p2 {[ "uuid" := pget (params j) "vm_uuid";
                              "image" := image ]})))
      = Done payload5
    ∧ nfsMetadata JSON_parse JSON_stringify j p2 (withImgapiPeers p2 payload5)
      = Done (inl (payload7, p3))
    ∧ j' = set_params (<["payload" := VObj payload7]> p3) j.
Proof.
  intros H. apply preparePayload_stages in H. cbv zeta in H.
  destruct H as (p1 & ity & want & nics & acc & payload5 & payload7 & p3
                 & Hp1 & Hity & Hwant & Hnics & Hacc & Hp5 & Hnfs & ->).
  assert (pget (<["jobid" := uuid j]> (params j)) "image"
          = pget (params j) "image") as Himg
    by (by rewrite pget_insert_ne).
  assert (pget (<["jobid" := uuid j]> (params j)) "vm_uuid"
          = pget (params j) "vm_uuid") as Hvm
    by (by rewrite pget_insert_ne).
  rewrite Himg in Hp1, Hity, Hp5. rewrite Hvm in Hp5.
  exists p1, ity, want, acc, payload5, payload7, p3. cbv zeta.
  split; [done|]. split; [done|]. split; [|done].
  intros k Hk. split_not_among Hk. rewrite lxBrand_frame by done.
  rewrite (inheritKernelVersion_frame _ _ _ k Hp1) by done.
  by rewrite lookup_insert_ne.
Qed.

(** From the payload after the copy of the parameters to the final one:
    the later stages write thirteen fields and no other. *)
Lemma payload_after_copy j p2 image want acc payload2 payload5 payload7 p3 :
  brandFields p2 image (withResolversAndRoutes want acc
                          (<["archive_on_delete" := VBool true]> payload2))
  = Done payload5 →
  nfsMetadata JSON_parse JSON_stringify j p2 (withImgapiPeers p2 payload5)
  = Done (inl (payload7, p3)) →
  ∀ k,
  k ∉ [ "archive_on_delete"; "resolvers"; "routes"; "disks"; "quota";
        "disk_driver"; "nic_driver"; "cpu_type"; "flexible_disk_size";
        "image_uuid"; "filesystems"; "imgapiPeers"; "internal_metadata" ] →
  payload7 !! k = payload2 !! k.
Proof.
  intros Hp5 Hnfs k Hk. split_not_among Hk.
  destruct (nfsMetadata_frame _ _ _ _ _ _ _ k Hnfs) as [-> _]; [done|].
  rewrite withImgapiPeers_frame by done.
  assert (payload5 !! k
          = withResolversAndRoutes want acc
              (<["archive_on_delete" := VBool true]> payload2) !! k) as ->.
  { destruct (isHvmBrand (pget p2 "brand")) eqn:Hb.
    - destruct (brandFields_hvm _ _ _ _ Hb Hp5) as (_ & _ & Hfr).
      apply Hfr. not_among.
    - destruct (brandFields_other _ _ _ _ Hb Hp5) as (_ & _ & Hfr).
      apply Hfr. not_among. }
  rewrite withResolversAndRoutes_frame by not_among.
  by rewrite lookup_insert_ne.
Qed.

(** X10. The payload [preparePayload] builds carries [uuid] (the
    [vm_uuid] of the parameters) and [image]; each of the forty-two listed
    parameters other than [brand], [kernel_version], [internal_metadata],
    [resolvers] and [quota] is copied when it is not [undefined] and is
    absent otherwise; [imgapiPeers] is copied when given; and the payload
    never has a key outside the listed parameters and the twelve fields
    the task writes itself. *)
Theorem payload_copies_parameters j j' msg :
  preparePayload JSON_parse JSON_stringify j = Done (j', CbOk msg) →
  payloadOf j' !! "uuid" = Some (pget (params j) "vm_uuid")
  ∧ payloadOf j' !! "image" = Some (pget (params j) "image")
  ∧ (∀ k, k ∈ keys →
          k ∉ [ "brand"; "kernel_version"; "internal_metadata"; "resolvers";
                "quota" ] →
          payloadOf j' !! k
          = if is_undefined (pget (params j) k) then None
            else Some (pget (params j) k))
  ∧ payloadOf j' !! "imgapiPeers"
    = (if is_undefined (pget (params j) "imgapiPeers") then None
       else Some (pget (params j) "imgapiPeers"))
  ∧ (∀ k, is_Some (payloadOf j' !! k) →
          k ∈ ([ "uuid"; "image"; "archive_on_delete"; "routes"; "disks";
                 "disk_driver"; "nic_driver"; "cpu_type";
                 "flexible_disk_size"; "image_uuid"; "filesystems";
                 "imgapiPeers" ] ++ keys)%list).
Proof.
  intros H. apply preparePayload_anatomy in H. cbv zeta in H.
  destruct H as (p1 & ity & want & acc & payload5 & payload7 & p3
                 & Hp1 & Hity & Hp2 & Hp5 & Hnfs & ->).
  rewrite payloadOf_prepared.
  pose proof (payload_after_copy _ _ _ _ _ _ _ _ _ Hp5 Hnfs) as Hlate.
  set (p2 := lxBrand ity p1) in *.
  set (payload0 := ({[ "uuid" := pget (params j) "vm_uuid";
                       "image" := pget (params j) "image" ]}
                    : gmap string value)) in *.
  assert (payload0 !! "uuid" = Some (pget (params j) "vm_uuid")) as Huuid
    by (unfold payload0; by rewrite lookup_insert_eq).
  assert (payload0 !! "image" = Some (pget (params j) "image")) as Himage
    by (unfold payload0;
        by rewrite lookup_insert_ne, lookup_singleton_eq by discriminate).
  assert (∀ k, k ≠ "uuid" → k ≠ "image" → payload0 !! k = None) as Hzero
    by (intros k H1 H2; unfold payload0;
        by rewrite lookup_insert_ne, lookup_singleton_ne).
  clearbody payload0.
  split; [|split; [|split; [|split]]].
  - rewrite Hlate by other_key.
    by rewrite copyKeys_skipped by (left; other_key).
  - rewrite Hlate by other_key.
    by rewrite copyKeys_skipped by (left; other_key).
  - intros k Hin Hk. split_not_among Hk.
    assert (k ∉ [ "jobid"; "uuid"; "image"; "archive_on_delete"; "routes";
                  "disks"; "disk_driver"; "nic_driver"; "cpu_type";
                  "flexible_disk_size"; "image_uuid"; "filesystems";
                  "imgapiPeers" ]) as Hout.
    { intros Hbad. revert Hin.
      repeat (apply elem_of_cons in Hbad as [->|Hbad]; [other_key|]).
      by apply elem_of_nil in Hbad. }
    split_not_among Hout.
    rewrite Hlate by not_among.
    rewrite copied_lookup by (by auto).
    unfold pget. by rewrite Hp2 by not_among.
  - destruct (nfsMetadata_frame _ _ _ _ _ _ _ "imgapiPeers" Hnfs) as [-> _];
      [done|].
    unfold withImgapiPeers.
    assert (pget p2 "imgapiPeers" = pget (params j) "imgapiPeers") as ->
      by (unfold pget; by rewrite Hp2 by other_key).
    destruct (is_undefined (pget (params j) "imgapiPeers")) eqn:E;
      [|by rewrite lookup_insert_eq].
    assert (payload5 !! "imgapiPeers"
            = copyKeys p2 payload0 !! "imgapiPeers") as ->.
    { destruct (isHvmBrand (pget p2 "brand")) eqn:Hb.
      - destruct (brandFields_hvm _ _ _ _ Hb Hp5) as (_ & _ & Hfr).
        rewrite Hfr by other_key.
        rewrite withResolversAndRoutes_frame by other_key.
        by rewrite lookup_insert_ne.
      - destruct (brandFields_other _ _ _ _ Hb Hp5) as (_ & _ & Hfr).
        rewrite Hfr by other_key.
        rewrite withResolversAndRoutes_frame by other_key.
        by rewrite lookup_insert_ne. }
    rewrite copyKeys_skipped by (left; other_key). by apply Hzero.
  - intros k [x Hx].
    destruct (decide (k ∈ ([ "uuid"; "image"; "archive_on_delete"; "routes";
                             "disks"; "disk_driver"; "nic_driver";
                             "cpu_type"; "flexible_disk_size"; "image_uuid";
                             "filesystems"; "imgapiPeers" ] ++ keys)%list))
      as [|Hk]; [done|].
    exfalso. apply not_elem_of_app in Hk as [Hk Hkeys].
    split_not_among Hk.
    assert (k ∉ [ "resolvers"; "quota"; "internal_metadata" ]) as Hk'.
    { intros Hbad. apply Hkeys.
      repeat (apply elem_of_cons in Hbad as [->|Hbad]; [one_of_keys|]).
      by apply elem_of_nil in Hbad. }
    split_not_among Hk'.
    rewrite Hlate in Hx by not_among.
    rewrite copyKeys_skipped in Hx by (by left).
    rewrite Hzero in Hx by done. discriminate.
Qed.


(** X11. [preparePayload] sets the brand of the parameters to ['lx'] when
    the image is of type ['lx-dataset'] and leaves it alone otherwise; a
    [kernel_version] the parameters own is kept, and when they own none
    the one of the image tags is taken; the payload carries the brand and
    the kernel version the parameters have after that. *)
Theorem payload_brand_and_kernel_version j j' msg :
  preparePayload JSON_parse JSON_stringify j = Done (j', CbOk msg) →
  ∃ ity,
    get_prop (pget (params j) "image") "type" = Done ity
    ∧ pget (params j') "brand"
      = (if is_str "lx-dataset" ity then VStr "lx"
         else pget (params j) "brand")
    ∧ (phas (params j) "kernel_version" = true →
       params j' !! "kernel_version" = params j !! "kernel_version")
    ∧ (phas (params j) "kernel_version" = false →
       (∀ tags kv,
          get_prop (pget (params j) "image") "tags" = Done (VObj tags) →
          tags !! "kernel_version" = Some kv →
          params j' !! "kernel_version" = Some kv)
       ∧ ((∀ tags,
             get_prop (pget (params j) "image") "tags" = Done (VObj tags) →
             tags !! "kernel_version" = None) →
          params j' !! "kernel_version" = None))
    ∧ ∀ k, k ∈ ["brand"; "kernel_version"] →
           payloadOf j' !! k
           = if is_undefined (pget (params j') k) then None
             else Some (pget (params j') k).
Proof.
  intros H. apply preparePayload_anatomy in H. cbv zeta in H.
  destruct H as (p1 & ity & want & acc & payload5 & payload7 & p3
                 & Hp1 & Hity & Hp2 & Hp5 & Hnfs & ->).
  rewrite payloadOf_prepared. exists ity. split; [done|].
  pose proof (payload_after_copy _ _ _ _ _ _ _ _ _ Hp5 Hnfs) as Hlate.
  assert (∀ k, k ≠ "internal_metadata" → k ≠ "payload" →
               <["payload" := VObj payload7]> p3 !! k = lxBrand ity p1 !! k)
    as Hp3.
  { intros k H1 H2. rewrite lookup_insert_ne by done.
    by destruct (nfsMetadata_frame _ _ _ _ _ _ _ k Hnfs H1) as [_ ->]. }
  assert (phas (<["jobid" := uuid j]> (params j)) "kernel_version"
          = phas (params j) "kernel_version") as Hown.
  { unfold phas. by rewrite lookup_insert_ne. }
  destruct (inheritKernelVersion_inv _ _ _ Hp1) as (Hkeep & Htake & _).
  rewrite Hown in Hkeep, Htake.
  cbn [params set_params].
  split; [|split; [|split]].
  - unfold pget at 1. rewrite Hp3 by discriminate.
    fold (pget (lxBrand ity p1) "brand"). rewrite lxBrand_brand.
    destruct (is_str "lx-dataset" ity); [done|].
    unfold pget. rewrite (inheritKernelVersion_frame _ _ _ "brand" Hp1)
      by discriminate.
    by rewrite lookup_insert_ne.
  - intros Hp. rewrite Hp3, lxBrand_frame by discriminate.
    rewrite (Hkeep Hp). by rewrite lookup_insert_ne.
  - intros Hp. destruct (Htake Hp) as [Htags Hnone]. split.
    + intros tags kv Hget Hkv. rewrite Hp3, lxBrand_frame by discriminate.
      rewrite (Htags tags kv Hget Hkv). by rewrite lookup_insert_eq.
    + intros Hno. rewrite Hp3, lxBrand_frame by discriminate.
      rewrite (Hnone Hno). rewrite lookup_insert_ne by discriminate.
      by apply phas_false.
  - intros k Hk.
    assert (k ∈ keys ∧ k ≠ "internal_metadata" ∧ k ≠ "payload"
            ∧ k ≠ "uuid" ∧ k ≠ "image"
            ∧ k ∉ [ "archive_on_delete"; "resolvers"; "routes"; "disks";
                    "quota"; "disk_driver"; "nic_driver"; "cpu_type";
                    "flexible_disk_size"; "image_uuid"; "filesystems";
                    "imgapiPeers"; "internal_metadata" ])
      as (Hin & H1 & H2 & H3 & H4 & Hout).
    { repeat (apply elem_of_cons in Hk as [->|Hk];
              [split; [one_of_keys|]; repeat (split; [discriminate|]);
               other_key|]).
      by apply elem_of_nil in Hk. }
    rewrite Hlate by done.
    rewrite copied_lookup;
      [|done|by rewrite lookup_insert_ne, lookup_singleton_ne].
    unfold pget. by rewrite Hp3.
Qed.

(** X12. For a bhyve or kvm job the payload carries [disk_driver],
    [nic_driver] and [cpu_type], and for bhyve [flexible_disk_size], each
    taken from the parameters when truthy there and from the image
    otherwise; [flexible_disk_size] is not passed for kvm; for the other
    brands none of the four is in the payload. *)
Theorem payload_hvm_properties j j' msg :
  preparePayload JSON_parse JSON_stringify j = Done (j', CbOk msg) →
  let brand := pget (params j') "brand" in
  (isHvmBrand brand = true →
     (∀ f, f ∈ otherProps brand →
           ∃ x, get_prop (pget (params j) "image") f = Done x
                ∧ payloadOf j' !! f
                  = Some (if truthy (pget (params j) f)
                          then pget (params j) f else x))
     ∧ (is_str "bhyve" brand = false →
        payloadOf j' !! "flexible_disk_size" = None))
  ∧ (isHvmBrand brand = false →
     ∀ f, f ∈ ["disk_driver"; "nic_driver"; "cpu_type";
               "flexible_disk_size"] →
          payloadOf j' !! f = None).
Proof.
  intros H. apply preparePayload_anatomy in H. cbv zeta in H.
  destruct H as (p1 & ity & want & acc & payload5 & payload7 & p3
                 & Hp1 & Hity & Hp2 & Hp5 & Hnfs & ->).
  cbv zeta. rewrite payloadOf_prepared. cbn [params set_params].
  set (p2 := lxBrand ity p1) in *.
  assert (pget (<["payload" := VObj payload7]> p3) "brand" = pget p2 "brand")
    as ->.
  { unfold pget. rewrite lookup_insert_ne by discriminate.
    by destruct (nfsMetadata_frame _ _ _ _ _ _ _ "brand" Hnfs) as [_ ->]. }
  assert (∀ f, f ∈ ["disk_driver"; "nic_driver"; "cpu_type";
                    "flexible_disk_size"] →
               (f ∉ keys) ∧ (f ∉ ["jobid"; "kernel_version"; "brand"])
               ∧ (f ∉ ["uuid"; "image"; "archive_on_delete"; "resolvers";
                       "routes"; "disks"; "quota"; "image_uuid";
                       "filesystems"; "imgapiPeers"; "internal_metadata"]))
    as Hfour.
  { intros f Hf.
    repeat (apply elem_of_cons in Hf as [->|Hf];
            [split; [other_key|split; other_key]|]).
    by apply elem_of_nil in Hf. }
  assert (∀ f, f ∈ ["disk_driver"; "nic_driver"; "cpu_type";
                    "flexible_disk_size"] →
               payload7 !! f = payload5 !! f) as Hlate.
  { intros f Hf. destruct (Hfour f Hf) as (_ & _ & Hout).
    split_not_among Hout.
    destruct (nfsMetadata_frame _ _ _ _ _ _ _ f Hnfs) as [-> _]; [done|].
    by apply withImgapiPeers_frame. }
  match type of Hp5 with
  | brandFields _ _ ?pl = _ => set (payload4 := pl) in *
  end.
  assert (∀ f, f ∈ ["disk_driver"; "nic_driver"; "cpu_type";
                    "flexible_disk_size"] →
               payload4 !! f = None) as Hnone4.
  { intros f Hf. destruct (Hfour f Hf) as (Hkeys & _ & Hout).
    split_not_among Hout. unfold payload4.
    rewrite withResolversAndRoutes_frame by not_among.
    rewrite lookup_insert_ne by done.
    rewrite copyKeys_skipped by (by left).
    by rewrite lookup_insert_ne, lookup_singleton_ne. }
  clearbody payload4.
  assert (∀ f b, f ∈ otherProps b →
                 f ∈ ["disk_driver"; "nic_driver"; "cpu_type";
                      "flexible_disk_size"]) as Hsub.
  { intros f b Hf.
    destruct (decide (f ∈ ["disk_driver"; "nic_driver"; "cpu_type";
                           "flexible_disk_size"])) as [|Hout]; [done|].
    by apply (otherProps_subset b) in Hout. }
  split.
  - intros Hb. unfold brandFields in Hp5. rewrite Hb in Hp5.
    apply bind_Done in Hp5 as (q & Hq & Hp5). injection Hp5 as <-.
    split.
    + intros f Hf. pose proof (Hsub _ _ Hf) as Hf4.
      destruct (Hfour f Hf4) as (_ & Hparams & Hout). split_not_among Hout.
      rewrite Hlate by done. rewrite lookup_delete_ne by done.
      destruct (addOtherProps_lookup _ _ _ _ _ _ Hq Hf) as (x & Hx & ->).
      assert (pget p2 f = pget (params j) f) as Hpf
        by (unfold pget; by rewrite Hp2).
      rewrite Hpf in Hx.
      destruct (get_prop_readable _ _ _ f Hity) as [x' Hx'].
      exists x'. split; [done|].
      destruct (truthy (pget (params j) f)); congruence.
    + intros Hnb. rewrite Hlate by one_of_keys.
      rewrite lookup_delete_ne by discriminate.
      rewrite (addOtherProps_frame _ _ _ _ _ "flexible_disk_size" Hq).
      * rewrite lookup_insert_ne by discriminate. apply Hnone4. one_of_keys.
      * unfold otherProps. rewrite Hnb. other_key.
  - intros Hb f Hf. destruct (Hfour f Hf) as (_ & _ & Hout).
    split_not_among Hout. rewrite Hlate by done.
    destruct (brandFields_other _ _ _ _ Hb Hp5) as (_ & _ & Hfr).
    rewrite Hfr by not_among. by apply Hnone4.
Qed.

(** The payload before the NFS block. *)
Lemma payload_before_nfs p2 image want acc payload2 payload5 :
  brandFields p2 image (withResolversAndRoutes want acc
                          (<["archive_on_delete" := VBool true]> payload2))
  = Done payload5 →
  withImgapiPeers p2 payload5 !! "internal_metadata"
  = payload2 !! "internal_metadata".
Proof.
  intros Hp5. rewrite withImgapiPeers_frame by discriminate.
  assert (payload5 !! "internal_metadata"
          = withResolversAndRoutes want acc
              (<["archive_on_delete" := VBool true]> payload2)
              !! "internal_metadata") as ->.
  { destruct (isHvmBrand (pget p2 "brand")) eqn:Hb.
    - destruct (brandFields_hvm _ _ _ _ Hb Hp5) as (_ & _ & Hfr).
      apply Hfr. other_key.
    - destruct (brandFields_other _ _ _ _ Hb Hp5) as (_ & _ & Hfr).
      apply Hfr. other_key. }
  rewrite withResolversAndRoutes_frame by other_key.
  by rewrite lookup_insert_ne.
Qed.

(** X13. Without NFS volumes the payload carries the
    [internal_metadata] of the parameters, when they have one.  With NFS
    volumes the [internal_metadata] of the payload is an object that holds
    them under [sdc:volumes] and, for a docker VM, the rewritten volumes
    under [docker:nfsvolumes], beside what the parameters had; when the
    parameters had an [internal_metadata], theirs is the same object and
    shows the new keys too. *)
Theorem payload_nfs_volumes j j' msg :
  preparePayload JSON_parse JSON_stringify j = Done (j', CbOk msg) →
  let nfs := nfsVolumesInternalMetadata j in
  let given := pget (params j) "internal_metadata" in
  (nfs = VUndefined →
     payloadOf j' !! "internal_metadata"
     = (if is_undefined given then None else Some given)
     ∧ params j' !! "internal_metadata" = params j !! "internal_metadata")
  ∧ (nfs ≠ VUndefined →
     ∃ o0 im,
       (if is_undefined given then o0 = ∅ else given = VObj o0)
       ∧ payloadOf j' !! "internal_metadata" = Some (VObj im)
       ∧ im !! "sdc:volumes" = Some nfs
       ∧ (∀ k, k ≠ "sdc:volumes" → k ≠ "docker:nfsvolumes" →
               im !! k = o0 !! k)
       ∧ (if is_true (pget (params j) "docker")
          then ∃ vols vols',
                 JSON_parse (to_string nfs) = inl (VArr vols)
                 ∧ eachVol vols = Done vols'
                 ∧ im !! "docker:nfsvolumes"
                   = Some (VStr (JSON_stringify (VArr vols')))
          else im !! "docker:nfsvolumes" = o0 !! "docker:nfsvolumes")
       ∧ params j' !! "internal_metadata"
         = (if is_undefined given then params j !! "internal_metadata"
            else Some (VObj im))).
Proof.
  intros H. apply preparePayload_anatomy in H. cbv zeta in H.
  destruct H as (p1 & ity & want & acc & payload5 & payload7 & p3
                 & Hp1 & Hity & Hp2 & Hp5 & Hnfs & ->).
  cbv zeta. rewrite payloadOf_prepared. cbn [params set_params].
  rewrite lookup_insert_ne by discriminate.
  set (p2 := lxBrand ity p1) in *.
  pose proof (payload_before_nfs _ _ _ _ _ _ Hp5) as H6.
  rewrite copied_lookup in H6;
    [|one_of_keys|by rewrite lookup_insert_ne, lookup_singleton_ne].
  assert (pget p2 "internal_metadata" = pget (params j) "internal_metadata")
    as Hgiven by (unfold pget; by rewrite Hp2 by other_key).
  assert (pget p2 "docker" = pget (params j) "docker")
    as Hdocker by (unfold pget; by rewrite Hp2 by other_key).
  rewrite Hgiven in H6.
  set (payload6 := withImgapiPeers p2 payload5) in *. clearbody payload6.
  apply nfsMetadata_inv in Hnfs. cbv zeta in Hnfs. rewrite Hdocker in Hnfs.
  destruct Hnfs as [(Hu & -> & ->) |
                    (Hdef & o0 & o2 & Hshared & Hsdc & Hother & Hdock
                     & -> & ->)].
  - split; [|done]. intros _. split; [done|]. apply Hp2. other_key.
  - split; [done|]. intros _. exists o0, o2.
    assert (phas payload6 "internal_metadata"
            = negb (is_undefined (pget (params j) "internal_metadata")))
      as Hphas.
    { destruct (is_undefined (pget (params j) "internal_metadata"));
        [by apply phas_false|]. apply phas_spec. by rewrite H6. }
    rewrite Hphas in *.
    assert (pget payload6 "internal_metadata"
            = if is_undefined (pget (params j) "internal_metadata")
              then VUndefined else pget (params j) "internal_metadata")
      as Hcopy.
    { unfold pget at 1. rewrite H6.
      by destruct (is_undefined (pget (params j) "internal_metadata")). }
    rewrite Hcopy in Hshared.
    destruct (is_undefined (pget (params j) "internal_metadata"));
      cbn [negb] in *.
    + split; [done|]. split; [by rewrite lookup_insert_eq|].
      split; [done|]. split; [done|]. split; [done|].
      apply Hp2. other_key.
    + split; [done|]. split; [by rewrite lookup_insert_eq|].
      split; [done|]. split; [done|]. split; [done|].
      by rewrite lookup_insert_eq.
Qed.

(** The NFS block ends the task with an error only for a docker VM whose
    volumes do not parse or are not an array. *)
Lemma nfsMetadata_error j p payload e :
  nfsMetadata JSON_parse JSON_stringify j p payload = Done (inr e) →
  let nfs := nfsVolumesInternalMetadata j in
  nfs ≠ VUndefined ∧ pget p "docker" = VBool true
  ∧ ((∃ cause, JSON_parse (to_string nfs) = inr cause
               ∧ e = Error ("Could not parse NFS volumes metadata: "
                            +:+ cause))
     ∨ (∃ v, JSON_parse (to_string nfs) = inl v ∧ isArray v = false
             ∧ e = Error "parsed nfsvolumes is not an array")).
Proof.
  unfold nfsMetadata. intros H. cbv zeta.
  destruct (is_undefined (nfsVolumesInternalMetadata j)) eqn:Hu;
    [discriminate|].
  split. { intros Hn. rewrite Hn in Hu. discriminate. }
  apply bind_Done in H as (r & Hr & H).
  destruct r as [im1|e'].
  { apply bind_Done in H as (im2 & _ & H). discriminate. }
  injection H as <-.
  destruct (is_true (pget p "docker")) eqn:Hd; [|discriminate].
  split. { destruct (pget p "docker") as [| |[]| | | |]; by try discriminate. }
  destruct (JSON_parse _) as [v|cause].
  - right. exists v. split; [done|].
    destruct v; try (injection Hr as <-; by split).
    apply bind_Done in Hr as (vols' & _ & Hr).
    apply bind_Done in Hr as (im1 & _ & Hr). discriminate.
  - left. exists cause. injection Hr as <-. by split.
Qed.

(** The parameters [preparePayload] leaves behind, whatever it answers,
    and the error it answers with. *)
Lemma preparePayload_params j j' cb :
  preparePayload JSON_parse JSON_stringify j = Done (j', cb) →
  ∃ p2 p',
    j' = set_params p' j
    ∧ p2 !! "jobid" = Some (uuid j)
    ∧ (∀ k, k ∉ ["jobid"; "kernel_version"; "brand"] →
            p2 !! k = params j !! k)
    ∧ ((∃ e, cb = CbErr e None ∧ p' = p2
             ∧ ∃ payload,
                 nfsMetadata JSON_parse JSON_stringify j p2 payload
                 = Done (inr e))
       ∨ (∃ payload7 p3,
            cb = CbOk "Payload prepared successfully"
            ∧ p' = <["payload" := VObj payload7]> p3
            ∧ ∀ k, k ≠ "internal_metadata" → p3 !! k = p2 !! k)).
Proof.
  intros H. unfold preparePayload in H.
  apply bind_Done in H as (p1 & Hp1 & H).
  apply bind_Done in H as (ity & Hity & H).
  apply bind_Done in H as (want & Hwant & H).
  apply bind_Done in H as (nics & Hnics & H).
  apply bind_Done in H as (acc & Hacc & H).
  apply bind_Done in H as (payload5 & Hp5 & H).
  apply bind_Done in H as (r & Hr & H).
  exists (lxBrand ity p1).
  assert (lxBrand ity p1 !! "jobid" = Some (uuid j)) as Hjobid.
  { rewrite lxBrand_frame by discriminate.
    rewrite (inheritKernelVersion_frame _ _ _ "jobid" Hp1) by discriminate.
    by rewrite lookup_insert_eq. }
  assert (∀ k, k ∉ ["jobid"; "kernel_version"; "brand"] →
               lxBrand ity p1 !! k = params j !! k) as Hp2.
  { intros k Hk. split_not_among Hk. rewrite lxBrand_frame by done.
    rewrite (inheritKernelVersion_frame _ _ _ k Hp1) by done.
    by rewrite lookup_insert_ne. }
  destruct r as [[payload7 p3]|e]; injection H as <- <-.
  - eexists. split; [done|]. split; [done|]. split; [done|].
    right. exists payload7, p3. split; [done|]. split; [done|].
    intros k Hk. by destruct (nfsMetadata_frame _ _ _ _ _ _ _ k Hr Hk).
  - eexists. split; [done|]. split; [done|]. split; [done|].
    left. exists e. split; [done|]. split; [done|]. eauto.
Qed.

(** X14. [preparePayload] answers its callback with an error only for a
    docker VM with NFS volumes whose metadata [JSON.parse] refuses or
    parses to something that is not an array; the job parameters are then
    left without a new payload. *)
Theorem preparePayload_error j j' e m :
  preparePayload JSON_parse JSON_stringify j = Done (j', CbErr e m) →
  let nfs := nfsVolumesInternalMetadata j in
  nfs ≠ VUndefined ∧ pget (params j) "docker" = VBool true ∧ m = None
  ∧ ((∃ cause, JSON_parse (to_string nfs) = inr cause
               ∧ e = Error ("Could not parse NFS volumes metadata: "
                            +:+ cause))
     ∨ (∃ v, JSON_parse (to_string nfs) = inl v ∧ isArray v = false
             ∧ e = Error "parsed nfsvolumes is not an array"))
  ∧ params j' !! "payload" = params j !! "payload".
Proof.
  intros H. apply preparePayload_params in H.
  destruct H as (p2 & p' & -> & _ & Hp2 &
                 [(e' & Hcb & -> & payload & Hnfs)
                 |(? & ? & Hcb & _)]); [|discriminate].
  injection Hcb as <- <-.
  apply nfsMetadata_error in Hnfs. cbv zeta in Hnfs.
  destruct Hnfs as (Hdef & Hdocker & Hcases). cbv zeta.
  split; [done|]. split.
  { rewrite <- Hdocker. unfold pget. by rewrite Hp2 by other_key. }
  split; [done|]. split; [done|]. simpl. apply Hp2. other_key.
Qed.

(** X15. Whatever [preparePayload] answers, it writes the parameters of
    the job and no other field of it, and of the parameters only [jobid]
    (set to the id of the job), [kernel_version], [brand],
    [internal_metadata] and [payload]. *)
Theorem preparePayload_writes j j' cb :
  preparePayload JSON_parse JSON_stringify j = Done (j', cb) →
  j' = set_params (params j') j
  ∧ params j' !! "jobid" = Some (uuid j)
  ∧ ∀ k, k ∉ ["jobid"; "kernel_version"; "brand"; "internal_metadata";
              "payload"] →
         params j' !! k = params j !! k.
Proof.
  intros H. apply preparePayload_params in H.
  destruct H as (p2 & p' & -> & Hjobid & Hp2 &
                 [(e & _ & -> & _)|(payload7 & p3 & _ & -> & Hp3)]);
    cbn [params set_params].
  - split; [done|]. split; [done|].
    intros k Hk. split_not_among Hk. apply Hp2. not_among.
  - split; [done|]. split.
    + rewrite lookup_insert_ne by discriminate.
      by rewrite Hp3 by discriminate.
    + intros k Hk. split_not_among Hk. rewrite lookup_insert_ne by done.
      rewrite Hp3 by done. apply Hp2. not_among.
Qed.

End Payload.

(** The zone of the sample job: alias and ram are not given, the owner's
    NICs are copied. *)
Lemma payload_copies_parameters_witness :
  payloadOf job_zone_prepared !! "uuid" = Some (VStr "vm-1")
  ∧ payloadOf job_zone_prepared !! "nics"
    = Some (VArr [nic_external; nic_internal])
  ∧ payloadOf job_zone_prepared !! "alias" = None.
Proof.
  assert (preparePayload no_parse no_print job_zone
          = Done (job_zone_prepared, CbOk "Payload prepared successfully"))
    as Hrun by (vm_compute; reflexivity).
  destruct (payload_copies_parameters _ _ _ _ _ Hrun)
    as (Huuid & _ & Hcopy & _).
  split; [rewrite Huuid; vm_compute; reflexivity|]. split.
  - rewrite Hcopy; [vm_compute; reflexivity|one_of_keys|other_key].
  - rewrite Hcopy; [vm_compute; reflexivity|one_of_keys|other_key].
Defined.

(** The kvm job with an lx-dataset image leaves [preparePayload] with the
    brand ['lx']. *)
Lemma payload_brand_and_kernel_version_witness :
  pget (params job_kvm_lx_prepared) "brand" = VStr "lx"
  ∧ payloadOf job_kvm_lx_prepared !! "kernel_version" = None.
Proof.
  assert (preparePayload no_parse no_print job_kvm_lx
          = Done (job_kvm_lx_prepared, CbOk "Payload prepared successfully"))
    as Hrun by (vm_compute; reflexivity).
  destruct (payload_brand_and_kernel_version _ _ _ _ _ Hrun)
    as (ity & Hity & Hbrand & _ & _ & Hcopy).
  assert (ity = VStr "lx-dataset") as -> by (vm_compute in Hity; congruence).
  split; [exact Hbrand|].
  rewrite Hcopy by one_of_keys. vm_compute. reflexivity.
Defined.

(** The kvm job: no [flexible_disk_size] in the payload. *)
Lemma payload_hvm_properties_witness :
  payloadOf job_kvm_prepared !! "flexible_disk_size" = None.
Proof.
  assert (preparePayload no_parse no_print job_kvm
          = Done (job_kvm_prepared, CbOk "Payload prepared successfully"))
    as Hrun by (vm_compute; reflexivity).
  destruct (payload_hvm_properties _ _ _ _ _ Hrun) as [Hhvm _].
  destruct Hhvm as [_ Hflex]; [vm_compute; reflexivity|].
  apply Hflex. vm_compute. reflexivity.
Defined.

(** The zone with an NFS volume: the payload gets an [internal_metadata]
    with [sdc:volumes], the parameters, which had none, get none. *)
Lemma payload_nfs_volumes_witness :
  ∃ j' im,
    preparePayload no_parse no_print job_zone_nfs
    = Done (j', CbOk "Payload prepared successfully")
    ∧ payloadOf j' !! "internal_metadata" = Some (VObj im)
    ∧ im !! "sdc:volumes" = Some (VStr "[{'name':'v1','mode':'ro'}]")
    ∧ params j' !! "internal_metadata" = None.
Proof.
  assert (∃ j', preparePayload no_parse no_print job_zone_nfs
                = Done (j', CbOk "Payload prepared successfully"))
    as [j' Hrun] by (eexists; vm_compute; reflexivity).
  destruct (payload_nfs_volumes _ _ _ _ _ Hrun) as [_ Hnfs].
  destruct Hnfs as (o0 & im & _ & Hpayload & Hsdc & _ & _ & Hparams);
    [discriminate|].
  exists j', im. split; [exact Hrun|]. split; [exact Hpayload|].
  split; [exact Hsdc|]. rewrite Hparams. vm_compute. reflexivity.
Defined.

(** The docker VM whose volumes do not parse: the task answers with the
    error and sets no payload. *)
Lemma preparePayload_error_witness :
  ∃ j', preparePayload no_parse no_print job_docker_nfs
        = Done (j', CbErr (Error ("Could not parse NFS volumes metadata: "
                                  +:+ "Unexpected token")) None)
        ∧ params j' !! "payload" = None.
Proof.
  assert (∃ j', preparePayload no_parse no_print job_docker_nfs
                = Done (j', CbErr (Error ("Could not parse NFS volumes "
                                          +:+ "metadata: Unexpected token"))
                              None))
    as [j' Hrun] by (eexists; vm_compute; reflexivity).
  exists j'. split; [exact Hrun|].
  destruct (preparePayload_error _ _ _ _ _ _ Hrun) as (_ & _ & _ & _ & Hp).
  rewrite Hp. vm_compute. reflexivity.
Defined.

Lemma preparePayload_writes_witness :
  params job_zone_prepared !! "jobid" = Some (VStr "job-1")
  ∧ params job_zone_prepared !! "image_uuid" = Some (VStr "img-2").
Proof.
  assert (preparePayload no_parse no_print job_zone
          = Done (job_zone_prepared, CbOk "Payload prepared successfully"))
    as Hrun by (vm_compute; reflexivity).
  destruct (preparePayload_writes _ _ _ _ _ Hrun) as (_ & Hjobid & Hframe).
  split; [exact Hjobid|]. rewrite Hframe by other_key.
  vm_compute. reflexivity.
Defined.

(** One read-only volume. *)
Lemma eachVol_rewrites_mode_witness :
  Forall2 (λ v v', ∃ o o', v = VObj o ∧ v' = VObj o'
             ∧ o' !! "mode" = None
             ∧ o' !! "readonly" = Some (VBool (is_str "ro" (pget o "mode")))
             ∧ ∀ k, k ≠ "mode" → k ≠ "readonly" → o' !! k = o !! k)
    [VObj {[ "name" := VStr "v1"; "mode" := VStr "ro" ]}]
    [VObj {[ "name" := VStr "v1"; "readonly" := VBool true ]}].
Proof.
  apply eachVol_rewrites_mode. vm_compute. reflexivity.
Defined.

End PayloadMore.

(** *** The pipelines: order of the tickets, error and cancel branches *)

Module PipelineMore.
Import JS Job Workflow Coordination Stated Samples JSFacts PipelineFacts.

Lemma releases_ticket_spec k ts :
  releases_ticket k ts = true ↔ ∃ t, t ∈ ts ∧ releases t = Some k.
Proof.
  unfold releases_ticket. rewrite existsb_exists. split.
  - intros (t & Hin & Ht). exists t. split; [by apply list_elem_of_In|].
    by apply bool_decide_eq_true in Ht.
  - intros (t & Hin & Ht). exists t. split; [by apply list_elem_of_In|].
    by apply bool_decide_eq_true.
Qed.

Lemma released_later_spec c : ∀ pre i post k,
  released_later c = true →
  c = (pre ++ i :: post)%list → acquires i = Some k →
  releases_ticket k (chain_tasks post) = true.
Proof.
  induction c as [|a c IH]; intros pre i post k H Hc Hk.
  - by destruct pre.
  - simpl in H. apply andb_prop in H as [Hhead Hrest].
    destruct pre as [|b pre]; simpl in Hc; injection Hc as -> ->.
    + by rewrite Hk in Hhead.
    + by eapply IH.
Qed.

(** X17. In each of the five pipelines, wherever the chain takes a
    waitlist ticket (the per-VM, the allocation or the fabric-NAT one), a
    task that releases that ticket comes later in the same chain: a job
    that runs its chain to the end holds no ticket. *)
Theorem acquired_tickets_released_later w pre i post k :
  w ∈ pipelines →
  chain w = (pre ++ i :: post)%list → acquires i = Some k →
  ∃ t, t ∈ chain_tasks post ∧ releases t = Some k.
Proof.
  intros Hw Hc Hk. apply releases_ticket_spec.
  eapply released_later_spec; [|exact Hc|exact Hk].
  clear Hc. pattern w. revert w Hw.
  apply pipelines_cases; vm_compute; reflexivity.
Qed.

(** The add-nics chain takes the per-VM ticket at its fifth element and
    releases it at its last but one. *)
Lemma acquired_tickets_released_later_witness :
  ∃ t, t ∈ chain_tasks (drop 5 (chain add_nics)) ∧ releases t = Some VmTicket.
Proof.
  apply (acquired_tickets_released_later add_nics (take 4 (chain add_nics))
           (One (Task "cnapi.acquire_vm_ticket" (Some 10) (Some 1)
                   (Imported job_common "acquireVMTicket")
                   (Some [("sdcClients", "sdc-clients")])))).
  - unfold pipelines. apply elem_of_cons. right. apply elem_of_cons. left.
    reflexivity.
  - reflexivity.
  - reflexivity.
Defined.

(** X18. The migration pipelines handle an error and a cancellation
    alike: [onerror] and [oncancel] run the same functions in the same
    order.  The provision and add-nics pipelines do not: their [onerror]
    starts with the NIC cleanup and ends with the task that fails the job,
    and it is the only place of either: their [oncancel] and their chain
    have no NIC cleanup and no task that always fails, and [onerror] has no
    other of the two. *)
Theorem error_and_cancel_branches :
  Forall (λ w, handling <$> onerror w = handling <$> oncancel w)
    [migrate_begin; migrate_sync; migrate_switch]
  ∧ Forall (λ w, (is_cleanup_nics <$> head (onerror w)) = Some true
                 ∧ (always_fails <$> last (onerror w)) = Some true
                 ∧ length (List.filter is_cleanup_nics (onerror w)) = 1%nat
                 ∧ length (List.filter always_fails (onerror w)) = 1%nat
                 ∧ existsb is_cleanup_nics (oncancel w) = false
                 ∧ existsb always_fails (oncancel w) = false
                 ∧ existsb is_cleanup_nics (chain_tasks (chain w)) = false
                 ∧ existsb always_fails (chain_tasks (chain w)) = false)
      [provision; add_nics].
Proof. split; repeat constructor. Qed.

(** X19. Every task literal of a chain has a timeout of its own, which
    is positive and at most the timeout of its workflow. *)
Theorem task_timeouts_within_workflow w t n b :
  w ∈ pipelines → t ∈ chain_tasks (chain w) →
  (task_body t = Some b → is_Some (task_timeout t))
  ∧ (task_timeout t = Some n → 0 < n ≤ timeout w).
Proof.
  intros Hw Ht.
  assert (forallb (λ t, match task_timeout t with
                        | Some n => (0 <? n) && (n <=? timeout w)
                        | None => bool_decide (task_body t = None)
                        end)
                  (chain_tasks (chain w)) = true) as Hall.
  { clear Ht. pattern w. revert w Hw.
    apply pipelines_cases; vm_compute; reflexivity. }
  rewrite forallb_forall in Hall.
  apply list_elem_of_In, Hall in Ht.
  destruct (task_timeout t) as [m|].
  - split; [eauto|]. intros [= <-].
    apply andb_prop in Ht as [H1 H2]. lia.
  - apply bool_decide_eq_true in Ht. split; [congruence|discriminate].
Qed.

Lemma task_timeouts_within_workflow_witness :
  0 < 3600 ≤ timeout provision.
Proof.
  refine (proj2 (task_timeouts_within_workflow provision
                   (Task "cnapi.wait_task" (Some 3600) (Some 1)
                      (Imported job_common "waitTask")
                      (Some [("sdcClients", "sdc-clients")]))
                   3600 (Imported job_common "waitTask") _ _) _).
  - unfold pipelines. apply elem_of_cons. left. reflexivity.
  - apply (bool_decide_unpack _). vm_compute. exact I.
  - reflexivity.
Defined.

End PipelineMore.

(** *** lib/errors.js: failures, names, elements of [errors] *)

Module ErrorMore.
Import JS Errors Stated Samples JSFacts ErrorFacts.

Lemma bind_Fails {A B} (m : outcome A) (k : A → outcome B) f :
  (m ≫= k) = Fails f → m = Fails f ∨ ∃ a, m = Done a ∧ k a = Fails f.
Proof. destruct m as [a|e]; simpl; [eauto|]. intros [= <-]. by left. Qed.

(** What fails is an assertion. *)
Abbreviation by_assertion f := (∃ what, f = AssertionError what).

Lemma assert_string_Fails v what f :
  assert_string v what = Fails f → by_assertion f.
Proof. destruct v; simpl; intros; simplify_eq; by eexists. Qed.

Lemma assert_number_Fails v what f :
  assert_number v what = Fails f → by_assertion f.
Proof. destruct v; simpl; intros; simplify_eq; by eexists. Qed.

Lemma assert_optionalNumber_Fails v what f :
  assert_optionalNumber v what = Fails f → by_assertion f.
Proof. destruct v; simpl; intros; simplify_eq; by eexists. Qed.

Lemma assert_optionalObject_Fails v what f :
  assert_optionalObject v what = Fails f → by_assertion f.
Proof. destruct v; simpl; intros; simplify_eq; by eexists. Qed.

Lemma assert_arrayOfObject_Fails v what f :
  assert_arrayOfObject v what = Fails f → by_assertion f.
Proof.
  destruct v; simpl; intros; simplify_eq; try by eexists.
  destruct (forallb is_object items); simplify_eq. by eexists.
Qed.

Lemma assert_arrayOfString_Fails v what f :
  assert_arrayOfString v what = Fails f → by_assertion f.
Proof.
  destruct v; simpl; intros; simplify_eq; try by eexists.
  destruct (mapM _ items); simplify_eq. by eexists.
Qed.

(** Taking a failing outcome apart, down to the assertion that failed. *)
Ltac failed_assertion H :=
  repeat match type of H with
         | (_ ≫= _) = Fails _ =>
             let Hm := fresh "Hm" in
             apply bind_Fails in H as [Hm | (? & _ & H)];
             [first [ by eapply assert_string_Fails
                    | by eapply assert_number_Fails
                    | by eapply assert_optionalNumber_Fails
                    | by eapply assert_optionalObject_Fails
                    | by eapply assert_arrayOfObject_Fails
                    | by eapply assert_arrayOfString_Fails ] |]
         end;
  try discriminate.

(** X20. A constructor of [lib/errors.js] throws only through one of its
    assertions on the arguments: whatever it is given, it throws an
    [AssertionError] or builds the error. *)
Theorem construct_fails_by_assertion c f :
  construct c = Fails f → ∃ what, f = AssertionError what.
Proof.
  intros H. change (by_assertion f).
  destruct c; simpl in H;
    unfold UnallocatedVMError, VmNotRunningError, VmNotStoppedError,
      VmWithoutFlexibleDiskSizeError, InsufficientDiskSpaceError,
      BrandNotSupportedError, ValidationFailedError,
      MorayBucketsNotSetupError, DataVersionError, VolumesNotReachableError,
      InvalidIndexesRemovalError, InvalidDataMigrationFileNamesError,
      VolumeNotReachableError in H;
    failed_assertion H.
Qed.

Lemma construct_fails_by_assertion_witness :
  ∃ what, AssertionError "message (string) is required" = AssertionError what.
Proof.
  apply (construct_fails_by_assertion (NewUnallocatedVMError VUndefined)).
  reflexivity.
Defined.

(** X21. Every error a constructor builds with a body is a REST error
    named after its code, [<code>Error], with status 409 or 503, and its
    body repeats the code and the message; the errors built without a body
    have no status. *)
Theorem rest_errors_named_after_code c e :
  construct c = Done e →
  (∀ b, body e = Some b →
        ∃ code status,
          b !! "code" = Some (VStr code)
          ∧ name e = code +:+ "Error"
          ∧ b !! "message" = Some (message e)
          ∧ statusCode e = Some status ∧ (status = 409 ∨ status = 503))
  ∧ (body e = None → statusCode e = None).
Proof.
  intros H.
  destruct c; simpl in H;
    unfold UnallocatedVMError, VmNotRunningError, VmNotStoppedError,
      VmWithoutFlexibleDiskSizeError, InsufficientDiskSpaceError,
      BrandNotSupportedError, ValidationFailedError,
      MorayBucketsNotSetupError, DataVersionError, VolumesNotReachableError,
      InvalidIndexesRemovalError, InvalidDataMigrationFileNamesError,
      VolumeNotReachableError in H;
    invert_construct H; cbn [body statusCode name message restError
                             restErrorWithErrors];
    (split; [|done]); intros b Hb; simplify_eq;
    eexists _, _;
    (split; [by rewrite ?lookup_insert_ne, ?lookup_insert_eq,
                        ?lookup_singleton_eq by discriminate|]);
    (split; [reflexivity|]);
    (split; [by repeat first [rewrite lookup_insert_eq
                             |rewrite lookup_singleton_eq
                             |rewrite lookup_insert_ne by discriminate]|]);
    (split; [reflexivity|]); auto.
Qed.

Lemma rest_errors_named_after_code_witness :
  ∃ code status,
    ({[ "code" := VStr "VolumesNotReachable";
        "message" := VStr "Volumes not reachable from VM";
        "errors" := VArr [] ]} : gmap string value) !! "code"
    = Some (VStr code)
    ∧ "VolumesNotReachableError" = code +:+ "Error"
    ∧ ({[ "code" := VStr "VolumesNotReachable";
          "message" := VStr "Volumes not reachable from VM";
          "errors" := VArr [] ]} : gmap string value) !! "message"
      = Some (VStr "Volumes not reachable from VM")
    ∧ Some 409 = Some status ∧ (status = 409 ∨ status = 503).
Proof.
  apply (proj1 (rest_errors_named_after_code
                  (NewVolumesNotReachableError (VArr []))
                  (restErrorWithErrors "VolumesNotReachableError"
                     "VolumesNotReachable" 409
                     "Volumes not reachable from VM" [])
                  eq_refl)).
  reflexivity.
Defined.

(** Reading a property of an object literal. *)
Ltac read_literal :=
  repeat first [ rewrite lookup_insert_eq
               | rewrite lookup_singleton_eq
               | rewrite lookup_insert_ne by discriminate
               | rewrite lookup_singleton_ne by discriminate ].

Lemma build_code b o :
  build b = Done o →
  o !! "code" = Some (VStr (builder_code b))
  ∧ (∀ m, o !! "message" = Some m → truthy m = true)
  ∧ ∀ k, is_Some (o !! k) → k ∈ ["field"; "fields"; "code"; "message"].
Proof.
  intros H.
  assert (∀ a d, d ≠ "" → truthy (or_else a (VStr d)) = true) as Hor.
  { intros a d Hd. unfold or_else. destruct (truthy a) eqn:E; [done|].
    simpl. by destruct d. }
  destruct b as [fd m|fd m|fd m|fd m|fd m|fds m]; simpl in H;
    unfold invalidUuidErrorsElem, invalidParamErrorsElem,
      insufficientCapacityErrorsElem, duplicateParamErrorsElem,
      missingParamErrorsElem, conflictingParamsErrorsElem in H;
    invert_construct H;
    [ | | | | destruct (truthy m) eqn:E | destruct (truthy m) eqn:E ];
    (split; [by read_literal|]);
    (split; [intros m'; read_literal; intros [= <-]; by (apply Hor || idtac)|]);
    intros k [val Hval];
    (destruct (decide (k ∈ ["field"; "fields"; "code"; "message"]))
       as [|Hk]; [done|]);
    exfalso; repeat (apply not_elem_of_cons in Hk as [? Hk]);
    revert Hval;
    by rewrite ?lookup_insert_ne, ?lookup_singleton_ne by done.
Qed.

(** X22. An element of [errors] made by one of the six builders carries
    the code of its builder, a message only if it is truthy, and no key
    other than [field], [fields], [code] and [message]; and an array of
    such elements is what [ValidationFailedError] accepts: the error has
    status 409 and its body carries the elements as they were given, in
    their order. *)
Theorem built_elements_accepted bs os msg :
  Forall2 (λ b o, build b = Done o) bs os →
  Forall2 (λ b o, o !! "code" = Some (VStr (builder_code b))
                  ∧ (∀ m, o !! "message" = Some m → truthy m = true)
                  ∧ ∀ k, is_Some (o !! k) →
                         k ∈ ["field"; "fields"; "code"; "message"]) bs os
  ∧ ∃ e b, ValidationFailedError (VStr msg) (VArr (VObj <$> os)) = Done e
           ∧ statusCode e = Some 409
           ∧ body e = Some b
           ∧ b !! "errors" = Some (VArr (VObj <$> os)).
Proof.
  intros H. split.
  - eapply Forall2_impl; [exact H|]. intros b o. apply build_code.
  - unfold ValidationFailedError. cbn [assert_string mbind outcome_bind].
    unfold assert_arrayOfObject.
    assert (forallb is_object (VObj <$> os) = true) as ->.
    { clear H. induction os as [|o os IH]; [reflexivity|]. exact IH. }
    cbn [mbind outcome_bind].
    eexists _, _. split; [reflexivity|]. split; [reflexivity|].
    split; [reflexivity|]. by read_literal.
Qed.

Lemma built_elements_accepted_witness :
  ∃ e b,
    ValidationFailedError (VStr "Invalid VM parameters")
      (VArr (VObj <$> [ {[ "field" := VStr "ram";
                           "code" := VStr "MissingParameter" ]} ]))
    = Done e
    ∧ statusCode e = Some 409
    ∧ body e = Some b
    ∧ b !! "errors"
      = Some (VArr (VObj <$> [ {[ "field" := VStr "ram";
                                  "code" := VStr "MissingParameter" ]} ])).
Proof.
  apply (built_elements_accepted [MissingParam (VStr "ram") VUndefined]).
  repeat constructor.
Defined.

Section Wrapped.
Variable E : Type.
Variable RestError : erropts → E.

(** X23. [wfapiWrap] builds its error whenever it is given options whose
    [error] is neither [undefined] nor [null], and throws otherwise:
    [error.name] is read even when the options carry the REST code and
    the status. *)
Theorem wfapiWrap_returns_iff opts :
  (∃ e, wfapiWrap E RestError opts = Done e)
  ↔ ∃ err, get_prop opts "error" = Done err
           ∧ err ≠ VUndefined ∧ err ≠ VNull.
Proof.
  unfold wfapiWrap. split.
  - intros [e H]. apply bind_Done in H as (err & Herr & H).
    exists err. split; [done|].
    apply bind_Done in H as (orc & _ & H).
    apply bind_Done in H as (rc & _ & H).
    apply bind_Done in H as (osc & _ & H).
    apply bind_Done in H as (sc & _ & H).
    apply bind_Done in H as (om & _ & H).
    apply bind_Done in H as (ename & Hname & H).
    split; intros ->; discriminate.
  - intros (err & Herr & H1 & H2). rewrite Herr. cbn [mbind outcome_bind].
    destruct opts; try discriminate; cbn [get_prop mbind outcome_bind];
      destruct err; try done; cbn [get_prop mbind outcome_bind];
      repeat (match goal with
              | |- context [if ?b then _ else _] => destruct b
              end; cbn [get_prop mbind outcome_bind]);
      eauto.
Qed.

(** X24. The error [wfapiWrap] returns is the one [restify.RestError]
    builds from the options [erropts], with a name set on it that is
    always truthy (['WfapiError'] when the wrapped error has none).  The
    message of the options is always truthy (['Unknown Error'] when the
    caller gives none); their REST code and status, which are also set on
    the constructor of the error, are those the caller gives when truthy
    and those of the wrapped error otherwise, whatever these are: where
    they are falsy, what the error carries is restify's choice. *)
Theorem wfapiWrap_fields opts e err orc osc :
  wfapiWrap E RestError opts = Done e →
  get_prop opts "error" = Done err →
  get_prop opts "restCode" = Done orc →
  get_prop opts "statusCode" = Done osc →
  truthy (wf_name e) = true
  ∧ ∃ options,
      wf_built e = RestError options
      ∧ truthy (opt_message options) = true
      ∧ opt_restCode options = wf_restCode e
      ∧ opt_statusCode options = wf_statusCode e
      ∧ (if truthy orc then wf_restCode e = orc
         else get_prop err "restCode" = Done (wf_restCode e))
      ∧ (if truthy osc then wf_statusCode e = osc
         else get_prop err "statusCode" = Done (wf_statusCode e)).
Proof.
  unfold wfapiWrap. intros H Herr Horc Hosc.
  rewrite Herr in H. cbn [mbind outcome_bind] in H.
  rewrite Horc in H. cbn [mbind outcome_bind] in H.
  apply bind_Done in H as (rc & Hrc & H).
  rewrite Hosc in H. cbn [mbind outcome_bind] in H.
  apply bind_Done in H as (sc & Hsc & H).
  apply bind_Done in H as (om & _ & H).
  apply bind_Done in H as (ename & _ & H). injection H as <-.
  cbn [wf_built wf_name wf_restCode wf_statusCode].
  assert (∀ a d, d ≠ "" → truthy (or_else a (VStr d)) = true) as Hor.
  { intros a d Hd. unfold or_else. destruct (truthy a) eqn:Ha; [done|].
    simpl. by destruct d. }
  split; [by apply Hor|].
  eexists. split; [reflexivity|].
  cbn [opt_message opt_restCode opt_statusCode].
  split; [by apply Hor|]. split; [done|]. split; [done|].
  split.
  - destruct (truthy orc); [by injection Hrc|done].
  - destruct (truthy osc); [by injection Hsc|done].
Qed.

End Wrapped.

(** A failed job wrapped without options of the caller: the REST code of
    the wrapped error is handed to restify, there is no status to hand on,
    and the error is named ['WfapiError']. *)
Lemma wfapiWrap_fields_witness :
  ∃ e : workflow_error erropts,
    wfapiWrap erropts (λ options, options)
      (VObj {[ "error" := VObj {[ "restCode" := VStr "JobFailed" ]} ]})
    = Done e
    ∧ truthy (wf_name e) = true
    ∧ truthy (opt_message (wf_built e)) = true
    ∧ opt_restCode (wf_built e) = VStr "JobFailed"
    ∧ opt_statusCode (wf_built e) = VUndefined.
Proof.
  assert (∃ e : workflow_error erropts,
            wfapiWrap erropts (λ options, options)
              (VObj {[ "error" := VObj {[ "restCode" := VStr "JobFailed" ]} ]})
            = Done e) as [e Hrun] by (eexists; vm_compute; reflexivity).
  exists e. split; [exact Hrun|].
  destruct (wfapiWrap_fields erropts (λ options, options) _ e
              (VObj {[ "restCode" := VStr "JobFailed" ]}) VUndefined
              VUndefined Hrun)
    as (Hname & options & Hbuilt & Hmessage & Hrc & Hsc & Hrest & Hstatus);
    [vm_compute; reflexivity..|].
  cbv beta in Hbuilt. subst options.
  split; [exact Hname|]. split; [exact Hmessage|].
  cbn [truthy] in Hrest, Hstatus.
  assert (get_prop (VObj {[ "restCode" := VStr "JobFailed" ]}) "restCode"
          = Done (VStr "JobFailed")) as Hr by (vm_compute; reflexivity).
  assert (get_prop (VObj {[ "restCode" := VStr "JobFailed" ]}) "statusCode"
          = Done VUndefined) as Hs by (vm_compute; reflexivity).
  rewrite Hr in Hrest. rewrite Hs in Hstatus.
  split; congruence.
Defined.

End ErrorMore.

(** *** The VM endpoints: answers, jobs, reconciliation *)

Module EndpointMore.
Import JS Endpoints Stated Samples JSFacts EndpointFacts.

Lemma responses_app l1 l2 :
  responses (l1 ++ l2) = (responses l1 + responses l2)%nat.
Proof. unfold responses. by rewrite omap_app, length_app. Qed.

Lemma marked_destroyed_app l1 l2 :
  marked_destroyed (l1 ++ l2)
  = (marked_destroyed l1 ++ marked_destroyed l2)%list.
Proof. unfold marked_destroyed. by rewrite omap_app. Qed.

(** The handlers after [hs1] run when [hs1] ended with [next()], and only
    then. *)
Lemma runChain_app hs1 hs2 req log :
  runChain (hs1 ++ hs2) req log
  = r ← runChain hs1 req log;
    match r with
    | (req', log', Next) => runChain hs2 req' log'
    | _ => Done r
    end.
Proof.
  revert req log. induction hs1 as [|h hs1 IH]; intros req log; [done|].
  simpl. destruct (h req log) as [[[req' log'] k]|f]; simpl; [|done].
  destruct k; [apply IH|done..].
Qed.

Section Routes.
Variable c : collaborators.

Lemma jobCreated_inv reply req log req' log' k :
  jobCreated reply req log = Done (req', log', k) →
  log' = log
  ∧ ((truthy reply.1 = true ∧ req' = req ∧ k = NextErr (Upstream reply.1))
     ∨ (truthy reply.1 = false ∧ req' = set_juuid reply.2 req ∧ k = Next)).
Proof.
  unfold jobCreated. destruct (truthy reply.1); intros [= <- <- <-]; auto.
Qed.

(** What [updateVm] does, case by case. *)
Lemma updateVm_inv req log req' log' k :
  updateVm c req log = Done (req', log', k) →
  log' = log
  ∧ ((req' = req
      ∧ ((truthy (pget (params req) "action") = false
          ∧ k = NextErr (MissingParameterError "action is required"))
         ∨ (truthy (pget (params req) "action") = true
            ∧ validAction (pget (params req) "action") = false
            ∧ k = NextErr
                    (InvalidArgumentError
                       (to_string (pget (params req) "action")
                        +:+ " is not a valid action")))
         ∨ (validAction (pget (params req) "action") = true
            ∧ ∃ err, k = NextErr (Upstream err))))
     ∨ (validAction (pget (params req) "action") = true
        ∧ k = Next
        ∧ ∃ reply : value * value,
            truthy reply.1 = false ∧ req' = set_juuid reply.2 req
            ∧ (reply = wfapi_createStartJob c req
               ∨ reply = wfapi_createStopJob c req
               ∨ reply = wfapi_createRebootJob c req
               ∨ ∃ p, common_validateUpdate c (params req) = inr p
                      ∧ reply = wfapi_createUpdateJob c req p))).
Proof.
  intros H.
  match goal with |- ?G => 
    assert (∀ reply : value * value,
              jobCreated reply req log = Done (req', log', k) →
              validAction (pget (params req) "action") = true →
              (reply = wfapi_createStartJob c req
               ∨ reply = wfapi_createStopJob c req
               ∨ reply = wfapi_createRebootJob c req
               ∨ ∃ p, common_validateUpdate c (params req) = inr p
                      ∧ reply = wfapi_createUpdateJob c req p) → G) as Hjob
  end.
  { intros reply Hr Hv Hwhich. apply jobCreated_inv in Hr as [-> Hr].
    split; [done|]. destruct Hr as [(? & -> & ->)|(? & -> & ->)].
    - left. split; [done|]. right. right. split; [done|]. by eexists.
    - right. split; [done|]. split; [done|]. by exists reply. }
  unfold updateVm in H.
  destruct (truthy (pget (params req) "action")) eqn:Ht; cbn [negb] in H.
  2: { injection H as <- <- <-. split; [done|]. left. split; [done|]. auto. }
  destruct (validAction (pget (params req) "action")) eqn:Hv; cbn [negb] in H.
  2: { injection H as <- <- <-. split; [done|]. left. split; [done|].
       right. left. done. }
  destruct (is_str "start" _); [apply (Hjob _ H); auto|].
  destruct (is_str "stop" _); [apply (Hjob _ H); auto|].
  destruct (is_str "reboot" _); [apply (Hjob _ H); auto|].
  destruct (is_str "update" _); [|discriminate].
  unfold changeVm in H.
  destruct (common_validateUpdate c (params req)) as [e|p] eqn:Hp.
  - injection H as <- <- <-. split; [done|]. left. split; [done|].
    right. right. split; [done|]. by exists e.
  - apply (Hjob _ H); [done|]. right. right. right. by exists p.
Qed.

Lemma streamResponse_inv req log req' log' k :
  streamResponse c req log = Done (req', log', k) →
  req' = req ∧ k ≠ NoNext
  ∧ (∀ e, k = NextErr e → wantsSync req = true)
  ∧ ∃ evs, log' = (log ++ evs)%list ∧ responses evs = 1%nat
           ∧ marked_destroyed evs = [].
Proof.
  unfold streamResponse. intros H. destruct (wantsSync req).
  - destruct (truthy (wfapi_pipeJob c (juuid req))).
    + injection H as <- <- <-. split; [done|]. split; [done|].
      split; [done|]. by eexists.
    + injection H as <- <- <-. split; [done|]. split; [done|].
      split; [done|]. rewrite <- app_assoc. by eexists.
  - apply bind_Done in H as (uuid & _ & H). injection H as <- <- <-.
    split; [done|]. split; [done|]. split; [done|]. by eexists.
Qed.

(** X25. A route answers exactly once when its handlers run to the end.
    When a handler ends with [next(err)] nothing was written, except that
    with [sync=true] the head of the answer is out already when piping the
    job fails. *)
Theorem route_answers_once r req req' log' k :
  runChain (mount c [] r) req [] = Done (req', log', k) →
  match k with
  | NextErr _ =>
      responses log' = 0%nat
      ∨ (wantsSync req = true ∧ responses log' = 1%nat
         ∧ r ∈ [DeleteVm; UpdateVm])
  | _ => responses log' = 1%nat
  end.
Proof.
  destruct r; cbn [mount app runChain]; intros H.
  - (* ListVms *)
    apply bind_Done in H as ([[req1 log1] k1] & Hh & H). unfold listVms in Hh.
    destruct (truthy _); injection Hh as <- <- <-; injection H as <- <- <-;
      cbn; auto.
  - (* CreateVm *)
    apply bind_Done in H as ([[req1 log1] k1] & Hh & H).
    unfold createVm in Hh.
    destruct (truthy (common_validateVm c (params req))).
    { injection Hh as <- <- <-. injection H as <- <- <-. by left. }
    destruct (wfapi_createProvisionJob c _) as [[err vmuuid] juuid].
    destruct (truthy err).
    { injection Hh as <- <- <-. injection H as <- <- <-. by left. }
    apply bind_Done in Hh as (uuid & _ & Hh). injection Hh as <- <- <-.
    injection H as <- <- <-. reflexivity.
  - (* GetVm *)
    apply bind_Done in H as ([[req1 log1] k1] & Hh & H). unfold getVm in Hh.
    apply bind_Done in Hh as (server & _ & Hh).
    destruct (truthy server && wantsSync req)%bool.
    + apply bind_Done in Hh as (uuid & _ & Hh).
      destruct (truthy (cnapi_getVm c server uuid).1).
      { injection Hh as <- <- <-. injection H as <- <- <-. by left. }
      destruct (truthy (cnapi_getVm c server uuid).2).
      * apply bind_Done in Hh as (key & _ & Hh). injection Hh as <- <- <-.
        injection H as <- <- <-. reflexivity.
      * injection Hh as <- <- <-. injection H as <- <- <-. reflexivity.
    + injection Hh as <- <- <-. injection H as <- <- <-. reflexivity.
  - (* DeleteVm *)
    apply bind_Done in H as ([[req1 log1] k1] & Hh & H).
    apply jobCreated_inv in Hh as [-> [(_ & -> & ->)|(_ & -> & ->)]].
    { injection H as <- <- <-. by left. }
    cbn [runChain] in H.
    apply bind_Done in H as ([[req2 log2] k2] & Hs & H).
    apply streamResponse_inv in Hs
      as (-> & Hnn & Hsync & evs & -> & Hone & _).
    destruct k2; [|injection H as <- <- <-|done].
    + apply bind_Done in H as ([[req3 log3] k3] & Hm & H).
      injection Hm as <- <- <-. injection H as <- <- <-.
      rewrite !responses_app. rewrite Hone. reflexivity.
    + right. split; [by eapply Hsync|]. split; [done|].
      apply elem_of_cons. by left.
  - (* UpdateVm *)
    apply bind_Done in H as ([[req1 log1] k1] & Hh & H).
    apply updateVm_inv in Hh as [-> Hh].
    destruct Hh as [(-> & [(_ & ->)|[(_ & _ & ->)|(_ & err & ->)]])
                   |(_ & -> & reply & _ & -> & _)];
      try (injection H as <- <- <-; by left).
    cbn [runChain] in H.
    apply bind_Done in H as ([[req2 log2] k2] & Hs & H).
    apply streamResponse_inv in Hs
      as (-> & Hnn & Hsync & evs & -> & Hone & _).
    destruct k2; [|injection H as <- <- <-|done].
    + injection H as <- <- <-. done.
    + right. split; [by eapply Hsync|]. split; [done|].
      apply elem_of_cons. right. apply elem_of_cons. by left.
Qed.

(** X26. [DELETE /vms/:uuid] asks UFDS to mark the VM as destroyed
    exactly when the destroy job was created and the answer was written,
    and it does so without waiting for the job when [sync] is not asked
    for; the route never ends with [next()]. *)
Theorem delete_marks_destroyed req req' log' k :
  runChain (mount c [] DeleteVm) req [] = Done (req', log', k) →
  k ≠ Next
  ∧ (k = NoNext → marked_destroyed log' = [vm req]
                  ∧ responses log' = 1%nat
                  ∧ truthy (wfapi_createDestroyJob c req).1 = false
                  ∧ juuid req' = (wfapi_createDestroyJob c req).2)
  ∧ (∀ e, k = NextErr e → marked_destroyed log' = []).
Proof.
  cbn [mount app runChain]. intros H.
  apply bind_Done in H as ([[req1 log1] k1] & Hh & H).
  apply jobCreated_inv in Hh as [-> [(_ & -> & ->)|(Hok & -> & ->)]].
  { injection H as <- <- <-. done. }
  cbn [runChain] in H.
  apply bind_Done in H as ([[req2 log2] k2] & Hs & H).
  apply streamResponse_inv in Hs as (-> & Hnn & Hsync & evs & -> & Hone & Hm).
  destruct k2; [|injection H as <- <- <-|done].
  - apply bind_Done in H as ([[req3 log3] k3] & Hd & H).
    injection Hd as <- <- <-. injection H as <- <- <-.
    split; [done|]. split; [|done]. intros _.
    rewrite !marked_destroyed_app, !responses_app, Hm, Hone. done.
  - split; [done|]. split; [done|]. intros _ _. exact Hm.
Qed.

(** X27. [updateVm] writes nothing on the response.  It hands on to the
    next handler only for one of the four actions of [VALID_VM_ACTIONS]
    and after WFAPI created the job, whose id it leaves in [req.juuid];
    in every other case it ends with [next(err)] and leaves the request as
    it was. *)
Theorem updateVm_hands_on_with_job req log req' log' k :
  updateVm c req log = Done (req', log', k) →
  log' = log ∧ k ≠ NoNext
  ∧ (k = Next →
     (∃ a, a ∈ VALID_VM_ACTIONS ∧ pget (params req) "action" = VStr a)
     ∧ ∃ reply : value * value,
         truthy reply.1 = false ∧ req' = set_juuid reply.2 req
         ∧ (reply = wfapi_createStartJob c req
            ∨ reply = wfapi_createStopJob c req
            ∨ reply = wfapi_createRebootJob c req
            ∨ ∃ p, common_validateUpdate c (params req) = inr p
                   ∧ reply = wfapi_createUpdateJob c req p))
  ∧ (∀ e, k = NextErr e → req' = req).
Proof.
  intros H. apply updateVm_inv in H as [-> H]. split; [done|].
  destruct H as [(-> & [(_ & ->)|[(_ & _ & ->)|(_ & err & ->)]])
                |(Hv & -> & Hreply)]; try done.
  split; [done|]. split; [|done]. intros _. split; [|done].
  by apply validAction_iff.
Qed.

(** X28. [createVm] caches the VM and answers only after validation
    passed and WFAPI created the job: the VM it caches is the translation
    of the parameters with the defaults, [state = 'provisioning'] and the
    uuid WFAPI chose; when it ends with [next(err)] nothing was cached or
    sent. *)
Theorem createVm_caches_after_job req log req' log' k :
  createVm c req log = Done (req', log', k) →
  k ≠ NoNext
  ∧ (∀ e, k = NextErr e → log' = log)
  ∧ (k = Next →
     ∃ err vmuuid juuid uuid,
       let req1 := set_params (common_setDefaultValues c (params req)) req in
       let p := <["uuid" := vmuuid]>
                  (<["state" := VStr "provisioning"]> (params req1)) in
       truthy (common_validateVm c (params req)) = false
       ∧ wfapi_createProvisionJob c req1 = (err, vmuuid, juuid)
       ∧ truthy err = false
       ∧ params req' = p
       ∧ get_prop (common_translateVm c (VObj p)) "uuid" = Done uuid
       ∧ log' = (log ++ [CacheSet uuid (common_translateVm c (VObj p));
                         Send 201 (VObj {[ "vm_uuid" := uuid;
                                           "job_uuid" := juuid ]})])%list).
Proof.
  unfold createVm. intros H.
  destruct (truthy (common_validateVm c (params req))) eqn:Hv.
  { injection H as <- <- <-. split; [done|]. split; [done|]. discriminate. }
  destruct (wfapi_createProvisionJob c _) as [[err vmuuid] juuid] eqn:Hjob.
  destruct (truthy err) eqn:Herr.
  { injection H as <- <- <-. split; [done|]. split; [done|]. discriminate. }
  apply bind_Done in H as (uuid & Huuid & H). injection H as <- <- <-.
  split; [done|]. split; [discriminate|]. intros _.
  by exists err, vmuuid, juuid, uuid.
Qed.

(** X29. The handlers given to [mount] as [before] guard every route:
    when they do not end with [next()], the handlers of the route do not
    run and the request ends as the [before] handlers left it. *)
Theorem before_handlers_guard_routes before r req log req' log' k :
  runChain before req log = Done (req', log', k) → k ≠ Next →
  runChain (mount c before r) req log = Done (req', log', k).
Proof.
  intros H Hk.
  destruct r; cbn [mount]; rewrite runChain_app, H; by destruct k.
Qed.

End Routes.

Lemma route_answers_once_witness :
  responses [CacheSet (VStr "vm-1")
               (VObj (<["uuid" := VStr "vm-1"]>
                        (<["state" := VStr "provisioning"]>
                           (params req_create))));
             Send 201 accepted_body] = 1%nat.
Proof.
  refine (route_answers_once accepting CreateVm req_create _ _ Next _).
  vm_compute. reflexivity.
Defined.

Lemma delete_marks_destroyed_witness :
  ∃ req' log', runChain (mount accepting [] DeleteVm) (req_on_vm ∅) []
               = Done (req', log', NoNext)
               ∧ marked_destroyed log' = [VObj {[ "uuid" := VStr "vm-1" ]}].
Proof.
  assert (∃ req' log', runChain (mount accepting [] DeleteVm) (req_on_vm ∅) []
                       = Done (req', log', NoNext))
    as (req' & log' & Hrun) by (eexists _, _; vm_compute; reflexivity).
  exists req', log'. split; [exact Hrun|].
  destruct (delete_marks_destroyed _ _ _ _ _ Hrun) as (_ & Hmark & _).
  by destruct (Hmark eq_refl) as [-> _].
Defined.

Lemma updateVm_hands_on_with_job_witness :
  ∃ a, a ∈ VALID_VM_ACTIONS
       ∧ pget (params (req_on_vm {[ "action" := VStr "stop" ]})) "action"
         = VStr a.
Proof.
  destruct (updateVm_hands_on_with_job accepting
              (req_on_vm {[ "action" := VStr "stop" ]}) []
              (set_juuid (VStr "job-1")
                 (req_on_vm {[ "action" := VStr "stop" ]})) [] Next)
    as (_ & _ & Hnext & _).
  - vm_compute. reflexivity.
  - by destruct (Hnext eq_refl) as [Ha _].
Defined.

Lemma createVm_caches_after_job_witness :
  ∃ req' log', createVm accepting req_create [] = Done (req', log', Next)
               ∧ params req' !! "state" = Some (VStr "provisioning").
Proof.
  assert (∃ req' log', createVm accepting req_create []
                       = Done (req', log', Next))
    as (req' & log' & Hrun) by (eexists _, _; vm_compute; reflexivity).
  exists req', log'. split; [exact Hrun|].
  destruct (createVm_caches_after_job _ _ _ _ _ _ Hrun) as (_ & _ & Hnext).
  destruct (Hnext eq_refl) as (err & vmuuid & juuid & uuid & _ & _ & _
                               & -> & _).
  rewrite lookup_insert_ne by discriminate. by rewrite lookup_insert_eq.
Defined.

(** A [before] handler that refuses the request: no job is created. *)
Lemma before_handlers_guard_routes_witness :
  runChain
    (mount accepting
       [λ req log, Done (req, log, NextErr (Upstream (VStr "no")))]
       DeleteVm)
    (req_on_vm ∅) []
  = Done (req_on_vm ∅, [], NextErr (Upstream (VStr "no"))).
Proof.
  apply before_handlers_guard_routes; [reflexivity|discriminate].
Defined.

End EndpointMore.

(** *** provision.js: preparePayload under retry *)

Module RetryFacts.
Import JS Job Stated Samples JSFacts PasswordFacts PayloadFacts PayloadMore.
Import Provision.

(** Two payloads that differ at most in [internal_metadata]. *)
Abbreviation agree pl pl' :=
  (∀ k : string, k ≠ "internal_metadata" →
                 (pl' : gmap string value) !! k = (pl : gmap string value) !! k).

(** Two sets of parameters that differ at most in [internal_metadata] and
    [payload]. *)
Abbreviation same_params p P :=
  (∀ k : string, k ≠ "internal_metadata" → k ≠ "payload" →
                 (P : gmap string value) !! k = (p : gmap string value) !! k).

Lemma insert_agree k0 v (pl pl' : gmap string value) :
  agree pl pl' → agree (<[k0 := v]> pl) (<[k0 := v]> pl').
Proof.
  intros H k Hk. destruct (decide (k0 = k)) as [->|Hne].
  - by rewrite !lookup_insert_eq.
  - rewrite !lookup_insert_ne by done. by apply H.
Qed.

Lemma delete_agree k0 (pl pl' : gmap string value) :
  agree pl pl' → agree (delete k0 pl) (delete k0 pl').
Proof.
  intros H k Hk. destruct (decide (k0 = k)) as [->|Hne].
  - by rewrite !lookup_delete_eq.
  - rewrite !lookup_delete_ne by done. by apply H.
Qed.

Lemma copyKeys_agree p P pl0 :
  same_params p P → agree (copyKeys p pl0) (copyKeys P pl0).
Proof.
  intros H k Hk. unfold copyKeys. rewrite !copy_lookup.
  destruct (bool_decide (k ∈ keys)) eqn:E; [|done].
  apply bool_decide_eq_true in E.
  assert (k ≠ "payload") as Hp by (intros ->; revert E; other_key).
  unfold pget. by rewrite (H k Hk Hp).
Qed.

Lemma withResolversAndRoutes_agree want acc pl pl' :
  agree pl pl' →
  agree (withResolversAndRoutes want acc pl)
        (withResolversAndRoutes want acc pl').
Proof.
  intros H. unfold withResolversAndRoutes.
  assert (pget pl' "resolvers" = pget pl "resolvers") as ->
    by (unfold pget; by rewrite H).
  destruct (negb _); destruct (_ && _)%bool;
    repeat apply insert_agree; done.
Qed.

Lemma withImgapiPeers_agree p P pl pl' :
  same_params p P → agree pl pl' →
  agree (withImgapiPeers p pl) (withImgapiPeers P pl').
Proof.
  intros Hp H. unfold withImgapiPeers.
  assert (pget P "imgapiPeers" = pget p "imgapiPeers") as ->
    by (unfold pget; by rewrite Hp).
  destruct (is_undefined _); [done|]. by apply insert_agree.
Qed.

Lemma addOtherProps_agree p P image fields :
  (∀ f, f ∈ fields → pget P f = pget p f) →
  ∀ pl pl' q,
    agree pl pl' →
    addOtherPropsToPayload p image fields pl = Done q →
    ∃ q', addOtherPropsToPayload P image fields pl' = Done q' ∧ agree q q'.
Proof.
  induction fields as [|f fields IH]; intros Hf pl pl' q H Hq.
  - injection Hq as <-. by exists pl'.
  - simpl in Hq. apply bind_Done in Hq as (x & Hx & Hq). simpl.
    rewrite (Hf f) by apply list_elem_of_here. rewrite Hx. run_bind.
    eapply IH; [|by apply insert_agree|exact Hq].
    intros g Hg. apply Hf. by apply list_elem_of_further.
Qed.

Lemma brandFields_agree p P image pl pl' pl5 :
  same_params p P → agree pl pl' →
  brandFields p image pl = Done pl5 →
  ∃ pl5', brandFields P image pl' = Done pl5' ∧ agree pl5 pl5'.
Proof.
  intros Hp H Hrun. unfold brandFields in *.
  assert (∀ k, k ≠ "internal_metadata" → k ≠ "payload" →
               pget P k = pget p k) as Hget
    by (intros k H1 H2; unfold pget; by rewrite Hp).
  rewrite !(Hget "brand") by discriminate.
  destruct (isHvmBrand (pget p "brand")).
  - apply bind_Done in Hrun as (q & Hq & Hrun). injection Hrun as <-.
    rewrite (Hget "disks") by discriminate.
    destruct (addOtherProps_agree p P image (otherProps (pget p "brand")))
      with (pl := <["disks" := pget p "disks"]> pl)
           (pl' := <["disks" := pget p "disks"]> pl') (q := q)
      as (q' & -> & Hq'); [|by apply insert_agree|done|].
    + intros f Hf. apply Hget.
      * intros ->. revert Hf. apply otherProps_subset. other_key.
      * intros ->. revert Hf. apply otherProps_subset. other_key.
    + run_bind. eexists. split; [done|]. by apply delete_agree.
  - injection Hrun as <-.
    rewrite (Hget "image_uuid"), (Hget "filesystems") by discriminate.
    eexists. split; [done|].
    destruct (is_undefined _); repeat apply insert_agree; done.
Qed.

(** Once [inheritKernelVersion] ran, it changes nothing. *)
Lemma inheritKernelVersion_again p image p1 P :
  inheritKernelVersion p image = Done p1 →
  P !! "kernel_version" = p1 !! "kernel_version" →
  inheritKernelVersion P image = Done P.
Proof.
  unfold inheritKernelVersion. intros H HP.
  apply bind_Done in H as (hasTags & -> & H). run_bind.
  destruct hasTags; [|done].
  apply bind_Done in H as (tags & -> & H). run_bind.
  apply bind_Done in H as (hasKv & -> & H). run_bind.
  destruct hasKv; [|done]. cbn [andb] in *.
  assert (phas P "kernel_version" = true) as ->; [|done].
  apply phas_spec. rewrite HP.
  destruct (phas p "kernel_version") eqn:Hp; cbn [negb] in H.
  - injection H as <-. by apply phas_spec.
  - apply bind_Done in H as (kv & _ & H). injection H as <-.
    by rewrite lookup_insert_eq.
Qed.

Lemma lxBrand_again ity p P :
  P !! "brand" = lxBrand ity p !! "brand" → lxBrand ity P = P.
Proof.
  unfold lxBrand. destruct (is_str "lx-dataset" ity); [|done].
  rewrite lookup_insert_eq. intros H. by apply insert_id.
Qed.

Lemma wantResolvers_agree p P want :
  wantResolvers p = Done want →
  (pget P "internal_metadata" = pget p "internal_metadata"
   ∨ ∃ o o', pget p "internal_metadata" = VObj o
             ∧ pget P "internal_metadata" = VObj o'
             ∧ o' !! "set_resolvers" = o !! "set_resolvers") →
  wantResolvers P = Done want.
Proof.
  unfold wantResolvers. intros H [->|(o & o' & Ho & -> & Hsr)]; [done|].
  rewrite Ho in H. cbn in *. unfold pget in *. by rewrite Hsr.
Qed.

Section Retry.
Variable JSON_parse : string → value + string.
Variable JSON_stringify : value → string.

(** [preparePayload] from its stages. *)
Lemma preparePayload_from_stages j p1 ity want nics acc payload5 payload7 p3 :
  let p0 := <["jobid" := uuid j]> (params j) in
  let image := pget p0 "image" in
  inheritKernelVersion p0 image = Done p1 →
  get_prop image "type" = Done ity →
  wantResolvers (lxBrand ity p1) = Done want →
  nicsItems (pget (lxBrand ity p1) "nics") = Done nics →
  nicLoop nics ([], ∅) = Done acc →
  brandFields (lxBrand ity p1) image
    (withResolversAndRoutes want acc
       (<["archive_on_delete" := VBool true]>
          (copyKeys (lxBrand ity p1)
             {[ "uuid" := pget p0 "vm_uuid"; "image" := image ]})))
  = Done payload5 →
  nfsMetadata JSON_parse JSON_stringify j (lxBrand ity p1)
    (withImgapiPeers (lxBrand ity p1) payload5)
  = Done (inl (payload7, p3)) →
  preparePayload JSON_parse JSON_stringify j
  = Done (set_params (<["payload" := VObj payload7]> p3) j,
          CbOk "Payload prepared successfully").
Proof.
  intros p0 image Hp1 Hity Hwant Hnics Hacc Hp5 Hnfs.
  unfold preparePayload. fold p0. fold image.
  rewrite Hp1. run_bind. rewrite Hity. run_bind. rewrite Hwant. run_bind.
  rewrite Hnics. run_bind. rewrite Hacc. run_bind. rewrite Hp5. run_bind.
  rewrite Hnfs. reflexivity.
Qed.

(** The NFS block returns whenever the metadata it writes to is an object
    and, for a docker VM, the volumes parse to an array of objects. *)
Lemma nfsMetadata_returns j p payload :
  (phas payload "internal_metadata" = false
   ∨ ∃ o, pget payload "internal_metadata" = VObj o) →
  (is_true (pget p "docker") = true →
   ∃ vols vols',
     JSON_parse (to_string (nfsVolumesInternalMetadata j)) = inl (VArr vols)
     ∧ eachVol vols = Done vols') →
  ∃ payload' p',
    nfsMetadata JSON_parse JSON_stringify j p payload
    = Done (inl (payload', p')).
Proof.
  intros Hobj Hdocker. unfold nfsMetadata.
  destruct (is_undefined (nfsVolumesInternalMetadata j)); [by eexists _, _|].
  assert (∃ o0, (if phas payload "internal_metadata"
                 then pget payload "internal_metadata" else VObj ∅)
                = VObj o0) as [o0 ->].
  { destruct Hobj as [-> | [o Ho]]; [by eexists|].
    destruct (phas payload "internal_metadata"); by eexists. }
  destruct (is_true (pget p "docker")).
  - destruct (Hdocker eq_refl) as (vols & vols' & -> & ->).
    cbn [mbind outcome_bind set_prop]. by eexists _, _.
  - cbn [mbind outcome_bind set_prop]. by eexists _, _.
Qed.


Lemma nfsMetadata_set_params P j p payload :
  nfsMetadata JSON_parse JSON_stringify (set_params P j) p payload
  = nfsMetadata JSON_parse JSON_stringify j p payload.
Proof. reflexivity. Qed.

(** The object the NFS block writes is fixed by the object it starts from;
    starting from its own result it writes the same object again. *)
Lemma nfs_object_again nfs (docker : bool) (o0 o0' o2 o2' : gmap string value) :
  o0' = o0 ∨ o0' = o2 →
  o2 !! "sdc:volumes" = Some nfs →
  (∀ k, k ≠ "sdc:volumes" → k ≠ "docker:nfsvolumes" → o2 !! k = o0 !! k) →
  (if docker
   then ∃ vols vols',
          JSON_parse (to_string nfs) = inl (VArr vols)
          ∧ eachVol vols = Done vols'
          ∧ o2 !! "docker:nfsvolumes"
            = Some (VStr (JSON_stringify (VArr vols')))
   else o2 !! "docker:nfsvolumes" = o0 !! "docker:nfsvolumes") →
  o2' !! "sdc:volumes" = Some nfs →
  (∀ k, k ≠ "sdc:volumes" → k ≠ "docker:nfsvolumes" → o2' !! k = o0' !! k) →
  (if docker
   then ∃ vols vols',
          JSON_parse (to_string nfs) = inl (VArr vols)
          ∧ eachVol vols = Done vols'
          ∧ o2' !! "docker:nfsvolumes"
            = Some (VStr (JSON_stringify (VArr vols')))
   else o2' !! "docker:nfsvolumes" = o0' !! "docker:nfsvolumes") →
  o2' = o2.
Proof.
  intros Hfrom Hsdc Hother Hdock Hsdc' Hother' Hdock'.
  apply map_eq. intros k.
  destruct (decide (k = "sdc:volumes")) as [->|H1]; [congruence|].
  destruct (decide (k = "docker:nfsvolumes")) as [->|H2].
  - destruct docker.
    + destruct Hdock as (vols & vols1 & Hparse & Hvols & ->).
      destruct Hdock' as (vols' & vols1' & Hparse' & Hvols' & ->).
      congruence.
    + rewrite Hdock'. destruct Hfrom as [->| ->]; congruence.
  - rewrite Hother' by done. destruct Hfrom as [->| ->]; [|done].
    by rewrite Hother.
Qed.

(** X30. [preparePayload] is safe to retry: run again on the job it
    left, it builds the same payload, leaves the same parameters and gives
    the same answer. *)
Theorem preparePayload_retry j j' msg :
  preparePayload JSON_parse JSON_stringify j = Done (j', CbOk msg) →
  preparePayload JSON_parse JSON_stringify j' = Done (j', CbOk msg).
Proof.
  intros H.
  assert (msg = "Payload prepared successfully") as ->.
  { apply preparePayload_params in H.
    destruct H as (? & ? & _ & _ & _ & [(? & ? & _)|(? & ? & Hcb & _)]);
      [discriminate|]. by injection Hcb. }
  apply preparePayload_stages in H. cbv zeta in H.
  destruct H as (p1 & ity & want & nics & acc & payload5 & payload7 & p3
                 & Hp1 & Hity & Hwant & Hnics & Hacc & Hp5 & Hnfs & ->).
  assert (pget (<["jobid" := uuid j]> (params j)) "image"
          = pget (params j) "image") as Himg
    by (by rewrite pget_insert_ne).
  assert (pget (<["jobid" := uuid j]> (params j)) "vm_uuid"
          = pget (params j) "vm_uuid") as Hvm
    by (by rewrite pget_insert_ne).
  rewrite Himg in Hp1, Hity, Hp5. rewrite Hvm in Hp5.
  set (p2 := lxBrand ity p1) in *.
  set (image := pget (params j) "image") in *.
  set (payload0 := ({[ "uuid" := pget (params j) "vm_uuid";
                       "image" := image ]} : gmap string value)) in *.
  set (P := <["payload" := VObj payload7]> p3).
  (* the parameters the second run starts from *)
  assert (∀ k, k ∉ ["jobid"; "kernel_version"; "brand"] →
               p2 !! k = params j !! k) as Hp2.
  { intros k Hk. split_not_among Hk. unfold p2.
    rewrite lxBrand_frame by done.
    rewrite (inheritKernelVersion_frame _ _ _ k Hp1) by done.
    by rewrite lookup_insert_ne. }
  assert (same_params p2 P) as Hsame.
  { intros k H1 H2. unfold P. rewrite lookup_insert_ne by done.
    by destruct (nfsMetadata_frame _ _ _ _ _ _ _ k Hnfs H1) as [_ ->]. }
  assert (∀ k, k ≠ "internal_metadata" → k ≠ "payload" →
               pget P k = pget p2 k) as Hget
    by (intros k H1 H2; unfold pget; by rewrite Hsame).
  assert (<["jobid" := uuid j]> P = P) as Hjobid.
  { apply insert_id. rewrite Hsame by discriminate. unfold p2.
    rewrite lxBrand_frame by discriminate.
    rewrite (inheritKernelVersion_frame _ _ _ "jobid" Hp1) by discriminate.
    by rewrite lookup_insert_eq. }
  assert (pget P "image" = image) as Himage.
  { rewrite Hget by discriminate. unfold pget, image.
    by rewrite Hp2 by other_key. }
  assert (pget P "vm_uuid" = pget (params j) "vm_uuid") as Hvmuuid.
  { rewrite Hget by discriminate. unfold pget.
    by rewrite Hp2 by other_key. }
  assert (inheritKernelVersion P image = Done P) as Hp1'.
  { eapply inheritKernelVersion_again; [exact Hp1|].
    rewrite Hsame by discriminate. unfold p2.
    by rewrite lxBrand_frame by discriminate. }
  assert (lxBrand ity P = P) as Hlx.
  { apply (lxBrand_again ity p1). fold p2. by rewrite Hsame by discriminate. }
  (* the payload before the NFS block, in both runs *)
  pose proof (payload_before_nfs _ _ _ _ _ _ Hp5) as H6.
  rewrite copied_lookup in H6;
    [|one_of_keys|
     unfold payload0; by rewrite lookup_insert_ne, lookup_singleton_ne].
  assert (agree (withResolversAndRoutes want acc
                   (<["archive_on_delete" := VBool true]>
                      (copyKeys p2 payload0)))
                (withResolversAndRoutes want acc
                   (<["archive_on_delete" := VBool true]>
                      (copyKeys P payload0)))) as Hagree4.
  { apply withResolversAndRoutes_agree, insert_agree.
    by apply copyKeys_agree. }
  destruct (brandFields_agree p2 P image _ _ _ Hsame Hagree4 Hp5)
    as (payload5' & Hp5' & Hagree5).
  pose proof (payload_before_nfs _ _ _ _ _ _ Hp5') as H6'.
  rewrite copied_lookup in H6';
    [|one_of_keys|
     unfold payload0; by rewrite lookup_insert_ne, lookup_singleton_ne].
  pose proof (withImgapiPeers_agree p2 P _ _ Hsame Hagree5) as Hagree6.
  set (payload6 := withImgapiPeers p2 payload5) in *.
  set (payload6' := withImgapiPeers P payload5') in *.
  assert (pget P "docker" = pget p2 "docker") as Hdocker
    by (by apply Hget).
  (* what the first run did to internal_metadata, and the second *)
  assert ((pget P "internal_metadata" = pget p2 "internal_metadata"
           ∨ ∃ o o', pget p2 "internal_metadata" = VObj o
                     ∧ pget P "internal_metadata" = VObj o'
                     ∧ o' !! "set_resolvers" = o !! "set_resolvers")
          ∧ ∃ payload7' p3',
              nfsMetadata JSON_parse JSON_stringify j P payload6'
              = Done (inl (payload7', p3'))
              ∧ <["payload" := VObj payload7']> p3' = P) as [Hmeta Hnfs'].
  { pose proof Hnfs as Hinv. apply nfsMetadata_inv in Hinv.
    cbv zeta in Hinv.
    destruct Hinv as [(Hu & Hpl7 & Hp3) |
                      (Hdef & o0 & o2 & Hshared & Hsdc & Hother & Hdock
                       & Hpl7 & Hp3)].
    - (* no NFS volumes *)
      assert (pget P "internal_metadata" = pget p2 "internal_metadata")
        as Hsame_im.
      { unfold P. rewrite pget_insert_ne by discriminate. by rewrite Hp3. }
      split; [by left|]. exists payload6', P. split.
      + unfold nfsMetadata. by rewrite Hu.
      + assert (payload6' = payload6) as ->.
        { apply map_eq. intros k.
          destruct (decide (k = "internal_metadata")) as [->|Hk].
          - by rewrite H6, H6', Hsame_im.
          - by apply Hagree6. }
        unfold P. rewrite Hpl7. by rewrite insert_insert_eq.
    - (* NFS volumes *)
      assert (∀ payload7' p3' (o0' : gmap string value),
                (o0' = o0 ∨ o0' = o2) →
                nfsMetadata JSON_parse JSON_stringify j P payload6'
                = Done (inl (payload7', p3')) →
                (if phas payload6' "internal_metadata"
                 then pget payload6' "internal_metadata" = VObj o0'
                 else o0' = ∅) →
                (if phas payload6' "internal_metadata"
                 then P !! "internal_metadata" = Some (VObj o2)
                 else True) →
                (∀ o0'' : gmap string value,
                   (if phas payload6' "internal_metadata"
                    then pget payload6' "internal_metadata" = VObj o0''
                    else o0'' = ∅) → o0'' = o0') →
                <["payload" := VObj payload7']> p3' = P) as Hclose.
      { intros payload7' p3' o0' Hfrom Hrun' Hshared' HP Huniq.
        apply nfsMetadata_inv in Hrun'. cbv zeta in Hrun'.
        destruct Hrun' as [(Hu & _)|
                           (_ & o0'' & o2'' & Hs'' & Hsdc' & Hother' & Hdock'
                            & -> & ->)]; [done|].
        assert (o0'' = o0') as -> by (by eapply Huniq).
        rewrite Hdocker in Hdock'.
        assert (o2'' = o2) as ->.
        { eapply (nfs_object_again (nfsVolumesInternalMetadata j)
                    (is_true (pget p2 "docker")) o0 o0' o2 o2''); eauto. }
        assert (<["internal_metadata" := VObj o2]> payload6' = payload7)
          as ->.
        { rewrite Hpl7. apply map_eq. intros k.
          destruct (decide (k = "internal_metadata")) as [->|Hk].
          - by rewrite !lookup_insert_eq.
          - rewrite !lookup_insert_ne by done. by apply Hagree6. }
        destruct (phas payload6' "internal_metadata").
        - rewrite (insert_id P) by done. unfold P.
          by rewrite insert_insert_eq.
        - unfold P. by rewrite insert_insert_eq. }
      destruct (is_undefined (pget p2 "internal_metadata")) eqn:Hud.
      + (* the parameters had no internal_metadata *)
        assert (phas payload6 "internal_metadata" = false) as Hno
          by (by apply phas_false).
        rewrite Hno in Hshared, Hp3.
        assert (pget P "internal_metadata" = pget p2 "internal_metadata")
          as Hsame_im.
        { unfold P. rewrite pget_insert_ne by discriminate. by rewrite Hp3. }
        rewrite Hsame_im, Hud in H6'.
        assert (phas payload6' "internal_metadata" = false) as Hno'
          by (by apply phas_false).
        split; [by left|].
        destruct (nfsMetadata_returns j P payload6') as (payload7' & p3' & Hrun').
        { by left. }
        { rewrite Hdocker. intros Hd. rewrite Hd in Hdock.
          destruct Hdock as (vols & vols' & ? & ? & _). eauto. }
        exists payload7', p3'. split; [done|].
        apply (Hclose payload7' p3' o0); [by left|done|..].
        * by rewrite Hno'.
        * by rewrite Hno'.
        * intros o0''. rewrite Hno'. congruence.
      + (* the parameters had one: it is shared with the payload *)
        assert (phas payload6 "internal_metadata" = true) as Hyes
          by (apply phas_spec; by rewrite H6).
        rewrite Hyes in Hshared, Hp3.
        assert (pget p2 "internal_metadata" = VObj o0) as Ho0.
        { rewrite <- Hshared. unfold pget at 2. by rewrite H6. }
        assert (P !! "internal_metadata" = Some (VObj o2)) as HP.
        { unfold P. rewrite lookup_insert_ne by discriminate.
          rewrite Hp3. by rewrite lookup_insert_eq. }
        assert (pget P "internal_metadata" = VObj o2) as HPget
          by (unfold pget; by rewrite HP).
        rewrite HPget in H6'. cbn [is_undefined] in H6'.
        assert (phas payload6' "internal_metadata" = true) as Hyes'
          by (apply phas_spec; by rewrite H6').
        assert (pget payload6' "internal_metadata" = VObj o2) as Hget6'
          by (unfold pget; by rewrite H6').
        split.
        { right. exists o0, o2. split; [done|]. split; [done|].
          by apply Hother. }
        destruct (nfsMetadata_returns j P payload6') as (payload7' & p3' & Hrun').
        { right. by exists o2. }
        { rewrite Hdocker. intros Hd. rewrite Hd in Hdock.
          destruct Hdock as (vols & vols' & ? & ? & _). eauto. }
        exists payload7', p3'. split; [done|].
        apply (Hclose payload7' p3' o2); [by right|done|..].
        * by rewrite Hyes'.
        * by rewrite Hyes'.
        * intros o0''. rewrite Hyes', Hget6'. congruence. }
  destruct Hnfs' as (payload7' & p3' & Hnfs' & Hsame_job).
  (* the second run, stage by stage *)
  rewrite (preparePayload_from_stages (set_params P j) P ity want nics acc
             payload5' payload7' p3').
  - rewrite Hsame_job. by destruct j.
  - cbn [uuid params set_params]. rewrite Hjobid, Himage. exact Hp1'.
  - cbn [uuid params set_params]. rewrite Hjobid, Himage. exact Hity.
  - rewrite Hlx. by eapply wantResolvers_agree.
  - rewrite Hlx. rewrite Hget by discriminate. exact Hnics.
  - exact Hacc.
  - cbn [uuid params set_params]. rewrite Hjobid, Himage, Hvmuuid, Hlx.
    exact Hp5'.
  - rewrite Hlx, nfsMetadata_set_params. exact Hnfs'.
Qed.

End Retry.

Lemma preparePayload_retry_witness :
  preparePayload no_parse no_print job_kvm_prepared
  = Done (job_kvm_prepared, CbOk "Payload prepared successfully").
Proof.
  apply (preparePayload_retry no_parse no_print job_kvm).
  vm_compute. reflexivity.
Defined.

End RetryFacts.
